(** * Defence Mission Track: the backend's encryption envelope, team
    controllers and realtime router, embedded from the TypeScript sources.

    - [Hex], [Json]: Node's [Buffer] hex codec and [JSON.stringify] /
      [JSON.parse] on the envelope object.
    - [Crypto]: the interface of the password-based authenticated cipher
      behind [crypto.createCipher('aes-256-gcm', ...)], and a small
      instance on which the embedding runs.
    - [EncryptionService]: src/backend/src/utils/encryption.ts.
    - [Db], [DatabaseService]: the Supabase tables and the helper class of
      config/database.ts.
    - [Runtime]: the state of the process and the monad of handler bodies.
    - [WebSocketService]: the socket.io service.
    - [Http], [TeamController], [MessageController]: the HTTP controllers.
    - [EncryptionUtilities], [JWTService], [AuthMiddleware], [SocketService],
      [TeamEndpoints], [NotificationController], [MessageEndpoints]: more
      members of the same classes and the middleware in front of them, with
      [Api] for their responses and [DbSingle] for the writes that read the
      row back.
    The second part, from [HexFacts] on, holds the proofs, module by
    module, and [Sample], a small deployment on which the handlers are run.

    JavaScript strings are represented by their UTF-8 bytes (a Rocq
    [string]); [Buffer.from(s, 'utf8')] and [buf.toString('utf8')] are then
    the two conversions between [string] and [list byte].  Strings holding
    lone surrogates and buffers holding invalid UTF-8 are outside this
    representation. *)

From Stdlib Require Import NArith Strings.Ascii Strings.String Strings.Byte.
From stdpp Require Import base option list strings pretty gmap.

#[local] Set Warnings "-clear-no-such-hyp".


(** ** Buffers and the hex encoding *)

Module Hex.

#[global] Instance byte_eq_decision : EqDecision byte := Byte.byte_eq_dec.

(** One hex digit of [buf.toString('hex')]: lower case. *)
Definition hex_digit (n : N) : ascii :=
  match n with
  | 0 => "0" | 1 => "1" | 2 => "2" | 3 => "3" | 4 => "4" | 5 => "5"
  | 6 => "6" | 7 => "7" | 8 => "8" | 9 => "9" | 10 => "a" | 11 => "b"
  | 12 => "c" | 13 => "d" | 14 => "e" | _ => "f"
  end%N%char.

(** The value of a hex digit, either case; [None] for any other
    character. *)
Definition unhex (c : ascii) : option N :=
  let n := N_of_ascii c in
  if ((48 <=? n) && (n <=? 57))%N then Some (n - 48)%N
  else if ((97 <=? n) && (n <=? 102))%N then Some (n - 87)%N
  else if ((65 <=? n) && (n <=? 70))%N then Some (n - 55)%N
  else None.

Definition is_hex_char (c : ascii) : bool :=
  match unhex c with Some _ => true | None => false end.

Definition byte_to_hex (b : byte) (rest : string) : string :=
  String (hex_digit (Byte.to_N b / 16)) (String (hex_digit (Byte.to_N b mod 16)) rest).

(** [buf.toString('hex')] *)
Fixpoint Buffer_toString_hex (buf : list byte) : string :=
  match buf with
  | [] => ""
  | b :: rest => byte_to_hex b (Buffer_toString_hex rest)
  end.

(** [Buffer.from(s, 'hex')].  Node decodes pair by pair and stops, without
    an error, at the first pair that is not two hex digits; a trailing odd
    character is dropped. *)
Fixpoint Buffer_from_hex (s : string) : list byte :=
  match s with
  | String a (String b rest) =>
      match unhex a, unhex b with
      | Some x, Some y =>
          match Byte.of_N (16 * x + y) with
          | Some v => v :: Buffer_from_hex rest
          | None => []
          end
      | _, _ => []
      end
  | _ => []
  end.

(** [Buffer.from(s, 'utf8')] and [buf.toString('utf8')] *)
Definition Buffer_from_utf8 (s : string) : list byte := list_byte_of_string s.
Definition Buffer_toString_utf8 (buf : list byte) : string := string_of_list_byte buf.

(** A string is well-formed hex when it is an even number of hex digits. *)
Fixpoint well_formed_hex (s : string) : bool :=
  match s with
  | "" => true
  | String a (String b rest) => is_hex_char a && is_hex_char b && well_formed_hex rest
  | _ => false
  end.

End Hex.


(** ** The cipher behind [crypto.createCipher] *)

Module Crypto.

(** [crypto.createCipher('aes-256-gcm', password)] is the password-based
    constructor: OpenSSL derives key and nonce from the password alone, so a
    password of any length is accepted and no caller-supplied IV takes part.
    The service uses it through two call sequences:
    - [createCipher; setAAD aad; update p; final; getAuthTag], here
      [seal password aad p], the ciphertext and the tag;
    - [createDecipher; setAAD aad; setAuthTag tag; update c; final], here
      [open password aad c tag], for a tag of a length [setAuthTag] takes
      and a ciphertext [update] takes: the plaintext, or [None] when
      [final] throws because the tag does not verify.
    The laws are those of AES-GCM: decryption inverts encryption, the
    ciphertext is as long as the plaintext (GCM is a counter mode), and
    [getAuthTag] returns sixteen bytes. *)
Record PasswordCipher := {
  seal : list byte -> list byte -> list byte -> list byte * list byte;
  open : list byte -> list byte -> list byte -> list byte -> option (list byte);
  open_seal : forall pw aad p,
    open pw aad (seal pw aad p).1 (seal pw aad p).2 = Some p;
  seal_length : forall pw aad p, length (seal pw aad p).1 = length p;
  seal_tag_length : forall pw aad p, length (seal pw aad p).2 = 16
}.

(** [crypto.randomBytes]: the generator is an infinite stream of bytes, read
    from the front. *)
Definition Rng := nat -> byte.

Definition randomBytes (n : nat) (g : Rng) : list byte * Rng :=
  (map g (seq 0 n), fun i => g (n + i)).

End Crypto.

(** ** src/backend/src/utils/encryption.ts *)

Module EncryptionService.
Import Hex Crypto.

Definition KEY_LENGTH : nat := 32.
Definition IV_LENGTH : nat := 16.
Definition TAG_LENGTH : nat := 16.

(** What a [throw] carries: the class of the error and its message. *)
Inductive JsError :=
| TypeError (msg : string)
| Error (msg : string).

(** [EncryptedMessage] of types/index.ts.  The interface declares four
    strings; at run time a field can be absent, since the decrypt endpoint
    hands the request body to [decrypt] as it came: [None] is JavaScript's
    [undefined]. *)
Record EncryptedMessage := {
  content : option string;
  encryptionKey : option string;
  iv : option string;
  tag : option string
}.

(** The associated data of [setAAD]. *)
Definition AAD : list byte := Buffer_from_utf8 "defence-mission-track".

(** [initialize]: the static [encryptionKey] buffer, or the error thrown
    when the variable is absent or not 32 characters long (characters and
    bytes agree on ASCII keys). *)
Definition initialize (ENCRYPTION_KEY : option string) : JsError + list byte :=
  match ENCRYPTION_KEY with
  | Some key =>
      if Nat.eqb (String.length key) KEY_LENGTH then inr (Buffer_from_utf8 key)
      else inl (Error "ENCRYPTION_KEY must be exactly 32 characters long")
  | None => inl (Error "ENCRYPTION_KEY must be exactly 32 characters long")
  end.

(** The optional [key?: string] argument as a condition: [undefined] and the
    empty string are falsy. *)
Definition truthy (key : option string) : option string :=
  match key with
  | Some (String c k) => Some (String c k)
  | _ => None
  end.

Section Service.

Variable cipher : PasswordCipher.
(** The static field [EncryptionService.encryptionKey]. *)
Variable this_encryptionKey : list byte.

(** [generateKey] *)
Definition generateKey (g : Rng) : string * Rng :=
  let '(bytes, g) := randomBytes KEY_LENGTH g in (Buffer_toString_hex bytes, g).

(** [encrypt(plaintext, key?)] *)
Definition encrypt (plaintext : string) (key : option string) (g : Rng)
  : EncryptedMessage * Rng :=
  let encryptionKey :=
    match truthy key with
    | Some k => Buffer_from_hex k
    | None => this_encryptionKey
    end in
  let '(iv, g) := randomBytes IV_LENGTH g in
  (* createCipher(ALGORITHM, encryptionKey); setAAD; update; final; getAuthTag *)
  let '(encrypted, tag) := seal cipher encryptionKey AAD (Buffer_from_utf8 plaintext) in
  ({| content := Some (Buffer_toString_hex encrypted);
      encryptionKey :=
        Some match truthy key with
             | Some k => k
             | None => Buffer_toString_hex this_encryptionKey
             end;
      iv := Some (Buffer_toString_hex iv);
      tag := Some (Buffer_toString_hex tag) |}, g).

(** [Buffer.from(x, 'hex')] on a value that may be [undefined]. *)
Definition Buffer_from (x : option string) : JsError + list byte :=
  match x with
  | Some s => inr (Buffer_from_hex s)
  | None => inl (TypeError "The first argument must be of type string")
  end.

(** The tag lengths, in bytes, that [setAuthTag] takes in GCM mode. *)
Definition valid_tag_length (n : nat) : bool :=
  bool_decide (n ∈ [4; 8; 12; 13; 14; 15; 16]).

(** [decrypt(encryptedMessage)]: the decrypted string, or the error
    thrown.  [ivBuffer] is computed and not used.  The three buffers are
    decoded by [Buffer.from], which does not throw on a string;
    [setAuthTag] throws a [TypeError] on a tag of a length it does not
    take; [update(content, 'hex', ..)] throws a [TypeError] on a string of
    an odd number of characters and decodes any other up to its first pair
    that is not two hex digits; [final] throws an [Error] when the tag does
    not verify. *)
Definition decrypt (encryptedMessage : EncryptedMessage) : JsError + string :=
  match Buffer_from (encryptionKey encryptedMessage) with
  | inl e => inl e
  | inr key =>
  match Buffer_from (iv encryptedMessage) with
  | inl e => inl e
  | inr ivBuffer =>
  match Buffer_from (tag encryptedMessage) with
  | inl e => inl e
  | inr tagBuffer =>
  (* createDecipher(ALGORITHM, key); setAAD; setAuthTag(tagBuffer) *)
  if negb (valid_tag_length (length tagBuffer)) then
    inl (TypeError ("Invalid authentication tag length: " +:+ pretty (length tagBuffer)))
  else
  match content encryptedMessage with
  | None => inl (TypeError "The data argument must be of type string")
  | Some c =>
      (* update(content, 'hex', 'utf8') *)
      if Nat.odd (String.length c) then
        inl (TypeError ("The argument 'encoding' is invalid for data of length "
                        +:+ pretty (String.length c) +:+ ". Received 'hex'"))
      else
        (* ... + final('utf8') *)
        match open cipher key AAD (Buffer_from_hex c) tagBuffer with
        | Some decrypted => inr (Buffer_toString_utf8 decrypted)
        | None => inl (Error "Unsupported state or unable to authenticate data")
        end
  end end end end.

(** [encryptE2E(plaintext)] *)
Definition encryptE2E (plaintext : string) (g : Rng) : EncryptedMessage * Rng :=
  let '(messageKey, g) := generateKey g in
  encrypt plaintext (Some messageKey) g.

End Service.

End EncryptionService.

(** ** [JSON.stringify] and [JSON.parse] on flat objects of strings *)

Module Json.

Definition dquote : ascii := "034"%char.
Definition backslash : ascii := "092"%char.

(** A string literal's escape for one character, as [JSON.stringify]
    writes it. *)
Definition escape (c : ascii) (rest : string) : string :=
  let n := N_of_ascii c in
  if (n =? 34)%N then String backslash (String dquote rest)
  else if (n =? 92)%N then String backslash (String backslash rest)
  else if (n =? 8)%N then String backslash (String "b" rest)
  else if (n =? 12)%N then String backslash (String "f" rest)
  else if (n =? 10)%N then String backslash (String "n" rest)
  else if (n =? 13)%N then String backslash (String "r" rest)
  else if (n =? 9)%N then String backslash (String "t" rest)
  else if (n <? 32)%N then
    String backslash (String "u" (String "0" (String "0"
      (String (Hex.hex_digit (n / 16)) (String (Hex.hex_digit (n mod 16)) rest)))))
  else String c rest.

Fixpoint quote_body (s : string) (rest : string) : string :=
  match s with
  | "" => rest
  | String c s' => escape c (quote_body s' rest)
  end.

(** The JSON string literal of [s], followed by [rest]. *)
Definition quote (s : string) (rest : string) : string :=
  String dquote (quote_body s (String dquote rest)).

(** The members [k:v] of an object, comma-separated; a property whose value
    is [undefined] is left out. *)
Fixpoint members (first : bool) (props : list (string * option string)) (rest : string)
  : string :=
  match props with
  | [] => rest
  | (k, None) :: props' => members first props' rest
  | (k, Some v) :: props' =>
      let m := quote k (String ":" (quote v (members false props' rest))) in
      if first then m else String "," m
  end.

Definition stringify_object (props : list (string * option string)) : string :=
  String "{" (members true props "}").

(** [JSON.stringify(encrypted)]: properties in the order of the object
    literal in [encrypt]. *)
Definition stringify (m : EncryptionService.EncryptedMessage) : string :=
  stringify_object
    [("content", EncryptionService.content m);
     ("encryptionKey", EncryptionService.encryptionKey m);
     ("iv", EncryptionService.iv m);
     ("tag", EncryptionService.tag m)].

(** The character a two-character escape stands for. *)
Definition unescape (e : ascii) : option ascii :=
  let n := N_of_ascii e in
  if (n =? 34)%N then Some dquote
  else if (n =? 92)%N then Some backslash
  else if (n =? 47)%N then Some "/"%char
  else if (n =? 98)%N then Some "008"%char
  else if (n =? 102)%N then Some "012"%char
  else if (n =? 110)%N then Some "010"%char
  else if (n =? 114)%N then Some "013"%char
  else if (n =? 116)%N then Some "009"%char
  else None.

(** Reads a string literal whose opening quote has been consumed: its value
    and what follows the closing quote. *)
Fixpoint parse_string (s : string) : option (string * string) :=
  match s with
  | "" => None
  | String c rest =>
      if (N_of_ascii c =? 34)%N then Some ("", rest)
      else if (N_of_ascii c =? 92)%N then
        match rest with
        | String e rest' =>
            match unescape e, parse_string rest' with
            | Some ch, Some (v, r) => Some (String ch v, r)
            | _, _ => None
            end
        | "" => None
        end
      else if (N_of_ascii c <? 32)%N then None
      else
        match parse_string rest with
        | Some (v, r) => Some (String c v, r)
        | None => None
        end
  end.

(** Reads [k:v] members up to the closing brace, which must end the text. *)
Fixpoint parse_members (fuel : nat) (s : string) : option (list (string * string)) :=
  match fuel with
  | O => None
  | S fuel' =>
      match s with
      | String q s1 =>
          if (N_of_ascii q =? 34)%N then
            match parse_string s1 with
            | Some (k, String colon (String q2 s2)) =>
                if ((N_of_ascii colon =? 58) && (N_of_ascii q2 =? 34))%N then
                  match parse_string s2 with
                  | Some (v, String sep s3) =>
                      if (N_of_ascii sep =? 44)%N then
                        match parse_members fuel' s3 with
                        | Some ms => Some ((k, v) :: ms)
                        | None => None
                        end
                      else if (N_of_ascii sep =? 125)%N then
                        match s3 with "" => Some [(k, v)] | _ => None end
                      else None
                  | _ => None
                  end
                else None
            | _ => None
            end
          else None
      | "" => None
      end
  end.

(** [JSON.parse] on the fragment [stringify_object] writes: one object, no
    white space, string values, two-character escapes.  [None] is a
    [SyntaxError] or a text outside this fragment. *)
Definition parse_object (s : string) : option (list (string * string)) :=
  match s with
  | String b rest =>
      if (N_of_ascii b =? 123)%N then
        match rest with
        | String e "" => if (N_of_ascii e =? 125)%N then Some [] else None
        | _ => parse_members (String.length rest) rest
        end
      else None
  | "" => None
  end.

(** Property access [o.k] on a parsed object: the last member named [k]
    wins, an absent one reads [undefined]. *)
Fixpoint get (k : string) (o : list (string * string)) : option string :=
  match o with
  | [] => None
  | (k', v) :: o' =>
      match get k o' with
      | Some v' => Some v'
      | None => if String.eqb k k' then Some v else None
      end
  end.

(** [JSON.parse(text)] read as an [EncryptedMessage], as
    [decryptFromStorage] does. *)
Definition parse (text : string) : option EncryptionService.EncryptedMessage :=
  match parse_object text with
  | Some o =>
      Some {| EncryptionService.content := get "content" o;
              EncryptionService.encryptionKey := get "encryptionKey" o;
              EncryptionService.iv := get "iv" o;
              EncryptionService.tag := get "tag" o |}
  | None => None
  end.

(** [hay.includes(needle)] *)
Fixpoint includes (needle hay : string) : bool :=
  String.prefix needle hay ||
  match hay with
  | "" => false
  | String _ hay' => includes needle hay'
  end.

End Json.

(** ** The Supabase tables (project/supabase/migrations) *)

Module Db.

(** Rows carry the columns the modelled code reads or writes; the time
    stamps ([created_at], [joined_at], [updated_at]) are left out. *)
Record Team := {
  team_id : string;
  team_name : string;
  team_description : string
}.

Record TeamMember := {
  tm_id : string;
  tm_team_id : string;
  tm_user_id : string;
  tm_role : string;
  tm_status : string
}.

Record Message := {
  msg_id : string;
  msg_team_id : string;
  msg_mission_id : option string;
  msg_sender_id : string;
  msg_content : string;
  msg_is_encrypted : bool
}.

Record Notification := {
  n_id : string;
  n_user_id : string;
  n_type : string;
  n_title : string;
  n_content : option string;
  n_read : bool
}.

Record UserProfile := { first_name : string }.

(** A row of [auth.users] with its row of [user_profiles], if any. *)
Record User := {
  user_id : string;
  user_email : string;
  user_profile : option UserProfile
}.

Record Store := {
  teams : list Team;
  team_members : list TeamMember;
  messages : list Message;
  notifications : list Notification;
  users : list User;
  (** how many times [gen_random_uuid()] has run *)
  uuids : nat
}.

(** The CHECK constraints of the schema. *)
Definition valid_role (r : string) : bool :=
  bool_decide (r ∈ ["leader"; "member"; "observer"]).
Definition valid_status (s : string) : bool :=
  bool_decide (s ∈ ["safe"; "need_backup"; "in_progress"; "offline"]).
Definition valid_type (t : string) : bool :=
  bool_decide (t ∈ ["message"; "status_change"; "mission_update"; "alert"]).

(** The queries the modelled code sends, by table and filter. *)
Inductive Call :=
| teams_insert (name description : string)
| teams_delete (id : string)
| teams_select (id : string)
| team_members_insert (team user role status : string)
| team_members_delete (team user : string)
| team_members_update_status (user team status : string)
| team_members_select_single (user team : string)
| team_members_select_leaders (team : string)
| team_members_select_by_user (user : string)
| team_members_select_by_team (team : string)
| messages_insert (team : string) (mission : option string) (sender content : string)
    (is_encrypted : bool)
| notifications_insert (user type title : string) (content : option string)
| auth_getUserById (id : string)
| user_profiles_select (user : string).

#[global] Instance Call_eq_dec : EqDecision Call.
Proof. solve_decision. Defined.

(** What the code cannot see of the store: which queries fail for a reason
    outside the model (the network, a constraint on a column or table left
    out), with the error message, and the values [gen_random_uuid()]
    returns.  Within one handler a query sent twice fails both times or
    neither.  A query's answer is [{ data, error }]: [inl message] is an
    answer with [error] set and [data] null; the client reports a failure
    there and does not throw. *)
Record Env := {
  fails : Call -> option string;
  gen_random_uuid : nat -> string
}.

Definition Answer (A : Type) : Type := (string + A)%type.

Definition is_team_member (user team : string) (m : TeamMember) : bool :=
  bool_decide (tm_user_id m = user) && bool_decide (tm_team_id m = team).

Definition is_leader_of (team : string) (m : TeamMember) : bool :=
  bool_decide (tm_team_id m = team) && bool_decide (tm_role m = "leader").

(** [.single()]: exactly one row, or an error. *)
Definition single {A} (rows : list A) : Answer A :=
  match rows with
  | [row] => inr row
  | _ => inl "JSON object requested, multiple (or no) rows returned"
  end.

Definition next_uuid (env : Env) (s : Store) : string * Store :=
  (gen_random_uuid env (uuids s),
   {| teams := teams s; team_members := team_members s; messages := messages s;
      notifications := notifications s; users := users s; uuids := S (uuids s) |}).

Definition set_teams (s : Store) (l : list Team) : Store :=
  {| teams := l; team_members := team_members s; messages := messages s;
     notifications := notifications s; users := users s; uuids := uuids s |}.
Definition set_team_members (s : Store) (l : list TeamMember) : Store :=
  {| teams := teams s; team_members := l; messages := messages s;
     notifications := notifications s; users := users s; uuids := uuids s |}.
Definition set_messages (s : Store) (l : list Message) : Store :=
  {| teams := teams s; team_members := team_members s; messages := l;
     notifications := notifications s; users := users s; uuids := uuids s |}.
Definition set_notifications (s : Store) (l : list Notification) : Store :=
  {| teams := teams s; team_members := team_members s; messages := messages s;
     notifications := l; users := users s; uuids := uuids s |}.

Definition duplicate_key : string := "duplicate key value violates unique constraint".
Definition check_violation : string := "new row violates check constraint".

Section Queries.

Variable env : Env.

(** [from('teams').insert({ name, description }).select().single()] *)
Definition run_teams_insert (name description : string) (s : Store) : Answer Team * Store :=
  let '(id, s) := next_uuid env s in
  if bool_decide (id ∈ map team_id (teams s)) then (inl duplicate_key, s)
  else
    let row := {| team_id := id; team_name := name; team_description := description |} in
    (inr row, set_teams s (teams s ++ [row])).

(** [from('teams').delete().eq('id', id)]; the foreign keys of
    [team_members] and [messages] are ON DELETE CASCADE. *)
Definition run_teams_delete (id : string) (s : Store) : Answer unit * Store :=
  (inr (),
   {| teams := filter (fun t => team_id t ≠ id) (teams s);
      team_members := filter (fun m => tm_team_id m ≠ id) (team_members s);
      messages := filter (fun m => msg_team_id m ≠ id) (messages s);
      notifications := notifications s; users := users s; uuids := uuids s |}).

(** [from('teams').select('*').eq('id', id).single()] *)
Definition run_teams_select (id : string) (s : Store) : Answer Team * Store :=
  (single (filter (fun t => team_id t = id) (teams s)), s).

(** [from('team_members').insert({ team_id, user_id, role, status })] *)
Definition run_team_members_insert (team user role status : string) (s : Store)
  : Answer unit * Store :=
  let '(id, s) := next_uuid env s in
  if negb (valid_role role && valid_status status) then (inl check_violation, s)
  else if bool_decide (id ∈ map tm_id (team_members s)) then (inl duplicate_key, s)
  else if existsb (is_team_member user team) (team_members s) then (inl duplicate_key, s)
  else
    let row := {| tm_id := id; tm_team_id := team; tm_user_id := user;
                  tm_role := role; tm_status := status |} in
    (inr (), set_team_members s (team_members s ++ [row])).

(** [from('team_members').delete().eq('team_id', team).eq('user_id', user)] *)
Definition run_team_members_delete (team user : string) (s : Store) : Answer unit * Store :=
  (inr (),
   set_team_members s (filter (fun m => negb (is_team_member user team m)) (team_members s))).

Definition with_status (status : string) (m : TeamMember) : TeamMember :=
  {| tm_id := tm_id m; tm_team_id := tm_team_id m; tm_user_id := tm_user_id m;
     tm_role := tm_role m; tm_status := status |}.

(** [from('team_members').update({ status }).eq('user_id', user)
    .eq('team_id', team)] *)
Definition run_team_members_update_status (user team status : string) (s : Store)
  : Answer unit * Store :=
  if existsb (is_team_member user team) (team_members s) && negb (valid_status status)
  then (inl check_violation, s)
  else
    (inr (),
     set_team_members s
       (map (fun m => if is_team_member user team m then with_status status m else m)
            (team_members s))).

(** [from('team_members').select(..).eq('user_id', user).eq('team_id', team)
    .single()] *)
Definition run_team_members_select_single (user team : string) (s : Store)
  : Answer TeamMember * Store :=
  (single (filter (fun m => is_team_member user team m = true) (team_members s)), s).

(** [from('team_members').select('id').eq('team_id', team)
    .eq('role', 'leader')] *)
Definition run_team_members_select_leaders (team : string) (s : Store)
  : Answer (list TeamMember) * Store :=
  (inr (filter (fun m => is_leader_of team m = true) (team_members s)), s).

(** [from('team_members').select(..).eq('user_id', user)] *)
Definition run_team_members_select_by_user (user : string) (s : Store)
  : Answer (list TeamMember) * Store :=
  (inr (filter (fun m => tm_user_id m = user) (team_members s)), s).

(** [from('team_members').select(..).eq('team_id', team)] *)
Definition run_team_members_select_by_team (team : string) (s : Store)
  : Answer (list TeamMember) * Store :=
  (inr (filter (fun m => tm_team_id m = team) (team_members s)), s).

(** [from('messages').insert({..}).select().single()] *)
Definition run_messages_insert (team : string) (mission : option string)
    (sender content : string) (is_encrypted : bool) (s : Store) : Answer Message * Store :=
  let '(id, s) := next_uuid env s in
  if bool_decide (id ∈ map msg_id (messages s)) then (inl duplicate_key, s)
  else
    let row := {| msg_id := id; msg_team_id := team; msg_mission_id := mission;
                  msg_sender_id := sender; msg_content := content;
                  msg_is_encrypted := is_encrypted |} in
    (inr row, set_messages s (messages s ++ [row])).

(** [from('notifications').insert(notification).select().single()]; [read]
    defaults to false. *)
Definition run_notifications_insert (user type title : string) (content : option string)
    (s : Store) : Answer Notification * Store :=
  let '(id, s) := next_uuid env s in
  if negb (valid_type type) then (inl check_violation, s)
  else if bool_decide (id ∈ map n_id (notifications s)) then (inl duplicate_key, s)
  else
    let row := {| n_id := id; n_user_id := user; n_type := type; n_title := title;
                  n_content := content; n_read := false |} in
    (inr row, set_notifications s (notifications s ++ [row])).

(** [auth.admin.getUserById(id)] *)
Definition run_auth_getUserById (id : string) (s : Store) : Answer User * Store :=
  (match filter (fun u => user_id u = id) (users s) with
   | u :: _ => inr u
   | [] => inl "User not found"
   end, s).

(** [from('user_profiles').select('*').eq('user_id', user).single()] *)
Definition run_user_profiles_select (user : string) (s : Store)
  : Answer UserProfile * Store :=
  (match filter (fun u => user_id u = user) (users s) with
   | u :: _ =>
       match user_profile u with
       | Some p => inr p
       | None => inl "JSON object requested, multiple (or no) rows returned"
       end
   | [] => inl "JSON object requested, multiple (or no) rows returned"
   end, s).

End Queries.

End Db.

(** ** The process: store, sockets, generator, and what was emitted *)

Module Runtime.
Import Db.
Export EncryptionService(JsError, TypeError, Error).

(** [{ id, email, profile }], the user as [getUserById] returns it. *)
Record UserDetails := {
  id : string;
  email : string;
  profile : option UserProfile
}.

(** [MessageWithSender]: the row spread, plus [sender]. *)
Record MessageWithSender := {
  message : Message;
  sender : UserDetails
}.

(** Event payloads, one constructor per object literal in the sources. *)
Inductive Payload :=
| error_message (message : string)
| status_update (userId status teamId : string)
| new_message (message : MessageWithSender) (teamId : string)
| new_notification (type title content : string).

(** What a handler does that others can observe, in the order it does it:
    the queries it sent (with whether the answer had no error),
    [socket.emit] to one connection, [io.to(room).emit] to a room. *)
Inductive Event :=
| query (c : Call) (ok : bool)
| socket_emit (socket event : string) (p : Payload)
| io_to_emit (room event : string) (p : Payload).

Record World := {
  store : Store;
  (** the live connections, by socket id, each with the rooms it joined *)
  sockets : gmap string (gset string);
  (** [WebSocketService.connectedUsers]: userId to socketId *)
  connectedUsers : gmap string string;
  rng : Crypto.Rng;
  log : list Event
}.

Definition set_store (s : Store) (w : World) : World :=
  {| store := s; sockets := sockets w; connectedUsers := connectedUsers w;
     rng := rng w; log := log w |}.
Definition set_sockets (ss : gmap string (gset string)) (w : World) : World :=
  {| store := store w; sockets := ss; connectedUsers := connectedUsers w;
     rng := rng w; log := log w |}.
Definition set_connectedUsers (cu : gmap string string) (w : World) : World :=
  {| store := store w; sockets := sockets w; connectedUsers := cu;
     rng := rng w; log := log w |}.
Definition set_rng (g : Crypto.Rng) (w : World) : World :=
  {| store := store w; sockets := sockets w; connectedUsers := connectedUsers w;
     rng := g; log := log w |}.
Definition add_event (e : Event) (w : World) : World :=
  {| store := store w; sockets := sockets w; connectedUsers := connectedUsers w;
     rng := rng w; log := log w ++ [e] |}.

(** An async function body: it changes the world, and returns or throws.
    A handler runs to its end before the next one starts; interleavings at
    [await] are not modelled. *)
Definition M (A : Type) : Type := World -> (JsError + A) * World.

#[global] Instance M_ret : MRet M := fun A a w => (inr a, w).
#[global] Instance M_bind : MBind M := fun A B k m w =>
  match m w with
  | (inr a, w') => k a w'
  | (inl e, w') => (inl e, w')
  end.

Definition throw {A} (e : JsError) : M A := fun w => (inl e, w).

(** [try { body } catch (error) { handler }] *)
Definition try_catch {A} (body : M A) (handler : JsError -> M A) : M A := fun w =>
  match body w with
  | (inl e, w') => handler e w'
  | r => r
  end.

(** [for (const x of l) { body }] *)
Fixpoint for_of {A} (l : list A) (body : A -> M unit) : M unit :=
  match l with
  | [] => mret ()
  | x :: l' => body x ≫= fun _ => for_of l' body
  end.

(** [Promise.all(l.map(f))] for an [f] that only reads: the results in
    order, or the first rejection. *)
Fixpoint all_map {A B} (f : A -> M B) (l : list A) : M (list B) :=
  match l with
  | [] => mret []
  | x :: l' => y ← f x; ys ← all_map f l'; mret (y :: ys)
  end.

(** Reading and updating the fields of the service object. *)
Definition gets {A} (f : World -> A) : M A := fun w => (inr (f w), w).
Definition modify (f : World -> World) : M unit := fun w => (inr (), f w).

Definition emit (e : Event) : M unit := modify (add_event e).

Definition is_ok {A} (r : Answer A) : bool :=
  match r with inr _ => true | inl _ => false end.

(** One [await supabaseAdmin...]: the answer [{ data, error }]. *)
Definition await_query {A} (env : Env) (c : Call) (run : Store -> Answer A * Store)
  : M (Answer A) := fun w =>
  match fails env c with
  | Some e => (inr (inl e), add_event (query c false) w)
  | None =>
      let '(r, s) := run (store w) in
      (inr r, add_event (query c (is_ok r)) (set_store s w))
  end.

(** [crypto.randomBytes] draws from the process's generator. *)
Definition with_rng {A} (f : Crypto.Rng -> A * Crypto.Rng) : M A := fun w =>
  (inr (f (rng w)).1, set_rng (f (rng w)).2 w).

End Runtime.

(** ** [DatabaseService] of config/database.ts *)

Module DatabaseService.
Import Db Runtime.

Section Service.

Variable env : Env.

(** [getUserById] *)
Definition getUserById (userId : string) : M UserDetails :=
  r ← await_query env (auth_getUserById userId) (run_auth_getUserById userId);
  match r with
  | inl _ => throw (Error "User not found")
  | inr user =>
      p ← await_query env (user_profiles_select userId) (run_user_profiles_select userId);
      mret {| id := user_id user; email := user_email user;
              profile := match p with inr profile => Some profile | inl _ => None end |}
  end.

(** [getUserTeams] *)
Definition getUserTeams (userId : string) : M (list TeamMember) :=
  r ← await_query env (team_members_select_by_user userId)
        (run_team_members_select_by_user userId);
  match r with
  | inl _ => throw (Error "Failed to fetch user teams")
  | inr data => mret data
  end.

(** [getTeamMembers]: each member row with its user. *)
Definition getTeamMembers (teamId : string) : M (list (TeamMember * UserDetails)) :=
  r ← await_query env (team_members_select_by_team teamId)
        (run_team_members_select_by_team teamId);
  match r with
  | inl _ => throw (Error "Failed to fetch team members")
  | inr data =>
      all_map (fun member => user ← getUserById (tm_user_id member); mret (member, user)) data
  end.

(** [createNotification] *)
Definition createNotification (user type title : string) (content : option string)
  : M Notification :=
  r ← await_query env (notifications_insert user type title content)
        (run_notifications_insert env user type title content);
  match r with
  | inl _ => throw (Error "Failed to create notification")
  | inr data => mret data
  end.

(** [isTeamMember]: [!error && !!data] *)
Definition isTeamMember (userId teamId : string) : M bool :=
  r ← await_query env (team_members_select_single userId teamId)
        (run_team_members_select_single userId teamId);
  mret (is_ok r).

(** [isTeamLeader]: [!error && data?.role === 'leader'] *)
Definition isTeamLeader (userId teamId : string) : M bool :=
  r ← await_query env (team_members_select_single userId teamId)
        (run_team_members_select_single userId teamId);
  mret match r with
       | inr data => bool_decide (tm_role data = "leader")
       | inl _ => false
       end.

End Service.

End DatabaseService.

(** ** [WebSocketService] (the socket.io service) *)

Module WebSocketService.
Import Db Runtime DatabaseService.

(** A connection after the authentication middleware: [socket.id] and
    [socket.data.user]. *)
Record Socket := {
  socket_id : string;
  user_id : string;
  user_email : string
}.

(** [`team:${teamId}`] *)
Definition team_room (teamId : string) : string := "team:" +:+ teamId.

(** [socket.join(room)] *)
Definition socket_join (socket : Socket) (room : string) : M unit :=
  modify (fun w =>
    set_sockets (alter (fun rooms => rooms ∪ {[room]}) (socket_id socket) (sockets w)) w).

(** [socket.leave(room)] *)
Definition socket_leave (socket : Socket) (room : string) : M unit :=
  modify (fun w =>
    set_sockets (alter (fun rooms => rooms ∖ {[room]}) (socket_id socket) (sockets w)) w).

(** What the expression [DatabaseService.supabaseAdmin] reads.  The class
    [DatabaseService] of config/database.ts declares static methods and no
    member of that name (the client is the constant [supabaseAdmin] of its
    module), so the property is [undefined], here [None]; a client would
    stand for the store it queries. *)
Definition DatabaseService_supabaseAdmin : option Env := None.

(** [client.from(table)...]: the query, sent through the client; on
    [undefined], the [TypeError] of the property access. *)
Definition client_from {A} (client : option Env) (query : Env -> M A) : M A :=
  match client with
  | Some env => query env
  | None => throw (TypeError "Cannot read properties of undefined (reading 'from')")
  end.

(** [user.profile?.first_name || user.email] *)
Definition userName (u : UserDetails) : string :=
  match profile u with
  | Some {| first_name := String c n |} => String c n
  | _ => email u
  end.

Section Service.

Variable env : Env.

(** [joinUserTeams] *)
Definition joinUserTeams (socket : Socket) (userId : string) : M unit :=
  try_catch
    (userTeams ← getUserTeams env userId;
     for_of userTeams (fun teamMembership =>
       socket_join socket (team_room (tm_team_id teamMembership))))
    (fun _ => mret ()).

(** [io.on('connection', ...)] up to the registration of the listeners.
    socket.io has put the connection in the room named by its own id. *)
Definition connection (socket : Socket) : M unit :=
  _ ← modify (fun w =>
         set_connectedUsers (<[user_id socket := socket_id socket]> (connectedUsers w))
           (set_sockets (<[socket_id socket := {[socket_id socket]}]> (sockets w)) w));
  joinUserTeams socket (user_id socket).

(** [joinTeam], the [join_team] listener. *)
Definition joinTeam (socket : Socket) (teamId userId : string) : M unit :=
  try_catch
    (isMember ← isTeamMember env userId teamId;
     if negb isMember then
       emit (socket_emit (socket_id socket) "error" (error_message "Not a team member"))
     else socket_join socket (team_room teamId))
    (fun _ =>
       emit (socket_emit (socket_id socket) "error" (error_message "Failed to join team"))).

(** The [status_update] listener.  The update goes through
    [DatabaseService.supabaseAdmin]. *)
Definition on_status_update (socket : Socket) (teamId status : string) : M unit :=
  let user := user_id socket in
  try_catch
    (isMember ← isTeamMember env user teamId;
     if negb isMember then
       emit (socket_emit (socket_id socket) "error" (error_message "Not a team member"))
     else
       (* Update status in database *)
       r ← client_from DatabaseService_supabaseAdmin (fun client =>
             await_query client (team_members_update_status user teamId status)
               (run_team_members_update_status user teamId status));
       match r with
       | inl _ =>
           emit (socket_emit (socket_id socket) "error"
                   (error_message "Failed to update status"))
       | inr _ =>
           _ ← emit (io_to_emit (team_room teamId) "user:status_update"
                       (status_update user status teamId));
           teamMembers ← getTeamMembers env teamId;
           userDetails ← getUserById env user;
           let content := userName userDetails +:+ " status changed to " +:+ status in
           for_of teamMembers (fun '(member, _) =>
             if bool_decide (tm_user_id member ≠ user) then
               _ ← createNotification env (tm_user_id member) "status_change"
                     "Team Member Status Update" (Some content);
               memberSocketId ← gets (fun w => connectedUsers w !! tm_user_id member);
               match EncryptionService.truthy memberSocketId with
               | Some sid =>
                   emit (io_to_emit sid "notification:new"
                           (new_notification "status_change" "Team Member Status Update"
                              content))
               | None => mret ()
               end
             else mret ())
       end)
    (fun _ =>
       emit (socket_emit (socket_id socket) "error" (error_message "Failed to update status"))).

(** [updateUserOfflineStatus]: the answer of the update is not looked at;
    what is thrown is logged to the console. *)
Definition updateUserOfflineStatus (userId : string) : M unit :=
  try_catch
    (userTeams ← getUserTeams env userId;
     for_of userTeams (fun teamMembership =>
       let team := tm_team_id teamMembership in
       _ ← client_from DatabaseService_supabaseAdmin (fun client =>
             await_query client (team_members_update_status userId team "offline")
               (run_team_members_update_status userId team "offline"));
       (* Broadcast offline status to team *)
       emit (io_to_emit (team_room team) "user:status_update"
               (status_update userId "offline" team))))
    (fun _ => mret ()).

(** The [disconnect] listener.  socket.io has taken the connection out of
    its rooms. *)
Definition on_disconnect (socket : Socket) : M unit :=
  _ ← modify (fun w =>
         set_connectedUsers (delete (user_id socket) (connectedUsers w))
           (set_sockets (delete (socket_id socket) (sockets w)) w));
  updateUserOfflineStatus (user_id socket).

(** [broadcastNewMessage] *)
Definition broadcastNewMessage (message : MessageWithSender) (teamId : string) : M unit :=
  emit (io_to_emit (team_room teamId) "message:new" (new_message message teamId)).

End Service.

End WebSocketService.

(** ** The HTTP side: requests and [res.status(..).json(..)] *)

Module Http.
Import Db Runtime.

(** [req.user], set by the authentication middleware. *)
Record AuthUser := {
  id : string;
  email : string
}.

(** The [data] of a response envelope. *)
Inductive Data :=
| no_data
| team_with_members (team : Team) (members : list (TeamMember * UserDetails))
| sent_message (message : MessageWithSender) (encryptionKey : option string).

(** [{ success, data?, error?, message? }] with the status it was sent
    under. *)
Record Response := {
  status : nat;
  success : bool;
  data : Data;
  error : option string;
  message : option string
}.

Definition failure (code : nat) (err : string) (msg : option string) : Response :=
  {| status := code; success := false; data := no_data; error := Some err; message := msg |}.

(** [error instanceof Error ? error.message : 'Unknown error'] *)
Definition error_text (e : JsError) : string :=
  match e with TypeError m | Error m => m end.

(** The [data] a controller answered with, if it returned. *)
Definition sent_data (r : JsError + Response) : option Data :=
  match r with
  | inr response => Some (data response)
  | inl _ => None
  end.

(** The status a controller answered with, if it returned. *)
Definition sent_status (r : JsError + Response) : option nat :=
  match r with
  | inr response => Some (status response)
  | inl _ => None
  end.

End Http.

(** ** [TeamController] *)

Module TeamController.
Import Db Runtime DatabaseService Http.

Record CreateTeamRequest := {
  name : string;
  description : option string
}.

Section Controller.

Variable env : Env.

(** [getTeamWithMembers] *)
Definition getTeamWithMembers (teamId : string) : M (Team * list (TeamMember * UserDetails)) :=
  r ← await_query env (teams_select teamId) (run_teams_select teamId);
  match r with
  | inl _ => throw (Error "Team not found")
  | inr team =>
      members ← getTeamMembers env teamId;
      mret (team, members)
  end.

(** [createTeam] *)
Definition createTeam (user : option AuthUser) (body : CreateTeamRequest) : M Response :=
  try_catch
    match user with
    | None => mret (failure 401 "Authentication required" None)
    | Some user =>
        let description := default "" (description body) in
        r ← await_query env (teams_insert (name body) description)
              (run_teams_insert env (name body) description);
        match r with
        | inl error => mret (failure 400 "Failed to create team" (Some error))
        | inr team =>
            r ← await_query env
                  (team_members_insert (team_id team) (id user) "leader" "offline")
                  (run_team_members_insert env (team_id team) (id user) "leader" "offline");
            match r with
            | inl memberError =>
                (* Rollback team creation *)
                _ ← await_query env (teams_delete (team_id team))
                      (run_teams_delete (team_id team));
                mret (failure 400 "Failed to add team leader" (Some memberError))
            | inr _ =>
                '(team, members) ← getTeamWithMembers (team_id team);
                mret {| status := 201; success := true;
                        data := team_with_members team members;
                        error := None; message := Some "Team created successfully" |}
            end
        end
    end
    (fun error => mret (failure 500 "Failed to create team" (Some (error_text error)))).

(** [removeTeamMember]; [teamId] and [userId] are [req.params]. *)
Definition removeTeamMember (user : option AuthUser) (teamId userId : string) : M Response :=
  try_catch
    match user with
    | None => mret (failure 401 "Authentication required" None)
    | Some user =>
        isLeader ← isTeamLeader env (id user) teamId;
        let isRemovingSelf := bool_decide (id user = userId) in
        if negb isLeader && negb isRemovingSelf then
          mret (failure 403 "Access denied"
                  (Some "Only team leaders can remove members or you can leave the team yourself"))
        else
          (* Prevent team leader from removing themselves if they're the
             only leader *)
          blocked ←
            (if isRemovingSelf && isLeader then
               r ← await_query env (team_members_select_leaders teamId)
                     (run_team_members_select_leaders teamId);
               mret match r with
                    | inr leaders => Nat.leb (length leaders) 1
                    | inl _ => false
                    end
             else mret false);
          if (blocked : bool) then
            mret (failure 400 "Cannot leave team"
                    (Some "You are the only team leader. Please assign another leader before leaving."))
          else
            r ← await_query env (team_members_delete teamId userId)
                  (run_team_members_delete teamId userId);
            match r with
            | inl error => mret (failure 400 "Failed to remove team member" (Some error))
            | inr _ =>
                mret {| status := 200; success := true; data := no_data; error := None;
                        message := Some (if isRemovingSelf then "Left team successfully"
                                         else "Team member removed successfully") |}
            end
    end
    (fun error => mret (failure 500 "Failed to remove team member" (Some (error_text error)))).

End Controller.

End TeamController.

(** ** [MessageController] *)

Module MessageController.
Import Db Runtime DatabaseService Http.

Record SendMessageRequest := {
  team_id : string;
  mission_id : option string;
  content : string;
  is_encrypted : option bool
}.

Section Controller.

Variable cipher : Crypto.PasswordCipher.
Variable this_encryptionKey : list byte.
Variable env : Env.

(** [sendMessage]; [wsService] tells whether [app.locals.wsService] is
    set. *)
Definition sendMessage (user : option AuthUser) (body : SendMessageRequest) (wsService : bool)
  : M Response :=
  try_catch
    match user with
    | None => mret (failure 401 "Authentication required" None)
    | Some user =>
        let is_encrypted := default true (is_encrypted body) in
        isMember ← isTeamMember env (id user) (team_id body);
        if negb isMember then
          mret (failure 403 "Access denied" (Some "You are not a member of this team"))
        else
          (* Encrypt message if requested *)
          '(processedContent, encryptionData) ←
            (if is_encrypted then
               encrypted ← with_rng
                 (EncryptionService.encryptE2E cipher this_encryptionKey (content body));
               mret (Json.stringify encrypted, Some encrypted)
             else mret (content body, None));
          (* Store message in database *)
          let mission := EncryptionService.truthy (mission_id body) in
          r ← await_query env
                (messages_insert (team_id body) mission (id user) processedContent is_encrypted)
                (run_messages_insert env (team_id body) mission (id user) processedContent
                   is_encrypted);
          match r with
          | inl error => mret (failure 400 "Failed to send message" (Some error))
          | inr message =>
              sender ← getUserById env (id user);
              let messageWithSender := {| Runtime.message := message; sender := sender |} in
              (* Create notification for team members (except sender) *)
              teamMembers ← getTeamMembers env (team_id body);
              let otherMembers :=
                filter (fun member => tm_user_id member.1 ≠ id user) teamMembers in
              _ ← for_of otherMembers (fun member =>
                    _ ← createNotification env (tm_user_id member.1) "message" "New Message"
                          (Some ("New message from " +:+ WebSocketService.userName sender
                                 +:+ " in team chat"));
                    mret ());
              (* Broadcast real-time message to team *)
              _ ← (if wsService then
                     WebSocketService.broadcastNewMessage messageWithSender (team_id body)
                   else mret ());
              mret {| status := 201; success := true;
                      data := sent_message messageWithSender
                                (EncryptionService.truthy
                                   (encryptionData ≫= EncryptionService.encryptionKey));
                      error := None; message := Some "Message sent successfully" |}
          end
    end
    (fun error => mret (failure 500 "Failed to send message" (Some (error_text error)))).

End Controller.

End MessageController.

(** ** [EncryptionService]: tokens, signatures and storage *)

Module EncryptionUtilities.
Import Hex Crypto EncryptionService.

(** [generateToken(length = 32)]; [None] is the argument left out. *)
Definition generateToken (length : option nat) (g : Rng) : string * Rng :=
  let '(bytes, g) := randomBytes (default 32 length) g in (Buffer_toString_hex bytes, g).

(** What [crypto.timingSafeEqual] throws: a [RangeError], "Input buffers
    must have the same byte length". *)
Inductive RangeError := ERR_CRYPTO_TIMING_SAFE_EQUAL_LENGTH.

(** [crypto.timingSafeEqual(a, b)] *)
Definition timingSafeEqual (a b : list byte) : RangeError + bool :=
  if Nat.eqb (List.length a) (List.length b) then inr (bool_decide (a = b))
  else inl ERR_CRYPTO_TIMING_SAFE_EQUAL_LENGTH.

Section Signing.

(** [crypto.createHmac('sha256', key).update(data).digest()] on the bytes
    of the key and of the data. *)
Variable hmac_sha256 : list byte -> list byte -> list byte.

(** [signMessage(message, secret)] *)
Definition signMessage (message secret : string) : string :=
  Buffer_toString_hex (hmac_sha256 (Buffer_from_utf8 secret) (Buffer_from_utf8 message)).

(** [verifySignature(message, signature, secret)]: the boolean, or the
    error [timingSafeEqual] throws. *)
Definition verifySignature (message signature secret : string) : RangeError + bool :=
  let expectedSignature := signMessage message secret in
  timingSafeEqual (Buffer_from_hex signature) (Buffer_from_hex expectedSignature).

End Signing.

Section Storage.

Variable cipher : PasswordCipher.
Variable this_encryptionKey : list byte.

(** The [data: any] of the two storage functions, with [JSON.stringify] and
    [JSON.parse] on it: [JSON_stringify] is [None] where JavaScript's
    returns [undefined], [JSON_parse] is [None] where it throws a
    [SyntaxError]. *)
Variable Value : Type.
Variable JSON_stringify : Value -> option string.
Variable JSON_parse : string -> option Value.

(** A [SyntaxError] of [JSON.parse]; its message depends on the text. *)
Definition SyntaxError : JsError := Error "Unexpected token in JSON".

(** [encryptForStorage(data)].  On [undefined], [encrypt] has drawn its IV
    when [cipher.update] throws. *)
Definition encryptForStorage (data : Value) (g : Rng) : (JsError + string) * Rng :=
  match JSON_stringify data with
  | Some jsonString =>
      let '(encrypted, g) := encrypt cipher this_encryptionKey jsonString None g in
      (inr (Json.stringify encrypted), g)
  | None =>
      (inl (TypeError "The data argument must be of type string"),
       (randomBytes IV_LENGTH g).2)
  end.

(** [decryptFromStorage(encryptedData)]: what it returns or throws; [None]
    on a text outside the fragment [Json.parse] reads. *)
Definition decryptFromStorage (encryptedData : string) : option (JsError + Value) :=
  match Json.parse encryptedData with
  | None => None
  | Some encryptedMessage =>
      Some match decrypt cipher encryptedMessage with
           | inl e => inl e
           | inr decryptedJson =>
               match JSON_parse decryptedJson with
               | Some data => inr data
               | None => inl SyntaxError
               end
           end
  end.

End Storage.

End EncryptionUtilities.

(** ** [JWTService.extractTokenFromHeader] of utils/jwt.ts *)

Module JWTService.
Import EncryptionService.

(** [s.split(sep)] for a separator of one character. *)
Fixpoint split (sep : ascii) (s : string) : list string :=
  match s with
  | "" => [""]
  | String c s' =>
      if Ascii.eqb c sep then "" :: split sep s'
      else
        match split sep s' with
        | part :: parts => String c part :: parts
        | [] => [String c ""]
        end
  end.

(** [extractTokenFromHeader(authHeader)] *)
Definition extractTokenFromHeader (authHeader : option string) : JsError + string :=
  match truthy authHeader with
  | None => inl (Error "Authorization header is required")
  | Some authHeader =>
      match split " " authHeader with
      | [scheme; token] =>
          if bool_decide (scheme = "Bearer") then inr token
          else inl (Error "Invalid authorization header format")
      | _ => inl (Error "Invalid authorization header format")
      end
  end.

End JWTService.

(** ** Responses whose [data] is not one of [Http.Data] *)

Module Api.

(** [{ success, data?, error?, message? }] with its status, for a [data]
    of type [D]. *)
Record Reply (D : Type) := {
  status : nat;
  success : bool;
  data : option D;
  error : option string;
  message : option string
}.
Arguments status {D} _.
Arguments success {D} _.
Arguments data {D} _.
Arguments error {D} _.
Arguments message {D} _.

Definition failure {D} (code : nat) (err : string) (msg : option string) : Reply D :=
  {| status := code; success := false; data := None; error := Some err; message := msg |}.

Definition ok {D} (code : nat) (d : D) (msg : option string) : Reply D :=
  {| status := code; success := true; data := Some d; error := None; message := msg |}.

End Api.

(** ** The middleware of middleware/auth.ts that looks at the team *)

Module AuthMiddleware.
Import Db Runtime DatabaseService Http.

(** What a middleware did: it called [next()], or it sent a response. *)
Inductive Outcome :=
| next
| sent (response : Response).

Section Middleware.

Variable env : Env.

(** [requireTeamMember(teamIdParam)]; [teamId] is
    [req.params[teamIdParam]]. *)
Definition requireTeamMember (user : option AuthUser) (teamId : option string) : M Outcome :=
  try_catch
    match user with
    | None => mret (sent (failure 401 "Authentication required" None))
    | Some user =>
        match EncryptionService.truthy teamId with
        | None => mret (sent (failure 400 "Team ID is required" None))
        | Some teamId =>
            isMember ← isTeamMember env (id user) teamId;
            if negb isMember then
              mret (sent (failure 403 "Access denied"
                            (Some "You are not a member of this team")))
            else mret next
        end
    end
    (fun error => mret (sent (failure 500 "Internal server error" (Some (error_text error))))).

(** [requireTeamLeader(teamIdParam)] *)
Definition requireTeamLeader (user : option AuthUser) (teamId : option string) : M Outcome :=
  try_catch
    match user with
    | None => mret (sent (failure 401 "Authentication required" None))
    | Some user =>
        match EncryptionService.truthy teamId with
        | None => mret (sent (failure 400 "Team ID is required" None))
        | Some teamId =>
            isLeader ← isTeamLeader env (id user) teamId;
            if negb isLeader then
              mret (sent (failure 403 "Access denied"
                            (Some "Team leader privileges required")))
            else mret next
        end
    end
    (fun error => mret (sent (failure 500 "Internal server error" (Some (error_text error))))).

End Middleware.

Section Authentication.

Variable env : Env.
(** [JWTService.verifyToken(token).userId], or the error [verifyToken]
    throws. *)
Variable verifyToken : string -> JsError + string.

(** [authenticateToken]; [authorization] is [req.headers.authorization].
    [inr user] is [next()] with [req.user] set, [inl response] the
    response sent. *)
Definition authenticateToken (authorization : option string) : M (Response + AuthUser) :=
  try_catch
    match JWTService.extractTokenFromHeader authorization with
    | inl e => throw e
    | inr token =>
        match verifyToken token with
        | inl e => throw e
        | inr userId =>
            (* Get user details from database *)
            user ← getUserById env userId;
            mret (inr {| id := Runtime.id user; email := Runtime.email user |})
        end
    end
    (fun error => mret (inl (failure 401 "Authentication failed" (Some (error_text error))))).

(** [optionalAuth]: [next()] in every case, with [req.user] set or not. *)
Definition optionalAuth (authorization : option string) : M (option AuthUser) :=
  try_catch
    match EncryptionService.truthy authorization with
    | None => mret None
    | Some authHeader =>
        match JWTService.extractTokenFromHeader (Some authHeader) with
        | inl e => throw e
        | inr token =>
            match verifyToken token with
            | inl e => throw e
            | inr userId =>
                user ← getUserById env userId;
                mret (Some {| id := Runtime.id user; email := Runtime.email user |})
            end
        end
    end
    (fun _ => (* Continue without authentication *) mret None).

End Authentication.

End AuthMiddleware.

(** ** [WebSocketService]: the handshake, [leave_team], the registry *)

Module SocketService.
Import Db Runtime WebSocketService.
Import EncryptionService(truthy).

(** The rest of [s] after its first [n] characters. *)
Fixpoint skip (n : nat) (s : string) : string :=
  match n, s with
  | S n', String _ s' => skip n' s'
  | _, _ => s
  end.

(** [s.replace(pattern, replacement)] with a string pattern: the first
    occurrence only. *)
Fixpoint replace (pattern replacement s : string) : string :=
  if String.prefix pattern s then replacement +:+ skip (String.length pattern) s
  else
    match s with
    | "" => ""
    | String c s' => String c (replace pattern replacement s')
    end.

(** The token the handshake middleware hands to [verifyToken]:
    [socket.handshake.auth.token ||
     socket.handshake.headers.authorization?.replace('Bearer ', '')],
    or the error it passes to [next] when that is falsy. *)
Definition handshake_token (auth_token authorization : option string) : JsError + string :=
  match truthy auth_token with
  | Some token => inr token
  | None =>
      match truthy (replace "Bearer " "" <$> authorization) with
      | Some token => inr token
      | None => inl (Error "Authentication token required")
      end
  end.

(** The [leave_team] listener. *)
Definition on_leave_team (socket : Socket) (teamId : string) : M unit :=
  socket_leave socket (team_room teamId).

(** [broadcastNotification(notification, userId)] *)
Definition broadcastNotification (notification : Payload) (userId : string) : M unit :=
  socketId ← gets (fun w => connectedUsers w !! userId);
  match truthy socketId with
  | Some socketId => emit (io_to_emit socketId "notification:new" notification)
  | None => mret ()
  end.

(** [isUserConnected(userId)] *)
Definition isUserConnected (userId : string) : M bool :=
  gets (fun w => bool_decide (is_Some (connectedUsers w !! userId))).

(** [getSocketId(userId)] *)
Definition getSocketId (userId : string) : M (option string) :=
  gets (fun w => connectedUsers w !! userId).

End SocketService.

(** ** Writes that read the row back: [.select().single()] after a write *)

Module DbSingle.
Import Db.

Section Queries.

Variable env : Env.

Definition foreign_key_violation : string :=
  "insert or update on table violates foreign key constraint".

(** [from('team_members').insert({ team_id, user_id, role, status })
    .select().single()], with the two foreign keys of the table: the team
    and the user must exist. *)
Definition run_team_members_insert_single (team user role status : string) (s : Store)
  : Answer TeamMember * Store :=
  let '(id, s) := next_uuid env s in
  if negb (valid_role role && valid_status status) then (inl check_violation, s)
  else if bool_decide (id ∈ map tm_id (team_members s)) then (inl duplicate_key, s)
  else if existsb (is_team_member user team) (team_members s) then (inl duplicate_key, s)
  else if negb (bool_decide (team ∈ map team_id (teams s)) &&
                bool_decide (user ∈ map user_id (users s)))
  then (inl foreign_key_violation, s)
  else
    let row := {| tm_id := id; tm_team_id := team; tm_user_id := user;
                  tm_role := role; tm_status := status |} in
    (inr row, set_team_members s (team_members s ++ [row])).

(** [from('team_members').update({ status }).eq('team_id', team)
    .eq('user_id', user).select().single()].  The statement and the check
    that it returned one row run in one transaction: when the rows are not
    exactly one, the answer is the error and nothing is written. *)
Definition run_team_members_update_status_single (user team status : string) (s : Store)
  : Answer TeamMember * Store :=
  if existsb (is_team_member user team) (team_members s) && negb (valid_status status)
  then (inl check_violation, s)
  else
    match single (filter (fun m => is_team_member user team m = true) (team_members s)) with
    | inr row =>
        (inr (with_status status row),
         set_team_members s
           (map (fun m => if is_team_member user team m then with_status status m else m)
                (team_members s)))
    | inl e => (inl e, s)
    end.

End Queries.

End DbSingle.

(** ** [TeamController]: [getTeam], [addTeamMember], [updateUserStatus] *)

Module TeamEndpoints.
Import Db Runtime DatabaseService Http TeamController DbSingle.
Import EncryptionService(truthy).

(** [req.body] of [addTeamMember]. *)
Record AddTeamMemberRequest := {
  userId : string;
  role : option string;
  teamName : option string
}.

(** [`You have been added to team "${teamName}"`] *)
Definition invitation (teamName : string) : string :=
  "You have been added to team " +:+ String Json.dquote (teamName +:+ String Json.dquote "").

Section Controller.

Variable env : Env.

(** [getTeam]; [teamId] is [req.params.teamId]. *)
Definition getTeam (user : option AuthUser) (teamId : string) : M Response :=
  try_catch
    match user with
    | None => mret (failure 401 "Authentication required" None)
    | Some user =>
        isMember ← isTeamMember env (id user) teamId;
        if negb isMember then
          mret (failure 403 "Access denied" (Some "You are not a member of this team"))
        else
          '(team, members) ← getTeamWithMembers env teamId;
          mret {| status := 200; success := true; data := team_with_members team members;
                  error := None; message := None |}
    end
    (fun error => mret (failure 500 "Failed to fetch team" (Some (error_text error)))).

(** [addTeamMember]: the reply carries the new row and the user. *)
Definition addTeamMember (user : option AuthUser) (teamId : string)
    (body : AddTeamMemberRequest) : M (Api.Reply (TeamMember * UserDetails)) :=
  try_catch
    match user with
    | None => mret (Api.failure 401 "Authentication required" None)
    | Some user =>
        let role := default "member" (role body) in
        (* Verify user is team leader *)
        isLeader ← isTeamLeader env (id user) teamId;
        if negb isLeader then
          mret (Api.failure 403 "Access denied" (Some "Only team leaders can add members"))
        else
          (* Check if user is already a member *)
          isAlreadyMember ← isTeamMember env (userId body) teamId;
          if (isAlreadyMember : bool) then
            mret (Api.failure 409 "User is already a team member" None)
          else
            (* Add member to team *)
            r ← await_query env (team_members_insert teamId (userId body) role "offline")
                  (run_team_members_insert_single env teamId (userId body) role "offline");
            match r with
            | inl error => mret (Api.failure 400 "Failed to add team member" (Some error))
            | inr member =>
                (* Get user details *)
                user ← getUserById env (userId body);
                (* Create notification for the new member *)
                _ ← createNotification env (userId body) "alert" "Team Invitation"
                      (Some (invitation (default "Unknown Team" (truthy (teamName body)))));
                mret (Api.ok 201 (member, user) (Some "Team member added successfully"))
            end
    end
    (fun error => mret (Api.failure 500 "Failed to add team member" (Some (error_text error)))).

(** [updateUserStatus]; [status] is [req.body.status].  The reply carries
    the updated row. *)
Definition updateUserStatus (user : option AuthUser) (teamId status : string)
  : M (Api.Reply TeamMember) :=
  try_catch
    match user with
    | None => mret (Api.failure 401 "Authentication required" None)
    | Some user =>
        (* Verify user is team member *)
        isMember ← isTeamMember env (id user) teamId;
        if negb isMember then
          mret (Api.failure 403 "Access denied" (Some "You are not a member of this team"))
        else
          (* Update user status *)
          r ← await_query env (team_members_update_status (id user) teamId status)
                (run_team_members_update_status_single (id user) teamId status);
          match r with
          | inl error => mret (Api.failure 400 "Failed to update status" (Some error))
          | inr updatedMember =>
              (* Create notifications for team members about status change *)
              teamMembers ← getTeamMembers env teamId;
              user' ← getUserById env (id user);
              let content := WebSocketService.userName user' +:+ " status changed to " +:+ status in
              _ ← for_of teamMembers (fun '(member, _) =>
                    if bool_decide (tm_user_id member ≠ id user) then
                      _ ← createNotification env (tm_user_id member) "status_change"
                            "Team Member Status Update" (Some content);
                      mret ()
                    else mret ());
              mret (Api.ok 200 updatedMember (Some "Status updated successfully"))
          end
    end
    (fun error => mret (Api.failure 500 "Failed to update status" (Some (error_text error)))).

End Controller.

End TeamEndpoints.

(** ** [NotificationController]: [createNotification],
    [createBulkNotifications] *)

Module NotificationController.
Import Db Runtime DatabaseService.

(** [req.user] with its [role]. *)
Record Requester := {
  id : string;
  email : string;
  role : string
}.

Record CreateNotificationRequest := {
  user_id : string;
  type : string;
  title : string;
  content : option string
}.

(** [req.body] of [createBulkNotifications]. *)
Record BulkNotificationsRequest := {
  teamId : string;
  bulk_type : string;
  bulk_title : string;
  bulk_content : option string;
  excludeUserId : option string
}.

(** [Promise.all(l.map(f))] for an [f] that writes with one query: every
    call is started, in the order of the list, before any is answered, so
    each runs whether or not another rejects.  The value is the list of the
    results, or a rejection. *)
Fixpoint all_started {A B} (f : A -> M B) (l : list A) : M (list B) := fun w =>
  match l with
  | [] => (inr [], w)
  | x :: l' =>
      let '(r, w1) := f x w in
      let '(rs, w2) := all_started f l' w1 in
      (match r, rs with
       | inr y, inr ys => inr (y :: ys)
       | inl e, _ => inl e
       | inr _, inl e => inl e
       end, w2)
  end.

Section Controller.

Variable env : Env.

(** [createNotification] *)
Definition createNotification (user : option Requester) (body : CreateNotificationRequest)
  : M (Api.Reply Notification) :=
  try_catch
    match user with
    | None => mret (Api.failure 401 "Authentication required" None)
    | Some user =>
        (* Only admins can create notifications for other users *)
        if bool_decide (role user ≠ "admin") && bool_decide (user_id body ≠ id user) then
          mret (Api.failure 403 "Access denied"
                  (Some "Only admins can create notifications for other users"))
        else
          let content := default "" (content body) in
          notification ← DatabaseService.createNotification env (user_id body) (type body)
                           (title body) (Some content);
          mret (Api.ok 201 notification (Some "Notification created successfully"))
    end
    (fun error =>
       mret (Api.failure 500 "Failed to create notification" (Some (Http.error_text error)))).

(** [createBulkNotifications]: the reply carries [created] and the rows. *)
Definition createBulkNotifications (user : option Requester) (body : BulkNotificationsRequest)
  : M (Api.Reply (nat * list Notification)) :=
  try_catch
    match user with
    | None => mret (Api.failure 401 "Authentication required" None)
    | Some user =>
        let content := default "" (bulk_content body) in
        (* Verify user is team member *)
        isMember ← isTeamMember env (id user) (teamId body);
        if negb isMember then
          mret (Api.failure 403 "Access denied" (Some "You are not a member of this team"))
        else
          (* Get team members *)
          teamMembers ← getTeamMembers env (teamId body);
          let targetMembers :=
            filter (fun member =>
                      Some (tm_user_id member.1) ≠ excludeUserId body /\
                      tm_user_id member.1 ≠ id user) teamMembers in
          (* Create notifications for each member *)
          notifications ← all_started (fun member =>
              DatabaseService.createNotification env (tm_user_id member.1) (bulk_type body)
                (bulk_title body) (Some content)) targetMembers;
          mret (Api.ok 201 (length notifications, notifications)
                  (Some "Bulk notifications created successfully"))
    end
    (fun error =>
       mret (Api.failure 500 "Failed to create bulk notifications"
               (Some (Http.error_text error)))).

End Controller.

End NotificationController.

(** ** [MessageController.decryptMessage] *)

Module MessageEndpoints.
Import Runtime Http.
Import EncryptionService(EncryptedMessage, truthy, decrypt).

Section Controller.

Variable cipher : Crypto.PasswordCipher.

(** [decryptMessage]; [encryptedMessage] is [req.body.encryptedMessage].
    The reply carries [decryptedContent]. *)
Definition decryptMessage (user : option AuthUser) (encryptedMessage : option EncryptedMessage)
  : Api.Reply string :=
  match user with
  | None => Api.failure 401 "Authentication required" None
  | Some _ =>
      match encryptedMessage with
      | None => Api.failure 400 "Invalid encrypted message format" None
      | Some encryptedMessage =>
          match truthy (EncryptionService.content encryptedMessage),
                truthy (EncryptionService.encryptionKey encryptedMessage) with
          | Some _, Some _ =>
              match decrypt cipher encryptedMessage with
              | inr decryptedContent => Api.ok 200 decryptedContent None
              | inl decryptError =>
                  Api.failure 400 "Failed to decrypt message"
                    (Some "Invalid encryption key or corrupted message")
              end
          | _, _ => Api.failure 400 "Invalid encrypted message format" None
          end
      end
  end.

End Controller.

End MessageEndpoints.

(** * Facts *)

(** ** The hex codec *)

Module HexFacts.
Import Hex.

Lemma byte_hex_roundtrip (b : byte) (rest : string) :
  Buffer_from_hex (byte_to_hex b rest) = b :: Buffer_from_hex rest.
Proof. destruct b; reflexivity. Qed.

Lemma Buffer_from_hex_toString (buf : list byte) :
  Buffer_from_hex (Buffer_toString_hex buf) = buf.
Proof.
  induction buf as [|b buf IH]; [reflexivity|].
  cbn [Buffer_toString_hex]. rewrite byte_hex_roundtrip. by rewrite IH.
Qed.

Lemma utf8_roundtrip (s : string) :
  Buffer_toString_utf8 (Buffer_from_utf8 s) = s.
Proof. apply string_of_list_byte_of_string. Qed.

Lemma length_toString_hex (buf : list byte) :
  String.length (Buffer_toString_hex buf) = 2 * length buf.
Proof. induction buf as [|b buf IH]; simpl; [done | rewrite IH; lia]. Qed.

Lemma length_from_utf8 (s : string) :
  length (Buffer_from_utf8 s) = String.length s.
Proof.
  unfold Buffer_from_utf8, list_byte_of_string.
  rewrite length_map. induction s as [|c s IH]; simpl; congruence.
Qed.

(** Decoding yields at most one byte per two characters. *)
Lemma length_from_hex (s : string) :
  2 * length (Buffer_from_hex s) <= String.length s.
Proof.
  assert (forall s, (2 * length (Buffer_from_hex s) <= String.length s) /\
                    (forall a, 2 * length (Buffer_from_hex (String a s))
                               <= String.length (String a s))) as H.
  { clear s. induction s as [|b s [IH1 IH2]].
    - split; [simpl; lia|]. intros a. simpl. lia.
    - split; [apply IH2|]. intros a. cbn [Buffer_from_hex String.length].
      destruct (unhex a), (unhex b); simpl; try lia.
      destruct (Byte.of_N _); simpl; lia. }
  apply H.
Qed.

Lemma odd_length_toString_hex (buf : list byte) :
  Nat.odd (String.length (Buffer_toString_hex buf)) = false.
Proof. rewrite length_toString_hex. apply Nat.odd_even. Qed.

Lemma toString_hex_inj (b1 b2 : list byte) :
  Buffer_toString_hex b1 = Buffer_toString_hex b2 -> b1 = b2.
Proof.
  intros H. rewrite <- (Buffer_from_hex_toString b1), H.
  apply Buffer_from_hex_toString.
Qed.

Example from_hex_truncates : Buffer_from_hex "1ag123" = [Byte.x1a].
Proof. reflexivity. Qed.

Example from_hex_odd : Buffer_from_hex "1a7" = [Byte.x1a].
Proof. reflexivity. Qed.

Example from_hex_garbage : Buffer_from_hex "not-hex" = [].
Proof. reflexivity. Qed.

End HexFacts.

(** ** An instance of the cipher interface *)

Module CryptoFacts.
Import Crypto.

Lemma length_randomBytes (n : nat) (g : Rng) : length (randomBytes n g).1 = n.
Proof. unfold randomBytes; simpl. by rewrite length_map, length_seq. Qed.

(** A small instance of the interface, on which the embedding is evaluated:
    every byte is xored with the xor of the password bytes, and the tag is
    sixteen copies of the xor of password, associated data and ciphertext. *)
Module Xor.

Definition xor8 (a b : bool * (bool * (bool * (bool * (bool * (bool * (bool * bool)))))))
  : bool * (bool * (bool * (bool * (bool * (bool * (bool * bool)))))) :=
  let '(a0, (a1, (a2, (a3, (a4, (a5, (a6, a7))))))) := a in
  let '(b0, (b1, (b2, (b3, (b4, (b5, (b6, b7))))))) := b in
  (xorb a0 b0, (xorb a1 b1, (xorb a2 b2, (xorb a3 b3,
    (xorb a4 b4, (xorb a5 b5, (xorb a6 b6, xorb a7 b7))))))).

Definition bxor (a b : byte) : byte :=
  Byte.of_bits (xor8 (Byte.to_bits a) (Byte.to_bits b)).

Definition fold_xor (l : list byte) : byte := foldr bxor Byte.x00 l.

Definition tag_of (pw aad c : list byte) : list byte :=
  replicate 16 (fold_xor (pw ++ aad ++ c)).

Definition xseal (pw aad p : list byte) : list byte * list byte :=
  let c := map (bxor (fold_xor pw)) p in (c, tag_of pw aad c).

Definition xopen (pw aad c tag : list byte) : option (list byte) :=
  if decide (tag = tag_of pw aad c) then Some (map (bxor (fold_xor pw)) c) else None.

Lemma bxor_involutive (k a : byte) : bxor k (bxor k a) = a.
Proof.
  unfold bxor. rewrite Byte.to_bits_of_bits.
  rewrite <- (Byte.of_bits_to_bits a) at 2. f_equal.
  destruct (Byte.to_bits k) as (k0 & k1 & k2 & k3 & k4 & k5 & k6 & k7).
  destruct (Byte.to_bits a) as (a0 & a1 & a2 & a3 & a4 & a5 & a6 & a7).
  simpl. by rewrite <- !xorb_assoc, !xorb_nilpotent, !xorb_false_l.
Qed.

Lemma xopen_xseal (pw aad p : list byte) :
  xopen pw aad (xseal pw aad p).1 (xseal pw aad p).2 = Some p.
Proof.
  unfold xopen, xseal; simpl. rewrite decide_True by done.
  f_equal. induction p as [|b p IH]; simpl; [done|].
  by rewrite bxor_involutive, IH.
Qed.

Lemma xseal_length (pw aad p : list byte) : length (xseal pw aad p).1 = length p.
Proof. apply length_map. Qed.

Lemma xseal_tag_length (pw aad p : list byte) : length (xseal pw aad p).2 = 16.
Proof. apply length_replicate. Qed.

Definition cipher : PasswordCipher :=
  {| seal := xseal; open := xopen;
     open_seal := xopen_xseal; seal_length := xseal_length;
     seal_tag_length := xseal_tag_length |}.

End Xor.

End CryptoFacts.

(** ** The encryption envelope *)

Module EncryptionFacts.
Import Hex HexFacts Crypto CryptoFacts EncryptionService.

(** The fixtures of the examples: a generator whose byte [i] is
    [3 i + 7], and a 32-character default key. *)
Definition sample_rng : Rng := fun i => default Byte.x00 (Byte.of_nat ((3 * i + 7) mod 256)).
Definition sample_key : list byte := Buffer_from_utf8 "0123456789abcdef0123456789abcdef".

(** [encrypt] with the [iv] field of its result replaced. *)
Definition with_iv (i : option string) (m : EncryptedMessage) : EncryptedMessage :=
  {| content := content m; encryptionKey := encryptionKey m; iv := i; tag := tag m |}.

Section Facts.

Variable cipher : PasswordCipher.
Variable K : list byte.

Lemma generateKey_hex (g : Rng) :
  (generateKey g).1 = Buffer_toString_hex (randomBytes KEY_LENGTH g).1.
Proof. reflexivity. Qed.

Lemma generateKey_truthy (g : Rng) : truthy (Some (generateKey g).1) = Some (generateKey g).1.
Proof. reflexivity. Qed.

(** The password [encrypt] seals under is the decoding of the key it
    writes in the envelope. *)
Lemma encrypt_sealed (plaintext : string) (key : option string) (g : Rng) :
  let e := (encrypt cipher K plaintext key g).1 in
  exists k c t,
    encryptionKey e = Some k /\ content e = Some (Buffer_toString_hex c) /\
    tag e = Some (Buffer_toString_hex t) /\ is_Some (iv e) /\
    seal cipher (Buffer_from_hex k) AAD (Buffer_from_utf8 plaintext) = (c, t).
Proof.
  unfold encrypt. destruct (randomBytes IV_LENGTH g) as [i g'].
  destruct (truthy key) as [k|] eqn:Hk.
  - destruct (seal cipher (Buffer_from_hex k) AAD (Buffer_from_utf8 plaintext))
      as [c t] eqn:Hs.
    exists k, c, t; simpl. rewrite Hs. eauto 10.
  - destruct (seal cipher K AAD (Buffer_from_utf8 plaintext)) as [c t] eqn:Hs.
    exists (Buffer_toString_hex K), c, t; simpl.
    rewrite Buffer_from_hex_toString, Hs. eauto 10.
Qed.

Lemma decrypt_sealed (m : EncryptedMessage) (k i : string) (c t : list byte) (plaintext : string) :
  encryptionKey m = Some k -> iv m = Some i ->
  content m = Some (Buffer_toString_hex c) -> tag m = Some (Buffer_toString_hex t) ->
  seal cipher (Buffer_from_hex k) AAD (Buffer_from_utf8 plaintext) = (c, t) ->
  decrypt cipher m = inr plaintext.
Proof.
  intros Hk Hi Hc Ht Hs. unfold decrypt. rewrite Hk, Hi, Ht, Hc; cbn [Buffer_from].
  rewrite !Buffer_from_hex_toString, odd_length_toString_hex.
  pose proof (seal_tag_length cipher (Buffer_from_hex k) AAD (Buffer_from_utf8 plaintext)) as Hl.
  pose proof (open_seal cipher (Buffer_from_hex k) AAD (Buffer_from_utf8 plaintext)) as Ho.
  rewrite Hs in Hl, Ho; cbn [fst snd] in Hl, Ho. rewrite Hl, Ho.
  change (valid_tag_length 16) with true. cbn [negb]. by rewrite utf8_roundtrip.
Qed.

Lemma decrypt_encrypt (plaintext : string) (key : option string) (g : Rng) :
  decrypt cipher (encrypt cipher K plaintext key g).1 = inr plaintext.
Proof.
  destruct (encrypt_sealed plaintext key g) as (k & c & t & Hk & Hc & Ht & [i Hi] & Hs).
  by eapply decrypt_sealed.
Qed.

Lemma decrypt_encryptE2E (plaintext : string) (g : Rng) :
  decrypt cipher (encryptE2E cipher K plaintext g).1 = inr plaintext.
Proof. unfold encryptE2E. destruct (generateKey g). apply decrypt_encrypt. Qed.

(** [decrypt] never reads what the [iv] field holds. *)
Lemma decrypt_ignores_iv (m : EncryptedMessage) (i : string) :
  is_Some (iv m) -> decrypt cipher (with_iv (Some i) m) = decrypt cipher m.
Proof.
  intros [i' Hi]. unfold decrypt, with_iv. cbn [encryptionKey iv tag content].
  by rewrite Hi.
Qed.

(** The envelope of [encryptE2E]: four hex strings, the key being the 32
    bytes drawn first. *)
Lemma encryptE2E_shape (plaintext : string) (g : Rng) :
  exists c i t,
    (encryptE2E cipher K plaintext g).1
    = {| content := Some (Buffer_toString_hex c);
         encryptionKey := Some (Buffer_toString_hex (randomBytes KEY_LENGTH g).1);
         iv := Some (Buffer_toString_hex i);
         tag := Some (Buffer_toString_hex t) |} /\
    seal cipher (randomBytes KEY_LENGTH g).1 AAD (Buffer_from_utf8 plaintext) = (c, t).
Proof.
  unfold encryptE2E. rewrite (surjective_pairing (generateKey g)).
  unfold encrypt. rewrite generateKey_truthy, generateKey_hex, Buffer_from_hex_toString.
  destruct (randomBytes IV_LENGTH _) as [i g'].
  destruct (seal _ _ _ _) as [c t]. by exists c, i, t.
Qed.

(** The same envelope in full: the ciphertext and the tag are what the
    cipher gives for the plaintext under the 32 bytes drawn first, and the
    [iv] field is the 16 bytes drawn next. *)
Lemma encryptE2E_envelope (plaintext : string) (g : Rng) :
  let key := (randomBytes KEY_LENGTH g).1 in
  let sealed := seal cipher key AAD (Buffer_from_utf8 plaintext) in
  (encryptE2E cipher K plaintext g).1
  = {| content := Some (Buffer_toString_hex sealed.1);
       encryptionKey := Some (Buffer_toString_hex key);
       iv := Some (Buffer_toString_hex
                     (randomBytes IV_LENGTH (randomBytes KEY_LENGTH g).2).1);
       tag := Some (Buffer_toString_hex sealed.2) |}.
Proof.
  cbv zeta. unfold encryptE2E. rewrite (surjective_pairing (generateKey g)).
  unfold encrypt. rewrite generateKey_truthy, generateKey_hex, Buffer_from_hex_toString.
  change (generateKey g).2 with (randomBytes KEY_LENGTH g).2.
  rewrite (surjective_pairing (randomBytes IV_LENGTH (randomBytes KEY_LENGTH g).2)).
  by destruct (seal _ _ _ _).
Qed.

Lemma encryptE2E_key (plaintext : string) (g : Rng) :
  encryptionKey (encryptE2E cipher K plaintext g).1
  = Some (Buffer_toString_hex (randomBytes KEY_LENGTH g).1).
Proof.
  unfold encryptE2E. rewrite (surjective_pairing (generateKey g)).
  unfold encrypt. rewrite generateKey_truthy.
  destruct (randomBytes IV_LENGTH _), (seal _ _ _ _). reflexivity.
Qed.

Lemma encrypt_content_length (plaintext : string) (key : option string) (g : Rng) :
  exists c, content (encrypt cipher K plaintext key g).1 = Some c /\
            String.length c = 2 * String.length plaintext.
Proof.
  destruct (encrypt_sealed plaintext key g) as (k & c & t & _ & Hc & _ & _ & Hs).
  exists (Buffer_toString_hex c). split; [done|].
  rewrite length_toString_hex. f_equal.
  pose proof (seal_length cipher (Buffer_from_hex k) AAD (Buffer_from_utf8 plaintext)) as Hl.
  rewrite Hs in Hl; simpl in Hl. by rewrite Hl, length_from_utf8.
Qed.



(** C3 (amended): for every plaintext [P], [decrypt (encryptE2E P)] is [P];
    the key of the envelope is the hex of the 32 bytes the call draws from
    the generator, so two calls have the same key exactly when they draw
    the same bytes; and the ciphertext is twice as many hex digits as [P]
    has bytes, whatever the key. *)
Theorem encryptE2E_roundtrip_fresh_key (plaintext : string) (g : Rng) :
  let e := (encryptE2E cipher K plaintext g).1 in
  decrypt cipher e = inr plaintext /\
  encryptionKey e = Some (Buffer_toString_hex (randomBytes KEY_LENGTH g).1) /\
  (forall g', encryptionKey (encryptE2E cipher K plaintext g').1 = encryptionKey e <->
              (randomBytes KEY_LENGTH g').1 = (randomBytes KEY_LENGTH g).1) /\
  (exists c, content e = Some c /\ String.length c = 2 * String.length plaintext).
Proof.
  cbv zeta. split_and!.
  - apply decrypt_encryptE2E.
  - apply encryptE2E_key.
  - intros g'. rewrite !encryptE2E_key. split.
    + intros H. apply toString_hex_inj. congruence.
    + by intros ->.
  - unfold encryptE2E. destruct (generateKey g). apply encrypt_content_length.
Qed.

End Facts.


(** Three other changes to the same envelope are refused: a character
    written after the content, a tag cut to six characters, and a tag of
    thirty-two zeros. *)
Example decrypt_tampered :
  let e := (encryptE2E Xor.cipher sample_key "hi" sample_rng).1 in
  decrypt Xor.cipher {| content := (fun c => c +:+ "a") <$> content e;
                        encryptionKey := encryptionKey e; iv := iv e; tag := tag e |}
  = inl (TypeError "The argument 'encoding' is invalid for data of length 5. Received 'hex'") /\
  decrypt Xor.cipher {| content := content e; encryptionKey := encryptionKey e; iv := iv e;
                        tag := (fun t => String.substring 0 6 t) <$> tag e |}
  = inl (TypeError "Invalid authentication tag length: 3") /\
  decrypt Xor.cipher {| content := content e; encryptionKey := encryptionKey e; iv := iv e;
                        tag := Some "00000000000000000000000000000000" |}
  = inl (Error "Unsupported state or unable to authenticate data").
Proof. vm_compute. done. Qed.

(** C3, as stated, fails: two successive calls on the empty plaintext draw
    different keys and give the same (empty) ciphertext. *)
Lemma encryptE2E_same_ciphertext :
  let '(e1, g) := encryptE2E Xor.cipher sample_key "" sample_rng in
  let '(e2, _) := encryptE2E Xor.cipher sample_key "" g in
  encryptionKey e1 <> encryptionKey e2 /\ content e1 = content e2.
Proof. vm_compute. split; [discriminate|reflexivity]. Qed.

(** The same holds under every cipher of the interface. *)
Lemma encryptE2E_empty_content (cipher : PasswordCipher) (K : list byte) (g : Rng) :
  content (encryptE2E cipher K "" g).1 = Some "".
Proof.
  destruct (encrypt_content_length cipher K "" (Some (generateKey g).1) (generateKey g).2)
    as (c & Hc & Hl).
  unfold encryptE2E. rewrite (surjective_pairing (generateKey g)). rewrite Hc.
  by destruct c.
Qed.

Lemma from_hex_trailing (buf : list byte) :
  Buffer_from_hex (Buffer_toString_hex buf +:+ "zz") = buf.
Proof.
  induction buf as [|b buf IH]; [reflexivity|].
  change (Buffer_toString_hex (b :: buf) +:+ "zz")
    with (byte_to_hex b (Buffer_toString_hex buf +:+ "zz")).
  by rewrite byte_hex_roundtrip, IH.
Qed.

(** Under every cipher: a key field with text after its last hex pair
    decodes to the same password. *)
Lemma decrypt_lenient_key (cipher : PasswordCipher) (m : EncryptedMessage) (key : list byte) :
  encryptionKey m = Some (Buffer_toString_hex key) ->
  decrypt cipher {| content := content m;
                    encryptionKey := Some (Buffer_toString_hex key +:+ "zz");
                    iv := iv m; tag := tag m |}
  = decrypt cipher m.
Proof.
  intros Hk. unfold decrypt. rewrite Hk. cbn [encryptionKey iv tag content Buffer_from].
  by rewrite from_hex_trailing, Buffer_from_hex_toString.
Qed.

Lemma decrypt_malformed_iv (cipher : PasswordCipher) (K : list byte) (plaintext : string)
    (key : option string) (g : Rng) (i : string) :
  decrypt cipher (with_iv (Some i) (encrypt cipher K plaintext key g).1) = inr plaintext.
Proof.
  rewrite decrypt_ignores_iv; [apply decrypt_encrypt|].
  by destruct (encrypt_sealed cipher K plaintext key g) as (? & ? & ? & _ & _ & _ & ? & _).
Qed.

End EncryptionFacts.

(** ** JSON: what [stringify] writes, [parse] reads back *)

Module JsonFacts.
Import Hex HexFacts Json.
Import EncryptionService.

(** Characters a JSON string literal holds as they are. *)
Definition plain_char (c : ascii) : bool :=
  let n := N_of_ascii c in negb (n =? 34)%N && negb (n =? 92)%N && negb (n <? 32)%N.

Fixpoint plain (s : string) : bool :=
  match s with
  | "" => true
  | String c s' => plain_char c && plain s'
  end.

Lemma escape_plain (c : ascii) (rest : string) :
  plain_char c = true -> escape c rest = String c rest.
Proof.
  unfold plain_char, escape. cbv zeta. intros H.
  apply andb_prop in H as [H H32]. apply andb_prop in H as [H34 H92].
  apply negb_true_iff in H34, H92, H32. rewrite H34, H92, H32.
  apply N.ltb_ge in H32.
  destruct (N.eqb_spec (N_of_ascii c) 8) as [E|_]; [rewrite E in H32; lia|].
  destruct (N.eqb_spec (N_of_ascii c) 12) as [E|_]; [rewrite E in H32; lia|].
  destruct (N.eqb_spec (N_of_ascii c) 10) as [E|_]; [rewrite E in H32; lia|].
  destruct (N.eqb_spec (N_of_ascii c) 13) as [E|_]; [rewrite E in H32; lia|].
  destruct (N.eqb_spec (N_of_ascii c) 9) as [E|_]; [rewrite E in H32; lia|].
  done.
Qed.

Lemma quote_body_plain (s rest : string) :
  plain s = true -> quote_body s rest = s +:+ rest.
Proof.
  induction s as [|c s IH]; simpl; [done|].
  intros [Hc Hs]%andb_prop. by rewrite escape_plain, IH.
Qed.

Lemma quote_plain (s rest : string) :
  plain s = true -> quote s rest = String dquote (s +:+ String dquote rest).
Proof. intros H. unfold quote. by rewrite quote_body_plain. Qed.

Lemma parse_string_plain (s rest : string) :
  plain s = true -> parse_string (s +:+ String dquote rest) = Some (s, rest).
Proof.
  induction s as [|c s IH]; simpl; [done|].
  intros [Hc Hs]%andb_prop. unfold plain_char in Hc. cbv zeta in Hc.
  apply andb_prop in Hc as [Hc H32]. apply andb_prop in Hc as [H34 H92].
  apply negb_true_iff in H34, H92, H32. by rewrite H34, H92, H32, IH.
Qed.

Lemma plain_hex (buf : list byte) : plain (Buffer_toString_hex buf) = true.
Proof.
  induction buf as [|b buf IH]; [done|].
  cbn [Buffer_toString_hex byte_to_hex plain]. rewrite IH.
  by destruct b.
Qed.

Lemma parse_members_more (fuel : nat) (k v s3 : string) :
  plain k = true -> plain v = true ->
  parse_members (S fuel) (quote k (String ":" (quote v (String "," s3))))
  = match parse_members fuel s3 with
    | Some ms => Some ((k, v) :: ms)
    | None => None
    end.
Proof.
  intros Hk Hv. rewrite !quote_plain by done.
  cbn [parse_members]. change (N_of_ascii dquote =? 34)%N with true. cbv iota.
  rewrite parse_string_plain by done.
  change ((N_of_ascii ":" =? 58) && (N_of_ascii dquote =? 34))%N with true. cbv iota.
  by rewrite parse_string_plain by done.
Qed.

Lemma parse_members_last (fuel : nat) (k v : string) :
  plain k = true -> plain v = true ->
  parse_members (S fuel) (quote k (String ":" (quote v "}"))) = Some [(k, v)].
Proof.
  intros Hk Hv. rewrite !quote_plain by done.
  cbn [parse_members]. change (N_of_ascii dquote =? 34)%N with true. cbv iota.
  rewrite parse_string_plain by done.
  change ((N_of_ascii ":" =? 58) && (N_of_ascii dquote =? 34))%N with true. cbv iota.
  by rewrite parse_string_plain by done.
Qed.

(** [JSON.parse (JSON.stringify e)] is [e] for an envelope whose four fields
    are present and need no escape. *)
Lemma parse_stringify (c k i t : string) :
  plain c = true -> plain k = true -> plain i = true -> plain t = true ->
  let e := {| content := Some c; encryptionKey := Some k; iv := Some i; tag := Some t |} in
  parse (stringify e) = Some e.
Proof.
  intros Hc Hk Hi Ht e. unfold parse, stringify, stringify_object, parse_object.
  cbn [members content encryptionKey iv tag e].
  change (N_of_ascii "{" =? 123)%N with true. cbv iota.
  set (body := quote "content" _).
  assert (parse_members (String.length body) body
          = Some [("content", c); ("encryptionKey", k); ("iv", i); ("tag", t)]) as Hm.
  { assert (4 <= String.length body) as Hlen.
    { subst body. rewrite (quote_plain "content") by done. simpl. lia. }
    destruct (String.length body) as [|[|[|[|fuel]]]]; [lia..|].
    subst body. rewrite !parse_members_more by done. by rewrite parse_members_last. }
  assert (match body with String _ "" => false | _ => true end = true) as Hb.
  { subst body. by rewrite (quote_plain "content"). }
  destruct body as [|b0 [|b1 body]]; [done|done|].
  by rewrite Hm.
Qed.

Lemma length_escape (c : ascii) (rest : string) :
  String.length rest < String.length (escape c rest).
Proof. unfold escape. cbv zeta. repeat case_match; simpl; lia. Qed.

Lemma length_quote_body (s rest : string) :
  String.length s + String.length rest <= String.length (quote_body s rest).
Proof.
  induction s as [|c s IH]; simpl; [lia|].
  pose proof (length_escape c (quote_body s rest)). lia.
Qed.

Lemma length_quote (s rest : string) :
  String.length s + String.length rest < String.length (quote s rest).
Proof.
  unfold quote. simpl. pose proof (length_quote_body s (String dquote rest)).
  simpl in *. lia.
Qed.

(** The text of an envelope is longer than its [content] field. *)
Lemma length_stringify (c k i t : string) :
  String.length c
  < String.length (stringify {| content := Some c; encryptionKey := Some k;
                                iv := Some i; tag := Some t |}).
Proof.
  unfold stringify, stringify_object. cbn [members content encryptionKey iv tag].
  cbn [String.length].
  match goal with
  | |- _ < S (String.length (quote _ (String _ (quote c ?rest)))) =>
      pose proof (length_quote "content" (String ":" (quote c rest)));
      pose proof (length_quote c rest)
  end.
  cbn [String.length] in *. lia.
Qed.

Lemma prefix_app (k rest : string) : String.prefix k (k +:+ rest) = true.
Proof.
  induction k as [|c k IH]; [by destruct rest|].
  change (String.prefix (String c k) (String c (k +:+ rest)) = true).
  cbn [String.prefix]. destruct (ascii_dec c c); [done|congruence].
Qed.

Lemma includes_prefix (k h : string) : String.prefix k h = true -> includes k h = true.
Proof. destruct h; simpl; by intros ->. Qed.

Lemma includes_app (k a b : string) : includes k (a +:+ k +:+ b) = true.
Proof.
  induction a as [|c a IH].
  - change (includes k (k +:+ b) = true). apply includes_prefix, prefix_app.
  - change (includes k (String c (a +:+ k +:+ b)) = true).
    cbn [includes]. rewrite IH. apply orb_true_r.
Qed.

Lemma includes_cons (k : string) (c : ascii) (rest : string) :
  includes k rest = true -> includes k (String c rest) = true.
Proof. intros H. cbn [includes]. rewrite H. apply orb_true_r. Qed.

Lemma includes_escape (k : string) (c : ascii) (rest : string) :
  includes k rest = true -> includes k (escape c rest) = true.
Proof. intros H. unfold escape. cbv zeta. repeat case_match; by repeat apply includes_cons. Qed.

Lemma includes_quote (k s rest : string) :
  includes k rest = true -> includes k (quote s rest) = true.
Proof.
  intros H. unfold quote. apply includes_cons.
  induction s as [|c s IH]; simpl; [by apply includes_cons|by apply includes_escape].
Qed.

Lemma includes_quote_self (k rest : string) :
  plain k = true -> includes k (quote k rest) = true.
Proof.
  intros H. rewrite quote_plain by done. apply includes_cons.
  apply includes_prefix, prefix_app.
Qed.

(** The text of an envelope contains its [encryptionKey] field as it is. *)
Lemma includes_stringify_key (c k i t : string) :
  plain k = true ->
  includes k (stringify {| content := Some c; encryptionKey := Some k;
                           iv := Some i; tag := Some t |}) = true.
Proof.
  intros Hk. unfold stringify, stringify_object.
  cbn [members content encryptionKey iv tag].
  apply includes_cons, includes_quote, includes_cons, includes_quote, includes_cons.
  apply includes_quote, includes_cons. by apply includes_quote_self.
Qed.

End JsonFacts.

(** ** A small deployment, on which the handlers are run *)

Module Sample.
Import Db Runtime.

Definition alice : User :=
  {| user_id := "u-alice"; user_email := "alice@example.org";
     user_profile := Some {| first_name := "Alice" |} |}.
Definition bob : User :=
  {| user_id := "u-bob"; user_email := "bob@example.org"; user_profile := None |}.
Definition carol : User :=
  {| user_id := "u-carol"; user_email := "carol@example.org";
     user_profile := Some {| first_name := "Carol" |} |}.

Definition member (id team user role status : string) : TeamMember :=
  {| tm_id := id; tm_team_id := team; tm_user_id := user; tm_role := role;
     tm_status := status |}.

(** Team [t-1]: alice leads, bob is a member; team [t-2]: carol leads,
    alice is a member. *)
Definition store0 : Store :=
  {| teams := [ {| team_id := "t-1"; team_name := "Alpha"; team_description := "" |};
                {| team_id := "t-2"; team_name := "Bravo"; team_description := "" |} ];
     team_members := [ member "m-1" "t-1" "u-alice" "leader" "safe";
                       member "m-2" "t-1" "u-bob" "member" "safe";
                       member "m-3" "t-2" "u-carol" "leader" "safe";
                       member "m-4" "t-2" "u-alice" "member" "safe" ];
     messages := []; notifications := []; users := [alice; bob; carol]; uuids := 0 |}.

Definition world0 : World :=
  {| store := store0; sockets := ∅; connectedUsers := ∅;
     rng := EncryptionFacts.sample_rng; log := [] |}.

(** [req.user] for alice. *)
Definition alice_auth : Http.AuthUser :=
  {| Http.id := "u-alice"; Http.email := "alice@example.org" |}.

(** No query fails; the [n]-th identifier is [id-n]. *)
Definition env0 : Env :=
  {| fails := fun _ => None; gen_random_uuid := fun n => "id-" +:+ pretty n |}.

Definition failing (c : Call) : Env :=
  {| fails := fun c' => if decide (c' = c) then Some "connection reset" else None;
     gen_random_uuid := gen_random_uuid env0 |}.

(** The same with several calls failing. *)
Definition failing_each (calls : list Call) : Env :=
  {| fails := fun c' => if decide (c' ∈ calls) then Some "connection reset" else None;
     gen_random_uuid := gen_random_uuid env0 |}.

End Sample.

(** ** Reasoning about handler bodies *)

Module MonadFacts.
Import Db Runtime.

(** The answer [await_query] hands back, as a function of the store. *)
Definition answer {A} (env : Env) (c : Call) (run : Store -> Answer A * Store) (s : Store)
  : Answer A :=
  match fails env c with
  | Some e => inl e
  | None => (run s).1
  end.

(** The store [await_query] leaves. *)
Definition store_after {A} (env : Env) (c : Call) (run : Store -> Answer A * Store)
    (s : Store) : Store :=
  match fails env c with
  | Some _ => s
  | None => (run s).2
  end.

Lemma await_query_eq {A} (env : Env) (c : Call) (run : Store -> Answer A * Store) (w : World) :
  await_query env c run w
  = (inr (answer env c run (store w)),
     add_event (query c (is_ok (answer env c run (store w))))
       (set_store (store_after env c run (store w)) w)).
Proof.
  unfold await_query, answer, store_after.
  destruct (fails env c); [by destruct w|]. by destruct (run (store w)).
Qed.

Lemma ret_eq {A} (a : A) (w : World) : (mret a : M A) w = (inr a, w).
Proof. reflexivity. Qed.

Lemma bind_eq {A B} (m : M A) (k : A -> M B) (w : World) :
  (m ≫= k) w = match m w with
               | (inr a, w') => k a w'
               | (inl e, w') => (inl e, w')
               end.
Proof. reflexivity. Qed.

Lemma bind_inr {A B} (m : M A) (k : A -> M B) (w w' : World) (a : A) :
  m w = (inr a, w') -> (m ≫= k) w = k a w'.
Proof. intros H. by rewrite bind_eq, H. Qed.

Lemma bind_inl {A B} (m : M A) (k : A -> M B) (w w' : World) (e : JsError) :
  m w = (inl e, w') -> (m ≫= k) w = (inl e, w').
Proof. intros H. by rewrite bind_eq, H. Qed.

(** *** Relations every step of a body keeps *)

Section Preservation.

Context (R : relation World) `{!PreOrder R}.

Definition preserves {A} (m : M A) : Prop := forall w, R w (m w).2.

Lemma preserves_ret {A} (a : A) : preserves (mret a).
Proof. intros w. reflexivity. Qed.

Lemma preserves_throw {A} (e : JsError) : preserves (throw e : M A).
Proof. intros w. reflexivity. Qed.

Lemma preserves_bind {A B} (m : M A) (k : A -> M B) :
  preserves m -> (forall a, preserves (k a)) -> preserves (m ≫= k).
Proof.
  intros Hm Hk w. rewrite bind_eq. specialize (Hm w).
  destruct (m w) as [[e|a] w1]; simpl in *; [done|].
  etrans; [exact Hm|apply Hk].
Qed.

Lemma preserves_gets {A} (f : World -> A) : preserves (gets f).
Proof. intros w. reflexivity. Qed.

Lemma preserves_try_catch {A} (body : M A) (handler : JsError -> M A) :
  preserves body -> (forall e, preserves (handler e)) -> preserves (try_catch body handler).
Proof.
  intros Hb Hh w. unfold try_catch. specialize (Hb w).
  destruct (body w) as [[e|a] w1]; simpl in *; [|done].
  etrans; [exact Hb|apply Hh].
Qed.

Lemma preserves_for_of {A} (l : list A) (body : A -> M unit) :
  (forall x, preserves (body x)) -> preserves (for_of l body).
Proof.
  intros Hb. induction l as [|x l IH]; simpl.
  - apply preserves_ret.
  - apply preserves_bind; [apply Hb|by intros _].
Qed.

Lemma preserves_all_map {A B} (f : A -> M B) (l : list A) :
  (forall x, preserves (f x)) -> preserves (all_map f l).
Proof.
  intros Hf. induction l as [|x l IH]; simpl.
  - apply preserves_ret.
  - apply preserves_bind; [apply Hf|intros y].
    apply preserves_bind; [apply IH|intros ys]. apply preserves_ret.
Qed.

End Preservation.

(** Steps through the syntax of a body: binds, branches, loops; what is
    left are its queries and emissions. *)
Ltac preserve :=
  repeat first
    [ progress intros
    | apply preserves_ret
    | apply preserves_throw
    | apply preserves_gets
    | apply preserves_bind
    | apply preserves_try_catch
    | apply preserves_for_of
    | apply preserves_all_map
    | match goal with
      | |- PreOrder _ => tc_solve
      | |- preserves _ (match ?x with _ => _ end) => destruct x
      end ].

End MonadFacts.

(** ** [DatabaseService]: what its helpers read and leave *)

Module DatabaseFacts.
Import Db Runtime DatabaseService MonadFacts.

(** A projection of the world that a step leaves as it was. *)
Definition same {X} (f : World -> X) : relation World := fun w w' => f w' = f w.

#[global] Instance same_preorder {X} (f : World -> X) : PreOrder (same f).
Proof. split; [by intros w|]. intros w1 w2 w3 H1 H2. unfold same in *. congruence. Qed.

(** The log only grows, by events that satisfy [P]. *)
Definition extends (P : Event -> Prop) : relation World := fun w w' =>
  exists evs, log w' = log w ++ evs /\ Forall P evs.

#[global] Instance extends_preorder (P : Event -> Prop) : PreOrder (extends P).
Proof.
  split.
  - intros w. exists []. by rewrite app_nil_r.
  - intros w1 w2 w3 (e1 & H1 & F1) (e2 & H2 & F2). exists (e1 ++ e2).
    rewrite H2, H1, app_assoc. split; [done|]. by apply Forall_app.
Qed.

Definition read_only {A} (run : Store -> Answer A * Store) : Prop :=
  forall s, (run s).2 = s.

Lemma same_store_await_query {A} (env : Env) (c : Call) (run : Store -> Answer A * Store) :
  read_only run -> preserves (same store) (await_query env c run).
Proof.
  intros Hr w. rewrite await_query_eq. unfold same, store_after; simpl.
  destruct (fails env c); [done|apply Hr].
Qed.

Lemma same_await_query {A X} (f : World -> X) (env : Env) (c : Call)
    (run : Store -> Answer A * Store) :
  (forall w s e, f (add_event e (set_store s w)) = f w) ->
  preserves (same f) (await_query env c run).
Proof. intros Hf w. rewrite await_query_eq. apply Hf. Qed.

Lemma extends_await_query {A} (P : Event -> Prop) (env : Env) (c : Call)
    (run : Store -> Answer A * Store) :
  (forall ok, P (query c ok)) -> preserves (extends P) (await_query env c run).
Proof.
  intros HP w. rewrite await_query_eq. eexists [_]; simpl. split; [done|].
  constructor; [apply HP|constructor].
Qed.

Lemma extends_emit (P : Event -> Prop) (e : Event) : P e -> preserves (extends P) (emit e).
Proof. intros HP w. exists [e]; simpl. split; [done|]. by constructor. Qed.

Lemma emit_eq (e : Event) (w : World) : emit e w = (inr (), add_event e w).
Proof. reflexivity. Qed.

Lemma same_emit {X} (f : World -> X) (e : Event) :
  (forall w, f (add_event e w) = f w) -> preserves (same f) (emit e).
Proof. intros Hf w. apply Hf. Qed.

Lemma read_only_auth (id : string) : read_only (run_auth_getUserById id).
Proof. by intros s. Qed.
Lemma read_only_profiles (user : string) : read_only (run_user_profiles_select user).
Proof. by intros s. Qed.
Lemma read_only_by_team (team : string) : read_only (run_team_members_select_by_team team).
Proof. by intros s. Qed.
Lemma read_only_by_user (user : string) : read_only (run_team_members_select_by_user user).
Proof. by intros s. Qed.
Lemma read_only_single (user team : string) :
  read_only (run_team_members_select_single user team).
Proof. by intros s. Qed.
Lemma read_only_teams_select (id : string) : read_only (run_teams_select id).
Proof. by intros s. Qed.

Create HintDb queries.
#[global] Hint Resolve read_only_auth read_only_profiles read_only_by_team
  read_only_by_user read_only_single read_only_teams_select : queries.

Section Facts.

Variable env : Env.

Lemma getUserById_same_store (userId : string) :
  preserves (same store) (getUserById env userId).
Proof.
  unfold getUserById. preserve; apply same_store_await_query; auto with queries.
Qed.

Lemma getTeamMembers_same_store (teamId : string) :
  preserves (same store) (getTeamMembers env teamId).
Proof.
  unfold getTeamMembers. preserve; apply same_store_await_query; auto with queries.
Qed.

Lemma getUserById_extends (P : Event -> Prop) (userId : string) :
  (forall c ok, P (query c ok)) -> preserves (extends P) (getUserById env userId).
Proof. intros HP. unfold getUserById. preserve; by apply extends_await_query. Qed.

Lemma getTeamMembers_extends (P : Event -> Prop) (teamId : string) :
  (forall c ok, P (query c ok)) -> preserves (extends P) (getTeamMembers env teamId).
Proof.
  intros HP. unfold getTeamMembers.
  preserve; first [ by apply getUserById_extends | by apply extends_await_query ].
Qed.

Lemma createNotification_extends (P : Event -> Prop) (user type title : string)
    (content : option string) :
  (forall c ok, P (query c ok)) ->
  preserves (extends P) (createNotification env user type title content).
Proof. intros HP. unfold createNotification. preserve; by apply extends_await_query. Qed.

(** The rows [getTeamMembers] returns are the team's rows, in table
    order. *)
Lemma all_map_fst {A B} (f : A -> M B) (l : list A) (w w' : World) (r : list (A * B)) :
  all_map (fun x => y ← f x; mret (x, y)) l w = (inr r, w') -> r.*1 = l.
Proof.
  revert w w' r. induction l as [|x l IH]; intros w w' r; simpl.
  - rewrite ret_eq. by intros [= <- _].
  - rewrite !bind_eq. destruct (f x w) as [[e|y] w1]; [by intros [=]|].
    rewrite ret_eq, bind_eq.
    destruct (all_map _ l w1) as [[e|ys] w2] eqn:E; [by intros [=]|].
    rewrite ret_eq. intros [= <- _]. simpl. f_equal. by eapply IH.
Qed.

Lemma getTeamMembers_rows (teamId : string) (w w' : World)
    (r : list (TeamMember * UserDetails)) :
  getTeamMembers env teamId w = (inr r, w') ->
  r.*1 = filter (fun m => tm_team_id m = teamId) (team_members (store w)).
Proof.
  unfold getTeamMembers. rewrite bind_eq, await_query_eq.
  unfold answer. destruct (fails env _); [by intros [=]|]. simpl.
  apply all_map_fst.
Qed.

(** [isTeamMember] and [isTeamLeader] as functions of the store. *)
Definition member_answer (userId teamId : string) (s : Store) : Answer TeamMember :=
  answer env (team_members_select_single userId teamId)
    (run_team_members_select_single userId teamId) s.

Lemma isTeamMember_eq (userId teamId : string) (w : World) :
  isTeamMember env userId teamId w
  = (inr (is_ok (member_answer userId teamId (store w))),
     add_event (query (team_members_select_single userId teamId)
                  (is_ok (member_answer userId teamId (store w)))) w).
Proof.
  unfold isTeamMember. rewrite bind_eq, await_query_eq. unfold member_answer.
  f_equal. unfold store_after. destruct w; simpl. by destruct (fails env _).
Qed.

Lemma isTeamLeader_eq (userId teamId : string) (w : World) :
  isTeamLeader env userId teamId w
  = (inr match member_answer userId teamId (store w) with
         | inr data => bool_decide (tm_role data = "leader")
         | inl _ => false
         end,
     add_event (query (team_members_select_single userId teamId)
                  (is_ok (member_answer userId teamId (store w)))) w).
Proof.
  unfold isTeamLeader. rewrite bind_eq, await_query_eq. unfold member_answer.
  f_equal. unfold store_after. destruct w; simpl. by destruct (fails env _).
Qed.

(** No row for the pair is an answer with an error, so [false]. *)
Lemma member_answer_no_row (userId teamId : string) (s : Store) :
  filter (fun m => is_team_member userId teamId m = true) (team_members s) = [] ->
  is_ok (member_answer userId teamId s) = false.
Proof.
  intros H. unfold member_answer, answer. destruct (fails env _); [done|].
  simpl. by rewrite H.
Qed.

(** An answer without error names a row of the table for the pair. *)
Lemma member_answer_row (userId teamId : string) (s : Store) (row : TeamMember) :
  member_answer userId teamId s = inr row ->
  row ∈ team_members s /\ tm_user_id row = userId /\ tm_team_id row = teamId /\
  filter (fun m => is_team_member userId teamId m = true) (team_members s) = [row].
Proof.
  unfold member_answer, answer. destruct (fails env _); [done|]. simpl.
  destruct (filter _ _) as [|r [|r' l]] eqn:E; simpl; [done| |done].
  intros [= ->].
  assert (row ∈ filter (fun m => is_team_member userId teamId m = true) (team_members s))
    as Hin by (rewrite E; set_solver).
  apply list_elem_of_filter in Hin as [Hm Hin]. unfold is_team_member in Hm.
  apply andb_prop in Hm as [Hu Ht]. apply bool_decide_eq_true in Hu, Ht. done.
Qed.

End Facts.

End DatabaseFacts.

(** ** The realtime router *)

Module WebSocketFacts.
Import Db Runtime DatabaseService WebSocketService MonadFacts DatabaseFacts.

Section Facts.

Variable env : Env.

(** The loop of [joinUserTeams]. *)
Lemma join_loop (socket : Socket) (rows : list TeamMember) (w : World) :
  for_of rows (fun teamMembership =>
    socket_join socket (team_room (tm_team_id teamMembership))) w
  = (inr (),
     set_sockets
       (alter (fun rooms =>
                 rooms ∪ list_to_set (map (fun m => team_room (tm_team_id m)) rows))
          (socket_id socket) (sockets w)) w).
Proof.
  revert w. induction rows as [|row rows IH]; intros w; cbn [for_of].
  - rewrite ret_eq. f_equal. rewrite alter_id; [by destruct w|].
    intros rooms _. simpl. set_solver.
  - rewrite bind_eq. unfold socket_join at 1, modify. rewrite IH. f_equal.
    unfold set_sockets; simpl. f_equal. rewrite alter_alter_eq.
    apply alter_ext. intros rooms _. simpl. set_solver.
Qed.

(** C8: [joinTeam] by a user for whom the membership query has no row (or
    any other error) leaves every connection and its rooms as they were,
    returns without throwing, and emits one [error] event, to the asking
    connection; whatever room a connection is in afterwards, it was in
    before, or it is [team:teamId], just joined by the asking connection,
    and the table holds a membership row of the user for that team.  The
    other place that joins rooms, the connection handler, puts a new
    connection in the room of its own id and in team rooms for which the
    table holds a membership row of its user. *)
Theorem joinTeam_members_only (socket : Socket) (teamId userId : string) (w : World) :
  let w' := (joinTeam env socket teamId userId w).2 in
  let member := is_ok (member_answer env userId teamId (store w)) in
  (joinTeam env socket teamId userId w).1 = inr () /\
  (filter (fun m => is_team_member userId teamId m = true) (team_members (store w)) = [] ->
   member = false) /\
  (member = false ->
   sockets w' = sockets w /\ connectedUsers w' = connectedUsers w /\ store w' = store w /\
   log w' = log w ++ [query (team_members_select_single userId teamId) false;
                      socket_emit (socket_id socket) "error"
                        (error_message "Not a team member")]) /\
  (forall sid rooms' room,
     sockets w' !! sid = Some rooms' -> room ∈ rooms' ->
     exists rooms, sockets w !! sid = Some rooms /\
       (room ∈ rooms \/
        (sid = socket_id socket /\ room = team_room teamId /\
         exists row, row ∈ team_members (store w) /\
                     tm_user_id row = userId /\ tm_team_id row = teamId))) /\
  (forall rooms' room,
     sockets (connection env socket w).2 !! socket_id socket = Some rooms' -> room ∈ rooms' ->
     room = socket_id socket \/
     exists row, row ∈ team_members (store w) /\ tm_user_id row = user_id socket /\
                 room = team_room (tm_team_id row)).
Proof.
  cbv zeta. unfold joinTeam, try_catch. rewrite bind_eq, isTeamMember_eq.
  split_and!.
  - by destruct (is_ok _).
  - apply member_answer_no_row.
  - intros ->. simpl. by rewrite <- app_assoc.
  - intros sid rooms' room.
    destruct (member_answer env userId teamId (store w)) as [e|row] eqn:Hm; simpl.
    + intros H ?. exists rooms'. auto.
    + apply member_answer_row in Hm as (Hin & Hu & Ht & _).
      destruct (decide (sid = socket_id socket)) as [->|Hne].
      * rewrite lookup_alter_eq. destruct (sockets w !! socket_id socket) as [rooms|] eqn:E;
          simpl; [|done].
        intros [= <-] [Hr|Hr%elem_of_singleton]%elem_of_union; exists rooms; [auto|].
        split; [done|]. right. eauto 10.
      * rewrite lookup_alter_ne by done. intros H ?. exists rooms'. auto.
  - intros rooms' room. unfold connection, joinUserTeams, getUserTeams, try_catch.
    rewrite bind_eq. cbn [modify]. rewrite !bind_eq, await_query_eq.
    unfold answer, store_after.
    destruct (fails env _); cbn [store set_connectedUsers set_sockets add_event set_store].
    + unfold throw. cbn. rewrite lookup_insert_eq.
      intros [= <-] ->%elem_of_singleton. by left.
    + unfold run_team_members_select_by_user. cbn [fst snd]. rewrite ret_eq, join_loop.
      cbn. rewrite lookup_alter_eq, lookup_insert_eq. cbn.
      intros [= <-] [->%elem_of_singleton|Hin]%elem_of_union; [by left|right].
      apply elem_of_list_to_set, list_elem_of_fmap in Hin as (row & -> & Hrow).
      apply list_elem_of_filter in Hrow as [Hu Hrow]. eauto.
Qed.

(** The update both handlers send goes through a property that reads
    [undefined]: the step throws, and no query is sent. *)
Lemma update_through_supabaseAdmin {A} (query : Env -> M A) (w : World) :
  client_from DatabaseService_supabaseAdmin query w
  = (inl (TypeError "Cannot read properties of undefined (reading 'from')"), w).
Proof. reflexivity. Qed.

(** C6: on a [status_update] event the handler never throws and leaves
    the store, the rooms and the registry as they were.  When the
    membership check fails, it emits the one [error] event "Not a team
    member" to the connection the event came from.  When the check passes,
    the write of the status does not complete: it goes through
    [DatabaseService.supabaseAdmin], which is undefined, so the step throws
    and the [catch] emits the one [error] event "Failed to update status",
    to the originating connection again.  In either case the log gains the
    membership query and that event and nothing else: no
    [user:status_update] is broadcast, and so none before a write that
    completed. *)
Theorem status_update_error_no_broadcast (socket : Socket) (teamId status : string)
    (w : World) :
  let user := user_id socket in
  let sid := socket_id socket in
  let r := on_status_update env socket teamId status w in
  let member := is_ok (member_answer env user teamId (store w)) in
  r.1 = inr () /\
  store r.2 = store w /\ sockets r.2 = sockets w /\ connectedUsers r.2 = connectedUsers w /\
  log r.2 = log w ++ [query (team_members_select_single user teamId) member;
                      socket_emit sid "error"
                        (error_message (if member then "Failed to update status"
                                        else "Not a team member"))] /\
  (forall room event p, io_to_emit room event p ∈ log r.2 -> io_to_emit room event p ∈ log w).
Proof.
  cbv zeta.
  assert (on_status_update env socket teamId status w
          = (inr (),
             add_event (socket_emit (socket_id socket) "error"
                          (error_message
                             (if is_ok (member_answer env (user_id socket) teamId (store w))
                              then "Failed to update status" else "Not a team member")))
               (add_event (query (team_members_select_single (user_id socket) teamId)
                             (is_ok (member_answer env (user_id socket) teamId (store w))))
                  w))) as ->.
  { unfold on_status_update, try_catch. rewrite bind_eq, isTeamMember_eq.
    destruct (is_ok (member_answer env (user_id socket) teamId (store w))); cbn [negb].
    - by rewrite bind_eq, update_through_supabaseAdmin, emit_eq.
    - by rewrite emit_eq. }
  cbn [fst snd store sockets connectedUsers log add_event].
  split_and!; [done..|by rewrite <- app_assoc|].
  intros room event p. rewrite !elem_of_app, !list_elem_of_singleton. naive_solver.
Qed.

(** What the [disconnect] listener does: the entry and the connection are
    removed and the query for the user's teams is sent.  With no row, or
    with the query failing, that is all; with a row, the first round of the
    loop throws at [DatabaseService.supabaseAdmin], before any update or
    broadcast, and the [catch] of [updateUserOfflineStatus] ends the
    handler. *)
Lemma on_disconnect_run (socket : Socket) (w : World) :
  let select := team_members_select_by_user (user_id socket) in
  on_disconnect env socket w
  = (inr (),
     {| store := store w;
        sockets := delete (socket_id socket) (sockets w);
        connectedUsers := delete (user_id socket) (connectedUsers w);
        rng := rng w;
        log := log w ++ [query select
                           (is_ok (answer env select
                                     (run_team_members_select_by_user (user_id socket))
                                     (store w)))] |}).
Proof.
  cbv zeta. unfold on_disconnect, updateUserOfflineStatus, getUserTeams, try_catch.
  rewrite bind_eq. cbn [modify]. rewrite !bind_eq, await_query_eq.
  cbn [store set_connectedUsers set_sockets add_event set_store].
  assert (store_after env (team_members_select_by_user (user_id socket))
            (run_team_members_select_by_user (user_id socket)) (store w) = store w) as ->.
  { unfold store_after. by destruct (fails env _). }
  destruct (answer env _ _ (store w)) as [e|[|row rows]]; [done|done|].
  rewrite ret_eq. cbn [for_of]. by rewrite !bind_eq, update_through_supabaseAdmin.
Qed.

End Facts.

(** The sample deployment with alice and bob connected. *)
Definition alice_socket : Socket :=
  {| socket_id := "s-1"; user_id := "u-alice"; user_email := "alice@example.org" |}.
Definition bob_socket : Socket :=
  {| socket_id := "s-2"; user_id := "u-bob"; user_email := "bob@example.org" |}.
Definition connected : World :=
  (connection Sample.env0 bob_socket (connection Sample.env0 alice_socket Sample.world0).2).2.

(** Settles a closed decidable proposition by running its decision. *)
Ltac by_deciding :=
  match goal with
  | |- ?P => apply (bool_decide_unpack P); vm_compute; exact I
  end.

(** Alice is in the rooms of both her teams, bob in the room of his. *)
Example connected_rooms :
  sockets connected !! "s-1" = Some {[ "s-1"; "team:t-1"; "team:t-2" ]} /\
  sockets connected !! "s-2" = Some {[ "s-2"; "team:t-1" ]}.
Proof. split; by_deciding. Qed.

(** Bob asks to join the room of [t-2], of which he is no member. *)
Example join_team_refused :
  let w' := (joinTeam Sample.env0 bob_socket "t-2" "u-bob" connected).2 in
  sockets w' = sockets connected /\
  drop (length (log connected)) (log w')
  = [query (team_members_select_single "u-bob" "t-2") false;
     socket_emit "s-2" "error" (error_message "Not a team member")].
Proof. split; [by_deciding|vm_compute; reflexivity]. Qed.

(** Alice, a member of [t-1], reports [need_backup]: her row keeps its
    status and the one thing emitted is the error to her connection. *)
Example status_update_fails :
  let w' := (on_status_update Sample.env0 alice_socket "t-1" "need_backup" connected).2 in
  store w' = store connected /\
  drop (length (log connected)) (log w')
  = [query (team_members_select_single "u-alice" "t-1") true;
     socket_emit "s-1" "error" (error_message "Failed to update status")].
Proof. vm_compute. done. Qed.

(** C7, at the failing input: alice, who is in [t-1] and [t-2] with status
    [safe], is connected, and her connection closes.  Her entry leaves the
    registry and the query for her teams is answered with both rows; the
    first round of the loop then throws, so the log gains no update and no
    [user:status_update], and her two rows keep the status [safe]. *)
Theorem disconnect_sets_nothing_offline :
  let w' := (on_disconnect Sample.env0 alice_socket connected).2 in
  map (fun m => (tm_team_id m, tm_status m))
    (filter (fun m => tm_user_id m = "u-alice") (team_members (store connected)))
  = [("t-1", "safe"); ("t-2", "safe")] /\
  connectedUsers connected !! "u-alice" = Some "s-1" /\
  connectedUsers w' !! "u-alice" = None /\
  team_members (store w') = team_members (store connected) /\
  drop (length (log connected)) (log w')
  = [query (team_members_select_by_user "u-alice") true].
Proof.
  cbv zeta. rewrite on_disconnect_run. cbn [snd store connectedUsers log].
  split_and!; [vm_compute; reflexivity|by_deciding|apply lookup_delete_eq|done|].
  by rewrite drop_app_length.
Qed.

End WebSocketFacts.

(** ** [TeamController] *)

Module TeamFacts.
Import Db Runtime DatabaseService Http TeamController MonadFacts DatabaseFacts.

Lemma filter_fresh_team (id : string) (l : list Team) :
  id ∉ map team_id l -> filter (fun t => team_id t ≠ id) l = l.
Proof.
  induction l as [|t l IH]; [done|]. simpl. intros Hn.
  rewrite filter_cons_True by set_solver. rewrite IH; [done|set_solver].
Qed.

Lemma filter_absent_team (id : string) (l : list Team) :
  id ∉ map team_id l -> filter (fun t => team_id t = id) l = [].
Proof.
  induction l as [|t l IH]; [done|]. simpl. intros Hn.
  rewrite filter_cons_False by set_solver. apply IH. set_solver.
Qed.

Section Facts.

Variable env : Env.

Lemma teams_insert_ok (name description : string) (s : Store) (team : Team) :
  answer env (teams_insert name description) (run_teams_insert env name description) s
  = inr team ->
  (team_id team ∉ map team_id (teams s)) /\
  teams (store_after env (teams_insert name description)
           (run_teams_insert env name description) s) = teams s ++ [team].
Proof.
  unfold answer, store_after. destruct (fails env _); [done|].
  unfold run_teams_insert, next_uuid. simpl.
  case_bool_decide as Hin; simpl; [done|]. by intros [= <-].
Qed.

Lemma team_members_insert_failed (team user role status e : string) (s : Store) :
  answer env (team_members_insert team user role status)
    (run_team_members_insert env team user role status) s = inl e ->
  teams (store_after env (team_members_insert team user role status)
           (run_team_members_insert env team user role status) s) = teams s.
Proof.
  unfold answer, store_after. destruct (fails env _); [done|].
  unfold run_team_members_insert, next_uuid. simpl.
  by repeat (destruct (_ : bool); simpl).
Qed.

(** C5 (amended): when [createTeam] has persisted the team row and the
    insert of the creator's leader row is answered with an error, the
    request sends three queries, the insert of the team, the insert of the
    leader row and the delete of the new team row, and answers with the 400
    "Failed to add team leader".  The answer of the delete is not looked
    at.  When the store carries the delete out, no row of [teams] has the
    new id (the table is as before the request) and looking the team up
    throws "Team not found"; when the delete fails as well, the table is
    the one before the request with the new row after it. *)
Theorem createTeam_rolls_back (user : AuthUser) (body : CreateTeamRequest) (w : World)
    (team : Team) (memberError : string) :
  let description := default "" (description body) in
  let insert := teams_insert (name body) description in
  let run := run_teams_insert env (name body) description in
  let add_leader := team_members_insert (team_id team) (id user) "leader" "offline" in
  answer env insert run (store w) = inr team ->
  answer env add_leader
    (run_team_members_insert env (team_id team) (id user) "leader" "offline")
    (store_after env insert run (store w)) = inl memberError ->
  let r := createTeam env (Some user) body w in
  let deleted := bool_decide (fails env (teams_delete (team_id team)) = None) in
  (team ∈ teams (store_after env insert run (store w))) /\
  r.1 = inr (failure 400 "Failed to add team leader" (Some memberError)) /\
  log r.2 = log w ++ [query insert true; query add_leader false;
                      query (teams_delete (team_id team)) deleted] /\
  (deleted = true ->
   teams (store r.2) = teams (store w) /\
   (team_id team ∉ map team_id (teams (store r.2))) /\
   (getTeamWithMembers env (team_id team) r.2).1 = inl (Error "Team not found")) /\
  (deleted = false -> teams (store r.2) = teams (store w) ++ [team]).
Proof.
  cbv zeta. intros Hteam Hmember.
  destruct (teams_insert_ok _ _ _ _ Hteam) as [Hfresh Hteams].
  pose proof (team_members_insert_failed _ _ _ _ _ _ Hmember) as Hkept.
  unfold createTeam, try_catch.
  rewrite bind_eq, await_query_eq, Hteam. cbn [store add_event set_store].
  rewrite bind_eq, await_query_eq. cbn [store add_event set_store]. rewrite Hmember.
  rewrite bind_eq, await_query_eq, ret_eq.
  cbn [store add_event set_store fst snd log is_ok].
  split_and!.
  - rewrite Hteams. set_solver.
  - done.
  - rewrite <- !app_assoc. cbn [app]. do 4 f_equal.
    unfold answer. destruct (fails env (teams_delete (team_id team))); [done|].
    by rewrite bool_decide_eq_true_2.
  - intros Hdelete%bool_decide_eq_true.
    assert (teams (store_after env (teams_delete (team_id team))
                     (run_teams_delete (team_id team))
                     (store_after env
                        (team_members_insert (team_id team) (id user) "leader" "offline")
                        (run_team_members_insert env (team_id team) (id user)
                           "leader" "offline")
                        (store_after env
                           (teams_insert (name body) (default "" (description body)))
                           (run_teams_insert env (name body) (default "" (description body)))
                           (store w))))
            = teams (store w)) as Hafter.
    { unfold store_after at 1. rewrite Hdelete. cbn [run_teams_delete snd teams].
      rewrite Hkept, Hteams, filter_app, filter_fresh_team by done.
      rewrite filter_cons_False, filter_nil, app_nil_r by (intros H; by apply H). done. }
    split_and!; [exact Hafter|by rewrite Hafter|].
    unfold getTeamWithMembers. rewrite bind_eq, await_query_eq.
    cbn [store add_event set_store]. unfold answer.
    destruct (fails env (teams_select _)); [done|].
    unfold run_teams_select. cbn [fst]. rewrite Hafter.
    by rewrite filter_absent_team.
  - intros Hdelete%bool_decide_eq_false.
    unfold store_after at 1.
    destruct (fails env (teams_delete (team_id team))); [|done].
    by rewrite Hkept, Hteams.
Qed.


End Facts.

Definition alice : AuthUser := Sample.alice_auth.

(** C5, as stated, fails: the store answers the insert of the leader row
    and the delete of the team row with an error, as it does when the
    connection is lost between the first query and the second.  The team
    row [id-0] was persisted, the request is answered 400, the row is
    still there and a lookup of the id returns the team. *)
Lemma createTeam_leaves_team_row :
  let env := Sample.failing_each [team_members_insert "id-0" "u-alice" "leader" "offline";
                                  teams_delete "id-0"] in
  let r := createTeam env (Some alice) {| name := "Charlie"; description := None |}
             Sample.world0 in
  log r.2 = [query (teams_insert "Charlie" "") true;
             query (team_members_insert "id-0" "u-alice" "leader" "offline") false;
             query (teams_delete "id-0") false] /\
  r.1 = inr (failure 400 "Failed to add team leader" (Some "connection reset")) /\
  map team_id (teams (store r.2)) = ["t-1"; "t-2"; "id-0"] /\
  (getTeamWithMembers env "id-0" r.2).1
  = inr ({| team_id := "id-0"; team_name := "Charlie"; team_description := "" |}, []).
Proof. vm_compute. done. Qed.

(** The rollback in the sample deployment, the insert of the leader row
    failing and the delete carried out. *)
Lemma createTeam_rolls_back_sample :
  let env := Sample.failing (team_members_insert "id-0" "u-alice" "leader" "offline") in
  let r := createTeam env (Some alice) {| name := "Charlie"; description := None |}
             Sample.world0 in
  r.1 = inr (failure 400 "Failed to add team leader" (Some "connection reset")) /\
  log r.2 = [query (teams_insert "Charlie" "") true;
             query (team_members_insert "id-0" "u-alice" "leader" "offline") false;
             query (teams_delete "id-0") true] /\
  map team_id (teams (store r.2)) = ["t-1"; "t-2"] /\
  (getTeamWithMembers env "id-0" r.2).1 = inl (Error "Team not found").
Proof.
  cbv zeta.
  pose proof (createTeam_rolls_back
    (Sample.failing (team_members_insert "id-0" "u-alice" "leader" "offline"))
    alice {| name := "Charlie"; description := None |} Sample.world0
    {| team_id := "id-0"; team_name := "Charlie"; team_description := "" |}
    "connection reset" eq_refl eq_refl) as (_ & H1 & H2 & H3 & _).
  destruct (H3 eq_refl) as (H4 & _ & H5).
  split_and!; [exact H1|exact H2|by rewrite H4|exact H5].
Defined.



End TeamFacts.

(** ** [MessageController] *)

Module MessageFacts.
Import Db Runtime DatabaseService Http MessageController MonadFacts DatabaseFacts.
Import EncryptionService(encryptE2E, decrypt, truthy).

Lemma bind_inv {A B} (m : M A) (k : A -> M B) (w w' : World) (b : B) :
  (m ≫= k) w = (inr b, w') ->
  exists a w1, m w = (inr a, w1) /\ k a w1 = (inr b, w').
Proof.
  rewrite bind_eq. destruct (m w) as [[e|a] w1]; [by intros [=]|]. eauto.
Qed.

Definition is_query (e : Event) : Prop :=
  match e with query _ _ => True | _ => False end.

Lemma filter_fst {A B} (P : A -> Prop) `{!forall x, Decision (P x)} (l : list (A * B)) :
  (filter (fun x => P x.1) l).*1 = filter P (l.*1).
Proof.
  induction l as [|[a b] l IH]; [done|]. rewrite fmap_cons, !filter_cons. cbn [fst].
  destruct (decide (P a)); [rewrite fmap_cons|]; by rewrite IH.
Qed.

Section Facts.

Variable cipher : Crypto.PasswordCipher.
Variable K : list byte.
Variable env : Env.

Lemma messages_insert_ok (team : string) (mission : option string) (sender content : string)
    (is_encrypted : bool) (s : Store) (row : Message) :
  answer env (messages_insert team mission sender content is_encrypted)
    (run_messages_insert env team mission sender content is_encrypted) s = inr row ->
  let s' := store_after env (messages_insert team mission sender content is_encrypted)
              (run_messages_insert env team mission sender content is_encrypted) s in
  row = {| msg_id := gen_random_uuid env (uuids s); msg_team_id := team;
           msg_mission_id := mission; msg_sender_id := sender; msg_content := content;
           msg_is_encrypted := is_encrypted |} /\
  messages s' = messages s ++ [row] /\ notifications s' = notifications s /\
  team_members s' = team_members s.
Proof.
  unfold answer, store_after. destruct (fails env _); [done|].
  unfold run_messages_insert, next_uuid. simpl.
  case_bool_decide; simpl; [done|]. by intros [= <-].
Qed.

Lemma notifications_insert_ok (user type title : string) (content : option string)
    (s : Store) (row : Notification) :
  answer env (notifications_insert user type title content)
    (run_notifications_insert env user type title content) s = inr row ->
  let s' := store_after env (notifications_insert user type title content)
              (run_notifications_insert env user type title content) s in
  n_user_id row = user /\ n_type row = type /\
  notifications s' = notifications s ++ [row] /\ messages s' = messages s /\
  team_members s' = team_members s.
Proof.
  unfold answer, store_after. destruct (fails env _); [done|].
  unfold run_notifications_insert, next_uuid. simpl.
  destruct (valid_type type); simpl; [|done].
  case_bool_decide; simpl; [done|]. by intros [= <-].
Qed.

(** The loop over [otherMembers], when it ends without throwing: one
    notification per member, in order. *)
Lemma notify_loop (l : list (TeamMember * UserDetails)) (content : option string)
    (w w' : World) :
  for_of l (fun member =>
    _ ← createNotification env (tm_user_id member.1) "message" "New Message" content;
    mret ()) w = (inr (), w') ->
  exists news,
    notifications (store w') = notifications (store w) ++ news /\
    map n_user_id news = map tm_user_id (l.*1) /\
    Forall (fun n => n_type n = "message") news /\
    messages (store w') = messages (store w) /\
    extends is_query w w'.
Proof.
  revert w. induction l as [|member l IH]; intros w; cbn [for_of].
  - rewrite ret_eq. intros [= <-]. exists []. rewrite app_nil_r.
    split_and!; [done..|reflexivity].
  - intros ([] & w1 & Hstep & Hrest)%bind_inv.
    apply bind_inv in Hstep as (row & w0 & Hcreate & Hret).
    rewrite ret_eq in Hret. injection Hret as ->.
    unfold createNotification in Hcreate.
    apply bind_inv in Hcreate as (r & w2 & Hq & Hr).
    rewrite await_query_eq in Hq. injection Hq as <- <-.
    destruct (answer env _ _ _) as [e|row'] eqn:Ha; [done|].
    rewrite ret_eq in Hr. injection Hr as -> <-.
    destruct (notifications_insert_ok _ _ _ _ _ _ Ha) as (Hu & Hty & Hn & Hm & _).
    destruct (IH _ Hrest) as (news & Hn' & Hus & Hts & Hm' & Hlog).
    exists (row :: news). cbn [store add_event set_store] in *.
    split_and!.
    + by rewrite Hn', Hn, <- app_assoc.
    + simpl. by rewrite Hu, Hus.
    + by constructor.
    + by rewrite Hm', Hm.
    + etrans; [|exact Hlog]. eexists [_]. split; [done|]. by constructor.
Qed.

Lemma messages_insert_failed (team : string) (mission : option string)
    (sender content e : string) (is_encrypted : bool) (s : Store) :
  answer env (messages_insert team mission sender content is_encrypted)
    (run_messages_insert env team mission sender content is_encrypted) s = inl e ->
  messages (store_after env (messages_insert team mission sender content is_encrypted)
              (run_messages_insert env team mission sender content is_encrypted) s)
  = messages s.
Proof.
  unfold answer, store_after. destruct (fails env _); [done|].
  unfold run_messages_insert, next_uuid. simpl. by case_bool_decide.
Qed.

Definition stored_messages (w : World) : list Message := messages (store w).

Lemma same_messages_await_query {A} (c : Call) (run : Store -> Answer A * Store) :
  (forall s, messages (run s).2 = messages s) ->
  preserves (same stored_messages) (await_query env c run).
Proof.
  intros Hr w. rewrite await_query_eq. unfold same, stored_messages, store_after; simpl.
  destruct (fails env c); [done|apply Hr].
Qed.

Lemma notifications_insert_messages (user type title : string) (content : option string)
    (s : Store) :
  messages (run_notifications_insert env user type title content s).2 = messages s.
Proof.
  unfold run_notifications_insert, next_uuid. simpl.
  destruct (valid_type type); simpl; [|done]. by case_bool_decide.
Qed.

Lemma try_catch_ret_world {A} (body : M A) (f : JsError -> A) (w : World) :
  (try_catch body (fun e => mret (f e)) w).2 = (body w).2.
Proof. unfold try_catch. by destruct (body w) as [[e|a] w']. Qed.

(** Whatever [sendMessage] answers, and also when it throws midway: when
    the caller is a member of the team and the insert of the message is
    answered with a row, the table of messages has one more row, the one
    built from the processed content; otherwise it is as before. *)
Lemma sendMessage_messages (user : AuthUser) (body : SendMessageRequest) (ws : bool)
    (w : World) :
  let r := sendMessage cipher K env (Some user) body ws w in
  let encrypted := default true (is_encrypted body) in
  let envelope := (encryptE2E cipher K (content body) (rng w)).1 in
  let processed := if encrypted then Json.stringify envelope else content body in
  let mission := truthy (mission_id body) in
  messages (store r.2)
  = if is_ok (member_answer env (id user) (team_id body) (store w)) &&
       is_ok (answer env
                (messages_insert (team_id body) mission (id user) processed encrypted)
                (run_messages_insert env (team_id body) mission (id user) processed
                   encrypted)
                (store w))
    then messages (store w) ++
         [ {| msg_id := gen_random_uuid env (uuids (store w));
              msg_team_id := team_id body;
              msg_mission_id := mission;
              msg_sender_id := id user;
              msg_content := processed;
              msg_is_encrypted := encrypted |} ]
    else messages (store w).
Proof.
  cbv zeta. unfold sendMessage. rewrite try_catch_ret_world.
  rewrite bind_eq, isTeamMember_eq.
  destruct (is_ok (member_answer env _ _ _)); cbn [negb andb]; [|done].
  rewrite bind_eq.
  set (enc := default true (is_encrypted body)).
  set (w1 := add_event _ w).
  assert (exists w2,
    (if enc then
       encrypted ← with_rng (encryptE2E cipher K (content body));
       mret (Json.stringify encrypted, Some encrypted)
     else mret (content body, None)) w1
    = (inr (if enc then Json.stringify (encryptE2E cipher K (content body) (rng w)).1
            else content body,
            if enc then Some (encryptE2E cipher K (content body) (rng w)).1 else None), w2)
    /\ store w2 = store w) as (w2 & -> & Hs2).
  { destruct enc; [|by exists w1]. rewrite bind_eq. unfold with_rng. rewrite ret_eq.
    by eexists. }
  rewrite bind_eq, await_query_eq, Hs2.
  destruct (answer env _ _ (store w)) as [e|row] eqn:Hrow; cbn [is_ok].
  - rewrite ret_eq. cbn [snd store add_event set_store].
    by apply messages_insert_failed in Hrow.
  - destruct (messages_insert_ok _ _ _ _ _ _ _ Hrow) as (<- & <- & _).
    match goal with
    | |- messages (store (mbind ?k ?m ?w3).2) = _ =>
        assert (preserves (same stored_messages) (mbind k m)) as Htail;
        [|exact (Htail w3)]
    end.
    preserve;
      first [ apply same_messages_await_query; intros s; first
                [ reflexivity | apply notifications_insert_messages ]
            | apply same_emit; reflexivity ].
Qed.

(** What a 201 of [sendMessage] implies: the row it stored, the
    notifications it created, the response it sent and what it emitted. *)
Lemma sendMessage_sent (user : AuthUser) (body : SendMessageRequest) (ws : bool)
    (w w' : World) (response : Response) :
  sendMessage cipher K env (Some user) body ws w = (inr response, w') ->
  status response = 201 ->
  let encrypted := default true (is_encrypted body) in
  let envelope := (encryptE2E cipher K (content body) (rng w)).1 in
  exists row sender news queries,
    is_ok (member_answer env (id user) (team_id body) (store w)) = true /\
    row = {| msg_id := gen_random_uuid env (uuids (store w));
             msg_team_id := team_id body;
             msg_mission_id := truthy (mission_id body);
             msg_sender_id := id user;
             msg_content := if encrypted then Json.stringify envelope else content body;
             msg_is_encrypted := encrypted |} /\
    messages (store w') = messages (store w) ++ [row] /\
    notifications (store w') = notifications (store w) ++ news /\
    map n_user_id news
    = map tm_user_id
        (filter (fun m => tm_user_id m ≠ id user)
           (filter (fun m => tm_team_id m = team_id body) (team_members (store w)))) /\
    Forall (fun n => n_type n = "message") news /\
    data response
    = sent_message {| Runtime.message := row; sender := sender |}
        (if encrypted then truthy (EncryptionService.encryptionKey envelope) else None) /\
    log w' = log w ++ queries ++
             (if ws then [io_to_emit (WebSocketService.team_room (team_id body)) "message:new"
                            (new_message {| Runtime.message := row; sender := sender |}
                               (team_id body))]
              else []) /\
    Forall is_query queries.
Proof.
  intros Hrun H201. cbv zeta. unfold sendMessage, try_catch in Hrun.
  match type of Hrun with (match ?b with _ => _ end) = _ => destruct b as [[e|r] w0] eqn:Hbody end.
  { rewrite ret_eq in Hrun. injection Hrun as <- <-. done. }
  injection Hrun as -> ->.
  apply bind_inv in Hbody as (isMember & w1 & Hmember & Hbody).
  rewrite isTeamMember_eq in Hmember. injection Hmember as <- <-.
  destruct (is_ok (member_answer env _ _ _)) eqn:Hm; cbn [negb] in Hbody;
    [|rewrite ret_eq in Hbody; injection Hbody as <- <-; done].
  apply bind_inv in Hbody as ([processedContent encryptionData] & w2 & Henc & Hbody).
  apply bind_inv in Hbody as (r & w3 & Hinsert & Hbody).
  rewrite await_query_eq in Hinsert. injection Hinsert as <- <-.
  destruct (answer env _ _ (store w2)) as [e|row] eqn:Hrow;
    [rewrite ret_eq in Hbody; injection Hbody as <- <-; done|].
  apply bind_inv in Hbody as (sender & w4 & Hsender & Hbody).
  apply bind_inv in Hbody as (teamMembers & w5 & Hteam & Hbody).
  apply bind_inv in Hbody as ([] & w6 & Hloop & Hbody).
  apply bind_inv in Hbody as ([] & w7 & Hcast & Hbody).
  rewrite ret_eq in Hbody. injection Hbody as <- <-.
  (* the encryption step *)
  assert (processedContent
          = (if default true (is_encrypted body)
             then Json.stringify (encryptE2E cipher K (content body) (rng w)).1
             else content body) /\
          encryptionData
          = (if default true (is_encrypted body)
             then Some (encryptE2E cipher K (content body) (rng w)).1 else None) /\
          store w2 = store w /\
          log w2 = log w ++ [query (team_members_select_single (id user) (team_id body)) true])
    as (-> & -> & Hs2 & Hl2).
  { destruct (default true (is_encrypted body)).
    - apply bind_inv in Henc as (encrypted & w1 & Hrng & Hret).
      unfold with_rng in Hrng. injection Hrng as <- <-.
      rewrite ret_eq in Hret. by injection Hret as <- <- <-.
    - rewrite ret_eq in Henc. by injection Henc as <- <- <-. }
  (* the insert *)
  rewrite Hs2 in Hrow.
  destruct (messages_insert_ok _ _ _ _ _ _ _ Hrow) as (Hrow_eq & Hmsg3 & Hnot3 & Hteam3).
  rewrite Hs2 in Hsender.
  (* the reads *)
  match type of Hsender with
  | getUserById _ _ ?w3 = _ =>
      pose proof (getUserById_same_store env (id user) w3) as Hs4;
      pose proof (getUserById_extends env is_query (id user) (fun _ _ => I) w3)
        as (e1 & Hl4 & He1)
  end.
  rewrite Hsender in Hs4, Hl4. unfold same in Hs4. cbn [snd store add_event set_store log] in Hs4, Hl4.
  pose proof (getTeamMembers_same_store env (team_id body) w4) as Hs5.
  pose proof (getTeamMembers_extends env is_query (team_id body) (fun _ _ => I) w4)
    as (e2 & Hl5 & He2).
  rewrite Hteam in Hs5, Hl5. unfold same in Hs5. cbn [snd] in Hs5, Hl5.
  pose proof (getTeamMembers_rows env _ _ _ _ Hteam) as Hrows.
  (* the notifications *)
  destruct (notify_loop _ _ _ _ Hloop) as (news & Hnot6 & Husers & Htypes & Hmsg6 & e3 & Hl6 & He3).
  (* the broadcast *)
  assert (store w7 = store w6 /\
          log w7 = log w6 ++
                   (if ws then [io_to_emit (WebSocketService.team_room (team_id body))
                                  "message:new"
                                  (new_message {| Runtime.message := row; sender := sender |}
                                     (team_id body))]
                    else [])) as [Hs7 Hl7].
  { destruct ws.
    - unfold WebSocketService.broadcastNewMessage in Hcast. rewrite emit_eq in Hcast.
      by injection Hcast as <-.
    - rewrite ret_eq in Hcast. injection Hcast as <-. by rewrite app_nil_r. }
  exists row, sender, news,
    ([query (team_members_select_single (id user) (team_id body)) true;
      query (messages_insert (team_id body) (truthy (mission_id body)) (id user)
               (if default true (is_encrypted body)
                then Json.stringify (encryptE2E cipher K (content body) (rng w)).1
                else content body) (default true (is_encrypted body))) true]
     ++ e1 ++ e2 ++ e3).
  split_and!.
  - done.
  - exact Hrow_eq.
  - by rewrite Hs7, Hmsg6, Hs5, Hs4.
  - by rewrite Hs7, Hnot6, Hs5, Hs4, Hnot3.
  - rewrite Husers. f_equal. rewrite Hs4 in Hrows. cbn [store set_store] in Hrows.
    rewrite Hteam3 in Hrows. rewrite <- Hrows.
    exact (filter_fst (fun m : TeamMember => tm_user_id m ≠ id user) teamMembers).
  - exact Htypes.
  - cbn [data]. f_equal. by destruct (default true (is_encrypted body)).
  - rewrite Hl7, Hl6, Hl5, Hl4, Hl2. by rewrite <- !app_assoc.
  - repeat (apply Forall_app; split); [by repeat constructor|done..].
Qed.

Lemma sent_201 (r : (JsError + Response) * World) :
  sent_status r.1 = Some 201 ->
  exists response, r = (inr response, r.2) /\ status response = 201.
Proof. destruct r as [[e|response] w']; simpl; [done|]. intros [= H]. eauto. Qed.

(** C9 (amended): for a request with [is_encrypted] true (or left out),
    the text [sendMessage] hands to the store is the JSON text of the
    envelope whose [content] and [tag] are the hex of the ciphertext and of
    the tag the cipher gives for the submitted content under a key drawn
    for this message, and whose [encryptionKey] is the hex of that key; the
    text parses back to that envelope, and it is not the submitted content.
    Whatever the outcome, a row of [messages] that was not there before has
    [is_encrypted] true and that text as content; when the caller is a
    member of the team and the insert is answered with a row, exactly one
    such row is added, and it stays whatever happens afterwards.  When the
    request is answered 201, one notification of type [message] was created
    for every row of the team's roster whose user is not the sender, in
    roster order. *)
Theorem sendMessage_stores_envelope (user : AuthUser) (body : SendMessageRequest) (ws : bool)
    (w : World) :
  default true (is_encrypted body) = true ->
  let r := sendMessage cipher K env (Some user) body ws w in
  let key := (Crypto.randomBytes EncryptionService.KEY_LENGTH (rng w)).1 in
  let ivBytes :=
    (Crypto.randomBytes EncryptionService.IV_LENGTH
       (Crypto.randomBytes EncryptionService.KEY_LENGTH (rng w)).2).1 in
  let sealed :=
    Crypto.seal cipher key EncryptionService.AAD (Hex.Buffer_from_utf8 (content body)) in
  let envelope :=
    {| EncryptionService.content := Some (Hex.Buffer_toString_hex sealed.1);
       EncryptionService.encryptionKey := Some (Hex.Buffer_toString_hex key);
       EncryptionService.iv := Some (Hex.Buffer_toString_hex ivBytes);
       EncryptionService.tag := Some (Hex.Buffer_toString_hex sealed.2) |} in
  let stored := Json.stringify envelope in
  let insert :=
    messages_insert (team_id body) (truthy (mission_id body)) (id user) stored true in
  Json.parse stored = Some envelope /\
  stored ≠ content body /\
  (forall row, row ∈ messages (store r.2) ->
     row ∈ messages (store w) \/
     (msg_is_encrypted row = true /\ msg_content row = stored /\
      msg_sender_id row = id user /\ msg_team_id row = team_id body)) /\
  (is_ok (member_answer env (id user) (team_id body) (store w)) = true ->
   is_ok (answer env insert
            (run_messages_insert env (team_id body) (truthy (mission_id body)) (id user)
               stored true)
            (store w)) = true ->
   exists row,
     messages (store r.2) = messages (store w) ++ [row] /\
     msg_is_encrypted row = true /\ msg_content row = stored) /\
  (sent_status r.1 = Some 201 ->
   exists row news,
     messages (store r.2) = messages (store w) ++ [row] /\
     msg_is_encrypted row = true /\ msg_content row = stored /\
     notifications (store r.2) = notifications (store w) ++ news /\
     map n_user_id news
     = map tm_user_id
         (filter (fun m => tm_user_id m ≠ id user)
            (filter (fun m => tm_team_id m = team_id body) (team_members (store w)))) /\
     Forall (fun n => n_type n = "message") news).
Proof.
  intros Henc. cbv zeta.
  pose proof (EncryptionFacts.encryptE2E_envelope cipher K (content body) (rng w)) as Henv.
  cbv zeta in Henv.
  pose proof (sendMessage_messages user body ws w) as Hmsg. cbv zeta in Hmsg.
  rewrite Henc, Henv in Hmsg.
  split_and!.
  - apply JsonFacts.parse_stringify; apply JsonFacts.plain_hex.
  - intros Heq.
    match type of Heq with
    | Json.stringify {| EncryptionService.content := Some ?c;
                        EncryptionService.encryptionKey := Some ?k;
                        EncryptionService.iv := Some ?i;
                        EncryptionService.tag := Some ?t |} = _ =>
        pose proof (JsonFacts.length_stringify c k i t) as Hlen
    end.
    rewrite Heq, HexFacts.length_toString_hex, Crypto.seal_length in Hlen.
    rewrite HexFacts.length_from_utf8 in Hlen. lia.
  - intros row. rewrite Hmsg.
    destruct (_ && _); [|by left].
    intros [Hin | ->%list_elem_of_singleton]%elem_of_app; [by left|by right].
  - intros Hmember Hinsert. rewrite Hmsg, Hmember, Hinsert. cbn [andb]. by eexists.
  - intros (response & Hrun & H201)%sent_201.
    destruct (sendMessage_sent _ _ _ _ _ _ Hrun H201)
      as (row & sender & news & queries & _ & Hrow & Hrows & Hnot & Husers & Htypes & _).
    rewrite Henc, Henv in Hrow. exists row, news. rewrite Hrow at 2 3.
    cbn [msg_is_encrypted msg_content]. done.
Qed.

(** C1 (amended): when [sendMessage] answers 201 to an encrypted request,
    with the realtime service in place, the generated key is the
    [encryptionKey] of the response data, and the last thing emitted is the
    [message:new] broadcast to the team room, which has no key field of its
    own but carries the same message object as the response: its [content]
    is the JSON text of the envelope, which contains the key and parses
    back to an envelope whose [encryptionKey] is the key. *)
Theorem sendMessage_key_in_response_and_content (user : AuthUser) (body : SendMessageRequest)
    (w : World) :
  let r := sendMessage cipher K env (Some user) body true w in
  sent_status r.1 = Some 201 ->
  default true (is_encrypted body) = true ->
  exists message queries,
    let key := Hex.Buffer_toString_hex
                 (Crypto.randomBytes EncryptionService.KEY_LENGTH (rng w)).1 in
    sent_data r.1 = Some (sent_message message (Some key)) /\
    log r.2 = log w ++ queries ++
              [io_to_emit (WebSocketService.team_room (team_id body)) "message:new"
                 (new_message message (team_id body))] /\
    Forall is_query queries /\
    Json.includes key (msg_content (Runtime.message message)) = true /\
    EncryptionService.encryptionKey <$> Json.parse (msg_content (Runtime.message message))
    = Some (Some key).
Proof.
  cbv zeta. intros (response & Hrun & H201)%sent_201 Henc.
  destruct (sendMessage_sent _ _ _ _ _ _ Hrun H201)
    as (row & sender & news & queries & _ & Hrow & _ & _ & _ & _ & Hdata & Hlog & Hq).
  rewrite Henc in Hrow, Hdata.
  destruct (EncryptionFacts.encryptE2E_shape cipher K (content body) (rng w))
    as (c & i & t & Hshape & _).
  rewrite Hshape in Hrow, Hdata. cbn [EncryptionService.encryptionKey] in Hdata.
  exists {| Runtime.message := row; sender := sender |}, queries.
  rewrite Hrun. cbn [fst snd sent_data Runtime.message]. rewrite Hdata, Hlog, Hrow.
  cbn [msg_content]. split_and!; [done..| |].
  - apply JsonFacts.includes_stringify_key, JsonFacts.plain_hex.
  - rewrite JsonFacts.parse_stringify by apply JsonFacts.plain_hex. done.
Qed.


End Facts.

(** Alice asks team [t-1] for its status, encrypted. *)
Definition status_request : SendMessageRequest :=
  {| team_id := "t-1"; mission_id := None; content := "status?";
     is_encrypted := Some true |}.

Definition sample_send : (JsError + Response) * World :=
  sendMessage CryptoFacts.Xor.cipher EncryptionFacts.sample_key Sample.env0
    (Some Sample.alice_auth) status_request true Sample.world0.

(** The [encryptionKey] of the response data. *)
Definition response_key (r : JsError + Response) : option string :=
  match sent_data r with
  | Some (sent_message _ key) => key
  | _ => None
  end.

(** The [content] of the message of every [new_message] payload emitted to
    a room. *)
Definition broadcast_contents (l : list Event) : list string :=
  omap (fun e => match e with
                 | io_to_emit _ _ (new_message m _) => Some (msg_content (Runtime.message m))
                 | _ => None
                 end) l.

(** C1, as stated, fails: in the sample deployment the one [message:new]
    broadcast carries, in the content of its message, the key that the
    sender's response names. *)
Lemma sendMessage_broadcasts_key :
  let key := "070a0d101316191c1f2225282b2e3134373a3d404346494c4f5255585b5e6164" in
  sent_status sample_send.1 = Some 201 /\
  response_key sample_send.1 = Some key /\
  length (broadcast_contents (log sample_send.2)) = 1 /\
  forallb (Json.includes key) (broadcast_contents (log sample_send.2)) = true.
Proof. vm_compute. done. Qed.

(** C1 (amended) in the sample deployment. *)
Lemma sendMessage_key_in_response_and_content_sample :
  let r := sample_send in
  sent_status r.1 = Some 201 /\
  default true (is_encrypted status_request) = true /\
  exists message queries,
    let key := Hex.Buffer_toString_hex
                 (Crypto.randomBytes EncryptionService.KEY_LENGTH (rng Sample.world0)).1 in
    sent_data r.1 = Some (sent_message message (Some key)) /\
    log r.2 = log Sample.world0 ++ queries ++
              [io_to_emit (WebSocketService.team_room (team_id status_request)) "message:new"
                 (new_message message (team_id status_request))] /\
    Forall is_query queries /\
    Json.includes key (msg_content (Runtime.message message)) = true /\
    EncryptionService.encryptionKey <$> Json.parse (msg_content (Runtime.message message))
    = Some (Some key).
Proof.
  cbv zeta. split; [vm_compute; reflexivity|]. split; [reflexivity|].
  apply (sendMessage_key_in_response_and_content CryptoFacts.Xor.cipher
           EncryptionFacts.sample_key Sample.env0 Sample.alice_auth status_request
           Sample.world0); [vm_compute; reflexivity|reflexivity].
Defined.

(** C9, as stated, fails: alice, a member of [t-1], sends an encrypted
    message and the store answers the insert of bob's notification with an
    error.  The request is answered 500, the encrypted row is persisted,
    and bob, the other member of the team, has no notification. *)
Lemma sendMessage_row_without_notification :
  let env := Sample.failing
               (notifications_insert "u-bob" "message" "New Message"
                  (Some "New message from Alice in team chat")) in
  let r := sendMessage CryptoFacts.Xor.cipher EncryptionFacts.sample_key env
             (Some Sample.alice_auth) status_request true Sample.world0 in
  is_encrypted status_request = Some true /\
  map tm_user_id (filter (fun m => tm_team_id m = "t-1") (team_members Sample.store0))
  = ["u-alice"; "u-bob"] /\
  sent_status r.1 = Some 500 /\
  map (fun m => (msg_sender_id m, msg_is_encrypted m)) (messages (store r.2))
  = [("u-alice", true)] /\
  notifications (store r.2) = [].
Proof. vm_compute. done. Qed.

(** C9 (amended) in the sample deployment: the answer is 201, and bob, the
    other member of [t-1], gets the notification. *)
Lemma sendMessage_stores_envelope_sample :
  let r := sample_send in
  let stored :=
    Json.stringify (encryptE2E CryptoFacts.Xor.cipher EncryptionFacts.sample_key
                      (content status_request) (rng Sample.world0)).1 in
  default true (is_encrypted status_request) = true /\
  sent_status r.1 = Some 201 /\
  stored ≠ "status?" /\
  exists row news,
    messages (store r.2) = messages (store Sample.world0) ++ [row] /\
    msg_is_encrypted row = true /\ msg_content row = stored /\
    notifications (store r.2) = notifications (store Sample.world0) ++ news /\
    map n_user_id news = ["u-bob"] /\
    Forall (fun n => n_type n = "message") news.
Proof.
  cbv zeta. split; [reflexivity|]. split; [vm_compute; reflexivity|].
  destruct (sendMessage_stores_envelope CryptoFacts.Xor.cipher EncryptionFacts.sample_key
              Sample.env0 Sample.alice_auth status_request true Sample.world0 eq_refl)
    as (_ & Hne & _ & _ & Hsent).
  rewrite (EncryptionFacts.encryptE2E_envelope CryptoFacts.Xor.cipher
             EncryptionFacts.sample_key (content status_request) (rng Sample.world0)).
  split; [exact Hne|]. apply Hsent. vm_compute. reflexivity.
Defined.


End MessageFacts.

(** ** [EncryptionService]: tokens, signatures and storage *)

Module EncryptionUtilitiesFacts.
Import Hex HexFacts Crypto CryptoFacts EncryptionService EncryptionFacts.
Import EncryptionUtilities JsonFacts.

Lemma well_formed_toString_hex (buf : list byte) :
  well_formed_hex (Buffer_toString_hex buf) = true.
Proof.
  induction buf as [|b buf IH]; [done|].
  cbn [Buffer_toString_hex byte_to_hex well_formed_hex]. rewrite IH.
  by destruct b.
Qed.

Lemma randomBytes_rest (n : nat) (g : Rng) (i : nat) : (randomBytes n g).2 i = g (n + i).
Proof. reflexivity. Qed.

(** X1: [generateToken(length)] returns two hex digits per byte asked for, 64
    characters when the argument is left out; the text decodes to the
    bytes drawn, and the next token is drawn from the bytes after them. *)
Theorem generateToken_hex (length : option nat) (g : Rng) :
  let n := default 32 length in
  let token := (generateToken length g).1 in
  String.length token = 2 * n /\
  well_formed_hex token = true /\
  Buffer_from_hex token = map g (seq 0 n) /\
  forall length', Buffer_from_hex (generateToken length' (generateToken length g).2).1
                  = map g (seq n (default 32 length')).
Proof.
  cbv zeta. unfold generateToken, randomBytes. cbn [fst snd].
  split_and!.
  - by rewrite length_toString_hex, length_map, length_seq.
  - apply well_formed_toString_hex.
  - apply Buffer_from_hex_toString.
  - intros length'. rewrite Buffer_from_hex_toString.
    replace (seq (default 32 length) (default 32 length'))
      with ((fun i => default 32 length + i) <$> seq 0 (default 32 length'))
      by (rewrite fmap_add_seq; f_equal; lia).
    by rewrite <- list_fmap_compose.
Qed.

Lemma timingSafeEqual_refl (a : list byte) : timingSafeEqual a a = inr true.
Proof.
  unfold timingSafeEqual. by rewrite Nat.eqb_refl, bool_decide_eq_true_2.
Qed.

Section Signing.

Variable hmac_sha256 : list byte -> list byte -> list byte.

(** X2: A signature made by [signMessage] verifies under the same message and
    secret, and still does with text after its last hex pair: it is the
    bytes the hex decoder reads that are compared. *)
Theorem verifySignature_signMessage (message secret : string) :
  let signature := signMessage hmac_sha256 message secret in
  verifySignature hmac_sha256 message signature secret = inr true /\
  verifySignature hmac_sha256 message (signature +:+ "zz") secret = inr true.
Proof.
  cbv zeta. unfold verifySignature, signMessage.
  rewrite from_hex_trailing, !Buffer_from_hex_toString.
  split; apply timingSafeEqual_refl.
Qed.

(** SHA-256 digests are 32 bytes long. *)
Hypothesis digest_length : forall key data, length (hmac_sha256 key data) = 32.

(** X3: A signature of fewer than 64 characters, the empty one included, makes
    [verifySignature] throw the [RangeError] of [timingSafeEqual]; it does
    not return [false]. *)
Theorem verifySignature_short_throws (message signature secret : string) :
  String.length signature < 64 ->
  verifySignature hmac_sha256 message signature secret
  = inl ERR_CRYPTO_TIMING_SAFE_EQUAL_LENGTH.
Proof.
  intros Hshort. unfold verifySignature, signMessage, timingSafeEqual.
  rewrite Buffer_from_hex_toString, digest_length.
  pose proof (length_from_hex signature) as Hl.
  destruct (Nat.eqb_spec (length (Buffer_from_hex signature)) 32) as [E|E]; [lia|done].
Qed.

(** When it returns, [verifySignature] says whether the bytes decoded from
    the signature are the digest; it returns exactly when they are 32. *)
Lemma verifySignature_returns (message signature secret : string) (b : bool) :
  verifySignature hmac_sha256 message signature secret = inr b <->
  length (Buffer_from_hex signature) = 32 /\
  b = bool_decide (Buffer_from_hex signature
                   = hmac_sha256 (Buffer_from_utf8 secret) (Buffer_from_utf8 message)).
Proof.
  unfold verifySignature, signMessage, timingSafeEqual.
  rewrite Buffer_from_hex_toString, digest_length.
  destruct (Nat.eqb_spec (length (Buffer_from_hex signature)) 32) as [E|E].
  - split; [by intros [= <-]|by intros [_ ->]].
  - split; [done|by intros [? _]].
Qed.

End Signing.

(** A stand-in for HMAC-SHA256 on which the embedding runs: 32 bytes that
    depend on the key and the data. *)
Definition toy_hmac (key data : list byte) : list byte :=
  map (fun i => Xor.bxor (Xor.fold_xor key) (Xor.bxor (Xor.fold_xor data)
                  (default Byte.x00 (Byte.of_nat i)))) (seq 0 32).

Lemma toy_hmac_length (key data : list byte) : length (toy_hmac key data) = 32.
Proof. unfold toy_hmac. by rewrite length_map, length_seq. Qed.

Lemma verifySignature_short_throws_sample :
  verifySignature toy_hmac "status: safe" "" "s3cret" = inl ERR_CRYPTO_TIMING_SAFE_EQUAL_LENGTH /\
  verifySignature toy_hmac "status: safe" "00ff" "s3cret"
  = inl ERR_CRYPTO_TIMING_SAFE_EQUAL_LENGTH.
Proof.
  split.
  - apply (verifySignature_short_throws toy_hmac toy_hmac_length). simpl. lia.
  - apply (verifySignature_short_throws toy_hmac toy_hmac_length). simpl. lia.
Defined.

Section Storage.

Variable cipher : PasswordCipher.
Variable K : list byte.
Variable Value : Type.
Variable JSON_stringify : Value -> option string.
Variable JSON_parse : string -> option Value.

(** The envelope of [encrypt] under the default key. *)
Lemma encrypt_default_shape (plaintext : string) (g : Rng) :
  exists c i t,
    (encrypt cipher K plaintext None g).1
    = {| content := Some (Buffer_toString_hex c);
         encryptionKey := Some (Buffer_toString_hex K);
         iv := Some (Buffer_toString_hex i);
         tag := Some (Buffer_toString_hex t) |} /\
    seal cipher K AAD (Buffer_from_utf8 plaintext) = (c, t).
Proof.
  unfold encrypt. cbn [truthy].
  destruct (randomBytes IV_LENGTH _) as [i g'].
  destruct (seal _ _ _ _) as [c t]. by exists c, i, t.
Qed.

Lemma encryptForStorage_parse (data : Value) (jsonString : string) (g : Rng) :
  JSON_stringify data = Some jsonString ->
  exists c i t,
    let m := {| content := Some (Buffer_toString_hex c);
                encryptionKey := Some (Buffer_toString_hex K);
                iv := Some (Buffer_toString_hex i);
                tag := Some (Buffer_toString_hex t) |} in
    (encryptForStorage cipher K Value JSON_stringify data g).1 = inr (Json.stringify m) /\
    Json.parse (Json.stringify m) = Some m /\
    decrypt cipher m = inr jsonString.
Proof.
  intros Hjson. unfold encryptForStorage. rewrite Hjson.
  pose proof (decrypt_encrypt cipher K jsonString None g) as Hdec.
  destruct (encrypt_default_shape jsonString g) as (c & i & t & Hshape & _).
  destruct (encrypt cipher K jsonString None g) as [m g'].
  cbn [fst] in *. subst m. exists c, i, t. split_and!; [done| |done].
  apply parse_stringify; apply plain_hex.
Qed.

(** X4: what [encryptForStorage] wrote, [decryptFromStorage] reads back: the
    result is [JSON.parse] of the [JSON.stringify] of the data. *)
Theorem decryptFromStorage_encryptForStorage (data data' : Value) (jsonString : string)
    (g : Rng) :
  JSON_stringify data = Some jsonString ->
  JSON_parse jsonString = Some data' ->
  exists blob,
    (encryptForStorage cipher K Value JSON_stringify data g).1 = inr blob /\
    decryptFromStorage cipher Value JSON_parse blob = Some (inr data').
Proof.
  intros Hjson Hparse.
  destruct (encryptForStorage_parse data jsonString g Hjson) as (c & i & t & Hblob & Hm & Hdec).
  eexists. split; [exact Hblob|].
  unfold decryptFromStorage. by rewrite Hm, Hdec, Hparse.
Qed.

(** X5: the text [encryptForStorage] returns holds the service's default key,
    in hex, as its [encryptionKey] member; [decrypt] needs nothing else to
    read the data back. *)
Theorem encryptForStorage_holds_key (data : Value) (jsonString : string) (g : Rng) :
  JSON_stringify data = Some jsonString ->
  exists blob m,
    (encryptForStorage cipher K Value JSON_stringify data g).1 = inr blob /\
    Json.includes (Buffer_toString_hex K) blob = true /\
    Json.parse blob = Some m /\
    Buffer_from (encryptionKey m) = inr K /\
    decrypt cipher m = inr jsonString.
Proof.
  intros Hjson.
  destruct (encryptForStorage_parse data jsonString g Hjson) as (c & i & t & Hblob & Hm & Hdec).
  eexists _, _. split_and!; [exact Hblob| |exact Hm| |exact Hdec].
  - apply includes_stringify_key, plain_hex.
  - cbn. by rewrite Buffer_from_hex_toString.
Qed.

End Storage.

(** Values that are strings, written and read as JSON string literals. *)
Definition stringify_string (s : string) : option string := Some (Json.quote s "").
Definition parse_literal (text : string) : option string :=
  match text with
  | String q rest =>
      if (N_of_ascii q =? 34)%N then
        match Json.parse_string rest with
        | Some (v, "") => Some v
        | _ => None
        end
      else None
  | "" => None
  end.

Lemma decryptFromStorage_encryptForStorage_sample :
  exists blob,
    (encryptForStorage Xor.cipher sample_key string stringify_string "grid 31U" sample_rng).1
    = inr blob /\
    decryptFromStorage Xor.cipher string parse_literal blob = Some (inr "grid 31U").
Proof.
  exact (decryptFromStorage_encryptForStorage Xor.cipher sample_key string stringify_string
           parse_literal "grid 31U" "grid 31U" _ sample_rng eq_refl eq_refl).
Defined.

Lemma encryptForStorage_holds_key_sample :
  exists blob m,
    (encryptForStorage Xor.cipher sample_key string stringify_string "grid 31U" sample_rng).1
    = inr blob /\
    Json.includes (Buffer_toString_hex sample_key) blob = true /\
    Json.parse blob = Some m /\
    Buffer_from (encryptionKey m) = inr sample_key /\
    decrypt Xor.cipher m = inr (Json.quote "grid 31U" "").
Proof.
  exact (encryptForStorage_holds_key Xor.cipher sample_key string stringify_string
           "grid 31U" _ sample_rng eq_refl).
Defined.

End EncryptionUtilitiesFacts.

(** ** Bearer tokens: the HTTP header and the socket handshake *)

Module TokenFacts.
Import EncryptionService JWTService SocketService JsonFacts.

(** [s.includes(c)] for one character. *)
Fixpoint has (c : ascii) (s : string) : bool :=
  match s with
  | "" => false
  | String c' s' => Ascii.eqb c' c || has c s'
  end.

(** [parts.join(sep)] *)
Fixpoint join (sep : ascii) (parts : list string) : string :=
  match parts with
  | [] => ""
  | [part] => part
  | part :: parts' => part +:+ String sep (join sep parts')
  end.

Lemma append_cons (c : ascii) (s rest : string) :
  String c s +:+ rest = String c (s +:+ rest).
Proof. reflexivity. Qed.

Lemma append_empty (rest : string) : "" +:+ rest = rest.
Proof. reflexivity. Qed.

(** [split] cuts at every separator and nowhere else. *)
Lemma split_join (sep : ascii) (s : string) :
  join sep (split sep s) = s /\
  Forall (fun part => has sep part = false) (split sep s) /\
  split sep s <> [].
Proof.
  induction s as [|c s (IHj & IHf & IHn)]; cbn [split].
  - split_and!; [done|by constructor|done].
  - destruct (Ascii.eqb_spec c sep) as [->|Hc].
    + split_and!; [|by constructor|done].
      destruct (split sep s) as [|part parts]; [done|].
      cbn [join]. cbn [join] in IHj. by rewrite IHj.
    + destruct (split sep s) as [|part parts]; [done|].
      apply Forall_cons in IHf as [Hpart Hparts].
      split_and!; [| |done].
      * destruct parts as [|part' parts]; cbn [join] in *; [by rewrite IHj|].
        by rewrite append_cons, IHj.
      * constructor; [|done]. cbn [has]. rewrite Hpart.
        by destruct (Ascii.eqb_spec c sep).
Qed.

Lemma split_part (sep : ascii) (part : string) :
  has sep part = false -> split sep part = [part].
Proof.
  induction part as [|c part IH]; [done|]. cbn [has split].
  intros [Hc Hp]%orb_false_iff. by rewrite Hc, IH.
Qed.

Lemma split_app (sep : ascii) (part rest : string) :
  has sep part = false ->
  split sep (part +:+ String sep rest) = part :: split sep rest.
Proof.
  induction part as [|c part IH].
  - intros _. rewrite append_empty. cbn [split]. by rewrite Ascii.eqb_refl.
  - cbn [has]. intros [Hc Hp]%orb_false_iff.
    rewrite append_cons. cbn [split]. by rewrite Hc, IH.
Qed.

Lemma extractTokenFromHeader_inv (authHeader token : string) :
  extractTokenFromHeader (Some authHeader) = inr token ->
  authHeader = "Bearer " +:+ token /\ has " " token = false.
Proof.
  unfold extractTokenFromHeader.
  destruct authHeader as [|c h]; [done|]. cbn [truthy].
  pose proof (split_join " " (String c h)) as (Hj & Hf & _).
  destruct (split " " (String c h)) as [|scheme [|token' [|? ?]]]; try done.
  case_bool_decide as Hs; [|done]. intros [= ->]. subst scheme.
  cbn [join] in Hj. split; [by rewrite <- Hj|].
  by apply Forall_cons in Hf as [_ [Ht _]%Forall_cons].
Qed.

Lemma extractTokenFromHeader_intro (token : string) :
  has " " token = false ->
  extractTokenFromHeader (Some ("Bearer " +:+ token)) = inr token.
Proof.
  intros Ht. unfold extractTokenFromHeader.
  change ("Bearer " +:+ token) with ("Bearer" +:+ String " " token).
  rewrite append_cons. cbn [truthy]. rewrite <- append_cons.
  rewrite split_app, split_part by done.
  by rewrite bool_decide_eq_true_2.
Qed.

(** X6: [extractTokenFromHeader] returns exactly on the headers made of
    the word Bearer, one space, and a token without a space; the token may
    be empty, as in the header that ends with the space. *)
Theorem extractTokenFromHeader_Bearer (authHeader token : string) :
  (extractTokenFromHeader (Some authHeader) = inr token <->
   authHeader = "Bearer " +:+ token /\ has " " token = false) /\
  extractTokenFromHeader (Some "Bearer ") = inr "".
Proof.
  split; [|reflexivity]. split.
  - apply extractTokenFromHeader_inv.
  - intros [-> Ht]. by apply extractTokenFromHeader_intro.
Qed.

(** The errors of [extractTokenFromHeader]: a missing or empty header, and
    any header that is not two space-separated parts of which the first is
    Bearer. *)
Lemma extractTokenFromHeader_throws (authHeader : option string) (e : JsError) :
  extractTokenFromHeader authHeader = inl e ->
  e = Error "Authorization header is required" /\ truthy authHeader = None \/
  e = Error "Invalid authorization header format" /\ is_Some (truthy authHeader).
Proof.
  unfold extractTokenFromHeader. destruct (truthy authHeader) as [h|]; [|intros [= <-]; by left].
  intros H. right. split; [|done].
  destruct (split " " h) as [|scheme [|token' [|? ?]]]; try by injection H.
  case_bool_decide; [done|by injection H].
Qed.


Lemma prefix_has (c : ascii) (p s : string) :
  String.prefix p s = true -> has c p = true -> has c s = true.
Proof.
  revert s. induction p as [|a p IH]; intros s; [done|].
  destruct s as [|b s]; [done|]. cbn [String.prefix has].
  destruct (ascii_dec a b) as [->|]; [|done].
  intros Hp [Hc|Hc]%orb_true_iff; apply orb_true_iff; [by left|right; by apply IH].
Qed.


(** A text without the pattern's characters has no occurrence to
    replace. *)
Lemma replace_absent (c : ascii) (p r s : string) :
  has c p = true -> has c s = false -> replace p r s = s.
Proof.
  intros Hp. induction s as [|b s IH]; intros Hs.
  - cbn [replace].
    destruct (String.prefix p "") eqn:E; [|done].
    by rewrite (prefix_has c p "" E Hp) in Hs.
  - cbn [replace].
    destruct (String.prefix p (String b s)) eqn:E.
    + by rewrite (prefix_has c p _ E Hp) in Hs.
    + cbn [has] in Hs. apply orb_false_iff in Hs as [_ Hs]. by rewrite IH.
Qed.


(** X8: the handshake takes more than the HTTP middleware does: a header that
    is the bare token, with no scheme, is handed to [verifyToken] by the
    handshake and refused by [extractTokenFromHeader]. *)
Theorem handshake_token_bare (token : string) :
  token <> "" -> has " " token = false ->
  handshake_token None (Some token) = inr token /\
  extractTokenFromHeader (Some token) = inl (Error "Invalid authorization header format").
Proof.
  intros Hne Hs. split.
  - unfold handshake_token. cbn [truthy fmap option_fmap option_map].
    rewrite (replace_absent " " "Bearer " "" token) by done. by destruct token.
  - unfold extractTokenFromHeader. destruct token as [|c t]; [done|]. cbn [truthy].
    by rewrite split_part.
Qed.


Lemma handshake_token_bare_sample :
  handshake_token None (Some "abc.def") = inr "abc.def" /\
  extractTokenFromHeader (Some "abc.def") = inl (Error "Invalid authorization header format").
Proof. apply (handshake_token_bare "abc.def"); [discriminate|reflexivity]. Defined.

End TokenFacts.

(** ** [WebSocketService]: rooms and the registry of connected users *)

Module SocketFacts.
Import Db Runtime DatabaseService WebSocketService SocketService MonadFacts DatabaseFacts.
Import WebSocketFacts.
Import EncryptionService(truthy).

Lemma team_room_inj (t1 t2 : string) : team_room t1 = team_room t2 -> t1 = t2.
Proof. unfold team_room. apply (inj (String.append "team:")). Qed.

Section Facts.

Variable env : Env.

(** The rooms a connection is put in when it opens: its own, and one per
    membership row of its user when the query for them is answered. *)
Definition rooms_on_connection (socket : Socket) (s : Store) : gset string :=
  {[socket_id socket]} ∪
  match answer env (team_members_select_by_user (user_id socket))
          (run_team_members_select_by_user (user_id socket)) s with
  | inr rows => list_to_set (map (fun m => team_room (tm_team_id m)) rows)
  | inl _ => ∅
  end.

Lemma connection_eq (socket : Socket) (w : World) :
  let w' := (connection env socket w).2 in
  (connection env socket w).1 = inr () /\
  connectedUsers w' = <[user_id socket := socket_id socket]> (connectedUsers w) /\
  sockets w' = <[socket_id socket := rooms_on_connection socket (store w)]> (sockets w) /\
  store w' = store w.
Proof.
  cbv zeta. unfold connection. rewrite bind_eq. unfold modify.
  unfold joinUserTeams, try_catch, getUserTeams, rooms_on_connection.
  rewrite !bind_eq, await_query_eq. cbn [store set_connectedUsers set_sockets add_event set_store].
  assert (store_after env (team_members_select_by_user (user_id socket))
            (run_team_members_select_by_user (user_id socket)) (store w) = store w) as ->.
  { unfold store_after. by destruct (fails env _). }
  destruct (answer env _ _ (store w)) as [e|rows].
  - cbn. split_and!; try done. by rewrite (right_id_L ∅ (∪)).
  - rewrite ret_eq, join_loop. cbn. split_and!; try done.
    by rewrite alter_insert_eq.
Qed.

Lemma updateUserOfflineStatus_same_sockets (userId : string) :
  preserves (same sockets) (updateUserOfflineStatus env userId).
Proof.
  unfold updateUserOfflineStatus, getUserTeams.
  preserve; first [ by apply same_await_query | by apply same_emit ].
Qed.

Lemma updateUserOfflineStatus_same_connectedUsers (userId : string) :
  preserves (same connectedUsers) (updateUserOfflineStatus env userId).
Proof.
  unfold updateUserOfflineStatus, getUserTeams.
  preserve; first [ by apply same_await_query | by apply same_emit ].
Qed.

Lemma on_disconnect_eq (socket : Socket) (w : World) :
  let w' := (on_disconnect env socket w).2 in
  connectedUsers w' = delete (user_id socket) (connectedUsers w) /\
  sockets w' = delete (socket_id socket) (sockets w).
Proof.
  cbv zeta. unfold on_disconnect. rewrite bind_eq. unfold modify.
  split.
  - apply (updateUserOfflineStatus_same_connectedUsers (user_id socket)).
  - apply (updateUserOfflineStatus_same_sockets (user_id socket)).
Qed.

(** X9: when a user has two connections, the registry names the newer one.
    The disconnect of the older one then removes the user's entry, while
    the newer connection is still open and in its rooms: the user counts as
    not connected, and [broadcastNotification] for them emits nothing. *)
Theorem disconnect_of_older_socket (old new : Socket) (notification : Payload) (w : World) :
  user_id new = user_id old -> socket_id new <> socket_id old ->
  let w1 := (connection env new w).2 in
  let w2 := (on_disconnect env old w1).2 in
  connectedUsers w1 !! user_id old = Some (socket_id new) /\
  sockets w2 !! socket_id new = Some (rooms_on_connection new (store w)) /\
  connectedUsers w2 !! user_id old = None /\
  isUserConnected (user_id old) w2 = (inr false, w2) /\
  broadcastNotification notification (user_id old) w2 = (inr (), w2).
Proof.
  cbv zeta. intros Huser Hsid.
  destruct (connection_eq new w) as (_ & Hcu1 & Hso1 & _).
  destruct (on_disconnect_eq old (connection env new w).2) as (Hcu2 & Hso2).
  set (w1 := (connection env new w).2) in *.
  set (w2 := (on_disconnect env old w1).2) in *.
  assert (connectedUsers w2 !! user_id old = None) as Hnone
    by (rewrite Hcu2; apply lookup_delete_eq).
  split_and!.
  - by rewrite Hcu1, <- Huser, lookup_insert_eq.
  - by rewrite Hso2, lookup_delete_ne, Hso1, lookup_insert_eq.
  - exact Hnone.
  - unfold isUserConnected, gets. rewrite Hnone.
    by rewrite bool_decide_eq_false_2 by (by intros [? ?]).
  - unfold broadcastNotification. rewrite bind_eq. unfold gets. by rewrite Hnone.
Qed.

(** X10: [leave_team] takes the connection out of the room of that team and of
    no other room, for members and others alike; it sends no query and
    emits nothing.  After a member's [join_team], it leaves the connection
    where it was if it was not in the room before. *)
Theorem leave_team_after_join (socket : Socket) (teamId : string) (rooms : gset string)
    (w : World) :
  is_ok (member_answer env (user_id socket) teamId (store w)) = true ->
  sockets w !! socket_id socket = Some rooms ->
  let w1 := (joinTeam env socket teamId (user_id socket) w).2 in
  let w2 := (on_leave_team socket teamId w1).2 in
  sockets w1 !! socket_id socket = Some (rooms ∪ {[team_room teamId]}) /\
  sockets w2 !! socket_id socket = Some (rooms ∖ {[team_room teamId]}) /\
  (forall sid, sid <> socket_id socket -> sockets w2 !! sid = sockets w !! sid) /\
  (forall other, other <> teamId ->
     team_room other ∈ rooms ∖ {[team_room teamId]} <-> team_room other ∈ rooms) /\
  log w2 = log w1 /\ store w2 = store w /\ connectedUsers w2 = connectedUsers w.
Proof.
  cbv zeta. intros Hmember Hrooms.
  unfold joinTeam, try_catch. rewrite bind_eq, isTeamMember_eq, Hmember. cbn [negb].
  unfold on_leave_team, socket_leave, socket_join, modify.
  cbn [fst snd sockets set_sockets add_event log store connectedUsers].
  split_and!.
  - by rewrite lookup_alter_eq, Hrooms.
  - rewrite !lookup_alter_eq, Hrooms. cbn. f_equal. set_solver.
  - intros sid Hsid. by rewrite !lookup_alter_ne.
  - intros other Hother.
    assert (team_room other <> team_room teamId) by (by intros ?%team_room_inj).
    set_solver.
  - done.
  - done.
  - done.
Qed.

End Facts.

(** Alice opens a second connection; the first one closes. *)
Lemma disconnect_of_older_socket_sample :
  let new := {| socket_id := "s-9"; user_id := "u-alice";
                user_email := "alice@example.org" |} in
  let w1 := (connection Sample.env0 new connected).2 in
  let w2 := (on_disconnect Sample.env0 alice_socket w1).2 in
  connectedUsers connected !! "u-alice" = Some "s-1" /\
  connectedUsers w1 !! "u-alice" = Some "s-9" /\
  sockets w2 !! "s-9" = Some (rooms_on_connection Sample.env0 new (store connected)) /\
  connectedUsers w2 !! "u-alice" = None /\
  broadcastNotification (new_notification "alert" "Team Invitation" "") "u-alice" w2
  = (inr (), w2).
Proof.
  cbv zeta.
  pose proof (disconnect_of_older_socket Sample.env0 alice_socket
    {| socket_id := "s-9"; user_id := "u-alice"; user_email := "alice@example.org" |}
    (new_notification "alert" "Team Invitation" "") connected eq_refl
    ltac:(discriminate)) as (H1 & H2 & H3 & _ & H5).
  split_and!; [by_deciding|exact H1|exact H2|exact H3|exact H5].
Defined.

(** Bob, in the room of [t-1] since he connected, joins it again and
    leaves it. *)
Lemma leave_team_after_join_sample :
  let w1 := (joinTeam Sample.env0 bob_socket "t-1" "u-bob" connected).2 in
  let w2 := (on_leave_team bob_socket "t-1" w1).2 in
  sockets w2 !! "s-2" = Some ({[ "s-2"; "team:t-1" ]} ∖ {[ "team:t-1" ]}) /\
  log w2 = log w1.
Proof.
  cbv zeta.
  pose proof (leave_team_after_join Sample.env0 bob_socket "t-1" {[ "s-2"; "team:t-1" ]}
                connected eq_refl ltac:(by_deciding)) as (_ & H2 & _ & _ & H5 & _).
  split; [exact H2|exact H5].
Defined.

End SocketFacts.

(** ** The team middleware *)

Module MiddlewareFacts.
Import Db Runtime DatabaseService Http AuthMiddleware MonadFacts DatabaseFacts.
Import EncryptionService(truthy).

Section Facts.

Variable env : Env.

(** X11: [requireTeamMember] never throws and leaves the store as it was.  It
    calls [next] only for a user whose membership row in the team the
    table holds; otherwise it has sent a 401, a 400 or a 403. *)
Theorem requireTeamMember_outcome (user : option AuthUser) (teamId : option string)
    (w : World) :
  let r := requireTeamMember env user teamId w in
  store r.2 = store w /\
  ((r.1 = inr next /\
    exists u team row,
      user = Some u /\ truthy teamId = Some team /\ row ∈ team_members (store w) /\
      tm_user_id row = id u /\ tm_team_id row = team) \/
   (exists response,
      r.1 = inr (sent response) /\ success response = false /\
      status response ∈ [401; 400; 403])).
Proof.
  cbv zeta. unfold requireTeamMember, try_catch.
  destruct user as [u|]; [|split; [done|right; eexists; split_and!; [done..|set_solver]]].
  destruct (truthy teamId) as [team|] eqn:Hteam;
    [|split; [done|right; eexists; split_and!; [done..|set_solver]]].
  rewrite bind_eq, isTeamMember_eq.
  destruct (member_answer env (id u) team (store w)) as [e|row] eqn:Hrow; cbn.
  - split; [done|right; eexists; split_and!; [done..|set_solver]].
  - split; [done|left]. split; [done|].
    destruct (member_answer_row _ _ _ _ _ Hrow) as (Hin & Hu & Ht & _).
    by exists u, team, row.
Qed.

(** X12: where [requireTeamLeader] calls [next], the table holds a row of the
    user in the team with role leader, the store is as it was, and
    [requireTeamMember] calls [next] as well. *)
Theorem requireTeamLeader_next (user : option AuthUser) (teamId : option string)
    (w w' : World) :
  requireTeamLeader env user teamId w = (inr next, w') ->
  store w' = store w /\
  (exists u team row,
     user = Some u /\ truthy teamId = Some team /\ row ∈ team_members (store w) /\
     tm_user_id row = id u /\ tm_team_id row = team /\ tm_role row = "leader") /\
  requireTeamMember env user teamId w = (inr next, w').
Proof.
  unfold requireTeamLeader, requireTeamMember, try_catch.
  destruct user as [u|]; [|by intros [=]].
  destruct (truthy teamId) as [team|] eqn:Hteam; [|by intros [=]].
  rewrite !bind_eq, isTeamLeader_eq, isTeamMember_eq.
  destruct (member_answer env (id u) team (store w)) as [e|row] eqn:Hrow; cbn; [by intros [=]|].
  case_bool_decide as Hrole; cbn; [|by intros [=]].
  intros [= <-]. split_and!; [done| |done].
  destruct (member_answer_row _ _ _ _ _ Hrow) as (Hin & Hu & Ht & _).
  by exists u, team, row.
Qed.

End Facts.

Section Authentication.

Variable env : Env.
Variable verifyToken : string -> JsError + string.

Lemma getUserById_user (userId : string) (w w' : World) (details : UserDetails) :
  getUserById env userId w = (inr details, w') ->
  exists u, u ∈ users (store w) /\ user_id u = userId /\
            Runtime.id details = userId /\ Runtime.email details = user_email u.
Proof.
  unfold getUserById. rewrite bind_eq, await_query_eq.
  destruct (answer env _ _ (store w)) as [e|u] eqn:Hu; [by intros [=]|].
  rewrite bind_eq, await_query_eq, ret_eq. intros [= <- _]. cbn.
  unfold answer in Hu. destruct (fails env _); [done|]. cbn in Hu.
  destruct (filter _ _) as [|u' l] eqn:E; [done|]. injection Hu as ->.
  assert (u ∈ filter (fun u => user_id u = userId) (users (store w))) as Hin
    by (rewrite E; set_solver).
  apply list_elem_of_filter in Hin as [Hid Hin]. by exists u.
Qed.

(** X13: [authenticateToken] calls [next] only when the header is the
    word Bearer, a space and a token that [verifyToken] accepts, and the
    user the token names exists; [req.user] then has the id of the token
    and the e-mail of the user's row, and the store is as it was.  In every
    other case it has sent a 401, whose message is the error's. *)
Theorem authenticateToken_next (authorization : option string) (w : World) :
  let r := authenticateToken env verifyToken authorization w in
  store r.2 = store w /\
  ((exists user token u,
      r.1 = inr (inr user) /\
      authorization = Some ("Bearer " +:+ token) /\
      verifyToken token = inr (id user) /\
      u ∈ users (store w) /\ user_id u = id user /\ email user = user_email u) \/
   (exists e, r.1 = inr (inl (failure 401 "Authentication failed" (Some (error_text e)))))).
Proof.
  cbv zeta. split.
  - assert (preserves (same store) (authenticateToken env verifyToken authorization)) as H;
      [|apply H].
    unfold authenticateToken, getUserById.
    preserve; apply same_store_await_query; auto with queries.
  - unfold authenticateToken, try_catch.
    destruct (JWTService.extractTokenFromHeader authorization) as [e|token] eqn:Htoken;
      [right; by exists e|].
    destruct (verifyToken token) as [e|userId] eqn:Hverify; [right; by exists e|].
    rewrite bind_eq.
    destruct (getUserById env userId w) as [[e|details] w1] eqn:Hdetails;
      [right; by exists e|].
    left. destruct (getUserById_user _ _ _ _ Hdetails) as (u & Hin & Hid & Hd & He).
    rewrite ret_eq. cbn [fst].
    destruct authorization as [authHeader|]; [|done].
    apply TokenFacts.extractTokenFromHeader_inv in Htoken as [-> _].
    eexists _, token, u. cbn [id email]. split_and!; [done|done| |done| |done].
    + by rewrite Hd.
    + by rewrite Hd.
Qed.

(** X14: [optionalAuth] goes through the same steps: it sets [req.user]
    to the user [authenticateToken] would set, where that one calls
    [next], and to none where that one answers 401; it sends the same
    queries and never a response. *)
Theorem optionalAuth_authenticateToken (authorization : option string) (w : World) :
  optionalAuth env verifyToken authorization w
  = (inr match (authenticateToken env verifyToken authorization w).1 with
         | inr (inr user) => Some user
         | _ => None
         end,
     (authenticateToken env verifyToken authorization w).2).
Proof.
  unfold optionalAuth, authenticateToken, try_catch.
  destruct authorization as [[|c h]|]; [done| |done]. cbn [EncryptionService.truthy].
  destruct (JWTService.extractTokenFromHeader _) as [e|token]; [done|].
  destruct (verifyToken token) as [e|userId]; [done|].
  rewrite !bind_eq.
  by destruct (getUserById env userId w) as [[e|details] w1].
Qed.

End Authentication.

(** Alice leads [t-1]. *)
Lemma requireTeamLeader_next_sample :
  exists w',
    requireTeamLeader Sample.env0 (Some Sample.alice_auth) (Some "t-1") Sample.world0
    = (inr next, w') /\
    requireTeamMember Sample.env0 (Some Sample.alice_auth) (Some "t-1") Sample.world0
    = (inr next, w').
Proof.
  eexists. split; [reflexivity|].
  apply (requireTeamLeader_next Sample.env0 (Some Sample.alice_auth) (Some "t-1")
           Sample.world0 _ eq_refl).
Defined.

End MiddlewareFacts.

(** ** [MessageController.decryptMessage] *)

Module MessageEndpointFacts.
Import Hex HexFacts Crypto CryptoFacts EncryptionService EncryptionFacts.
Import Db Runtime Http MessageEndpoints MonadFacts.
Import MessageController(SendMessageRequest, sendMessage, team_id, mission_id, is_encrypted).

Lemma truthy_length (s : string) : 0 < String.length s -> truthy (Some s) = Some s.
Proof. destruct s; simpl; [lia|done]. Qed.

Lemma truthy_empty (s : string) : String.length s = 0 -> truthy (Some s) = None.
Proof. by destruct s. Qed.

Section Facts.

Variable cipher : PasswordCipher.
Variable K : list byte.

(** The endpoint never answers 500 and never hands out a partial
    plaintext: an authenticated request gets a 200 with what [decrypt]
    returned, or a 400. *)
Lemma decryptMessage_status (user : AuthUser) (encryptedMessage : option EncryptedMessage) :
  let r := decryptMessage cipher (Some user) encryptedMessage in
  (Api.status r = 200 /\
   exists m plaintext, encryptedMessage = Some m /\ decrypt cipher m = inr plaintext /\
                       Api.data r = Some plaintext) \/
  (Api.status r = 400 /\ Api.data r = None /\ Api.success r = false).
Proof.
  cbv zeta. unfold decryptMessage. destruct encryptedMessage as [m|]; [|by right].
  destruct (truthy (content m)); [|by right].
  destruct (truthy (encryptionKey m)); [|by right].
  destruct (decrypt cipher m) as [e|plaintext] eqn:Hdec; [by right|].
  left. split; [done|]. by exists m, plaintext.
Qed.

Lemma decryptMessage_sealed (user : AuthUser) (plaintext : string) (g : Rng) :
  decryptMessage cipher (Some user) (Some (encryptE2E cipher K plaintext g).1)
  = if decide (plaintext = "") then Api.failure 400 "Invalid encrypted message format" None
    else Api.ok 200 plaintext None.
Proof.
  pose proof (decrypt_encryptE2E cipher K plaintext g) as Hdec.
  unfold decryptMessage.
  destruct (encrypt_content_length cipher K plaintext (Some (generateKey g).1) (generateKey g).2)
    as (c & Hc & Hl).
  assert (content (encryptE2E cipher K plaintext g).1 = Some c) as Hcontent.
  { unfold encryptE2E. by rewrite (surjective_pairing (generateKey g)). }
  rewrite Hcontent, Hdec, encryptE2E_key.
  destruct (decide (plaintext = "")) as [->|Hne].
  - by rewrite truthy_empty.
  - rewrite truthy_length
      by (rewrite Hl; destruct plaintext; [done|simpl; lia]).
    rewrite truthy_length; [done|].
    rewrite length_toString_hex, length_randomBytes. unfold KEY_LENGTH. lia.
Qed.

(** X15: given the envelope [encryptE2E] made of a plaintext,
    [decryptMessage] answers 200 with that plaintext, for whichever
    authenticated user asks; except for the empty plaintext, whose envelope
    has an empty [content] and is refused as of invalid format, though
    [decrypt] reads it. *)
Theorem decryptMessage_encryptE2E (user : AuthUser) (plaintext : string) (g : Rng) :
  let envelope := (encryptE2E cipher K plaintext g).1 in
  decrypt cipher envelope = inr plaintext /\
  decryptMessage cipher (Some user) (Some envelope)
  = if decide (plaintext = "") then Api.failure 400 "Invalid encrypted message format" None
    else Api.ok 200 plaintext None.
Proof.
  cbv zeta. split; [apply decrypt_encryptE2E|apply decryptMessage_sealed].
Qed.

Variable env : Env.

(** X16: when [sendMessage] has answered 201 to an encrypted request with a
    non-empty content, the content of the stored row, parsed, is an
    envelope for which [decryptMessage] answers 200 with the submitted
    content to any authenticated user: the endpoint is given no team and
    asks for no membership. *)
Theorem decryptMessage_stored_content (sender reader : AuthUser) (body : SendMessageRequest)
    (ws : bool) (w w' : World) (response : Response) :
  sendMessage cipher K env (Some sender) body ws w = (inr response, w') ->
  status response = 201 ->
  default true (is_encrypted body) = true ->
  MessageController.content body <> "" ->
  exists row envelope,
    messages (store w') = messages (store w) ++ [row] /\
    Json.parse (msg_content row) = Some envelope /\
    decryptMessage cipher (Some reader) (Some envelope)
    = Api.ok 200 (MessageController.content body) None.
Proof.
  intros Hrun H201 Henc Hne.
  destruct (MessageFacts.sendMessage_sent cipher K env _ _ _ _ _ _ Hrun H201)
    as (row & sender' & news & queries & _ & Hrow & Hmsg & _).
  rewrite Henc in Hrow.
  pose proof (decryptMessage_sealed reader (MessageController.content body) (rng w)) as Hd.
  rewrite decide_False in Hd by done.
  destruct (encryptE2E_shape cipher K (MessageController.content body) (rng w))
    as (c & i & t & Hshape & _).
  rewrite Hshape in Hrow, Hd.
  match type of Hd with decryptMessage _ _ (Some ?e) = _ => exists row, e end.
  split_and!; [exact Hmsg| |exact Hd].
  rewrite Hrow. cbn [msg_content].
  by rewrite JsonFacts.parse_stringify by apply JsonFacts.plain_hex.
Qed.

End Facts.

(** Alice sends an encrypted message to [t-1]; carol, who is in no team
    with it, has the stored content decrypted. *)
Lemma decryptMessage_stored_content_sample :
  let body := {| team_id := "t-1"; mission_id := None;
                 MessageController.content := "Report status"; is_encrypted := None |} in
  let carol := {| Http.id := "u-carol"; Http.email := "carol@example.org" |} in
  let r := sendMessage Xor.cipher sample_key Sample.env0 (Some Sample.alice_auth) body true
             Sample.world0 in
  exists row envelope,
    messages (store r.2) = messages (store Sample.world0) ++ [row] /\
    Json.parse (msg_content row) = Some envelope /\
    decryptMessage Xor.cipher (Some carol) (Some envelope) = Api.ok 200 "Report status" None.
Proof.
  cbv zeta.
  match goal with
  | |- context [messages (store (sendMessage ?c ?k ?e ?u ?b ?ws ?w).2)] =>
      destruct (sendMessage c k e u b ws w) as [[err|response] w'] eqn:Hrun;
      [by vm_compute in Hrun|];
      assert (status response = 201) as H201
        by (vm_compute in Hrun; by injection Hrun as <- _);
      exact (decryptMessage_stored_content c k e Sample.alice_auth
               {| Http.id := "u-carol"; Http.email := "carol@example.org" |}
               b ws w w' response Hrun H201 eq_refl ltac:(discriminate))
  end.
Defined.

End MessageEndpointFacts.

(** ** [TeamController]: reading a team, adding a member, the status *)

Module TeamEndpointFacts.
Import Db Runtime DatabaseService Http TeamController DbSingle TeamEndpoints.
Import MonadFacts DatabaseFacts.
Import MessageFacts(bind_inv, is_query, filter_fst).
Import EncryptionService(truthy).

(** A [try] whose [catch] answers: the body returned, or it threw and the
    answer is the handler's. *)
Lemma try_catch_cases {A} (body : M A) (f : JsError -> A) (w w' : World) (a : A) :
  try_catch body (fun e => mret (f e)) w = (inr a, w') ->
  body w = (inr a, w') \/ exists e, body w = (inl e, w') /\ a = f e.
Proof.
  unfold try_catch. destruct (body w) as [[e|a'] w1]; [|by left].
  rewrite ret_eq. intros [= <- <-]. right. by exists e.
Qed.

Lemma try_catch_returns {A} (body : M A) (f : JsError -> A) (w : World) :
  exists a, (try_catch body (fun e => mret (f e)) w).1 = inr a.
Proof. unfold try_catch. destruct (body w) as [[e|a] w1]; by eexists. Qed.

Lemma answer_failed {A} (env : Env) (c : Call) (run : Store -> Answer A * Store) (s : Store)
    (e : string) :
  fails env c = Some e -> answer env c run s = inl e /\ store_after env c run s = s.
Proof. intros H. unfold answer, store_after. by rewrite H. Qed.


(** The status a controller answered with, if it returned. *)
Definition sent_code {D} (r : JsError + Api.Reply D) : option nat :=
  match r with
  | inr reply => Some (Api.status reply)
  | inl _ => None
  end.

Lemma set_team_members_id (s : Store) : set_team_members s (team_members s) = s.
Proof. by destruct s. Qed.

Section Facts.

Variable env : Env.






(** *** [addTeamMember] *)

Lemma insert_single_ok (team user role status : string) (s : Store) (row : TeamMember) :
  answer env (team_members_insert team user role status)
    (run_team_members_insert_single env team user role status) s = inr row ->
  let s' := store_after env (team_members_insert team user role status)
              (run_team_members_insert_single env team user role status) s in
  row = {| tm_id := gen_random_uuid env (uuids s); tm_team_id := team; tm_user_id := user;
           tm_role := role; tm_status := status |} /\
  team_members s' = team_members s ++ [row] /\
  teams s' = teams s /\ messages s' = messages s /\ notifications s' = notifications s /\
  users s' = users s /\ uuids s' = S (uuids s) /\
  existsb (is_team_member user team) (team_members s) = false /\
  valid_role role = true /\ team ∈ map team_id (teams s) /\ user ∈ map user_id (users s).
Proof.
  unfold answer, store_after. destruct (fails env _); [done|].
  unfold run_team_members_insert_single, next_uuid. simpl.
  destruct (valid_role role) eqn:Hrole; simpl; [|done].
  destruct (valid_status status); simpl; [|done].
  case_bool_decide; simpl; [done|].
  destruct (existsb _ _); simpl; [done|].
  case_bool_decide; simpl; [|done]. case_bool_decide; simpl; [|done].
  by intros [= <-].
Qed.

Lemma insert_single_failed (team user role status e : string) (s : Store) :
  answer env (team_members_insert team user role status)
    (run_team_members_insert_single env team user role status) s = inl e ->
  let s' := store_after env (team_members_insert team user role status)
              (run_team_members_insert_single env team user role status) s in
  team_members s' = team_members s /\ teams s' = teams s /\ messages s' = messages s /\
  notifications s' = notifications s /\ users s' = users s.
Proof.
  unfold answer, store_after. destruct (fails env _); [done|].
  unfold run_team_members_insert_single, next_uuid. simpl.
  destruct (valid_role role); simpl; [|done].
  destruct (valid_status status); simpl; [|done].
  case_bool_decide; simpl; [done|].
  destruct (existsb _ _); simpl; [done|].
  case_bool_decide; simpl; [|done]. by case_bool_decide.
Qed.

Lemma notification_created (user type title : string) (content : option string)
    (s : Store) (row : Notification) :
  answer env (notifications_insert user type title content)
    (run_notifications_insert env user type title content) s = inr row ->
  let s' := store_after env (notifications_insert user type title content)
              (run_notifications_insert env user type title content) s in
  row = {| n_id := gen_random_uuid env (uuids s); n_user_id := user; n_type := type;
           n_title := title; n_content := content; n_read := false |} /\
  valid_type type = true /\
  notifications s' = notifications s ++ [row] /\
  team_members s' = team_members s /\ teams s' = teams s /\ messages s' = messages s /\
  users s' = users s.
Proof.
  unfold answer, store_after. destruct (fails env _); [done|].
  unfold run_notifications_insert, next_uuid. simpl.
  destruct (valid_type type); simpl; [|done].
  case_bool_decide; simpl; [done|]. by intros [= <-].
Qed.

Lemma notification_failed (user type title e : string) (content : option string) (s : Store) :
  answer env (notifications_insert user type title content)
    (run_notifications_insert env user type title content) s = inl e ->
  let s' := store_after env (notifications_insert user type title content)
              (run_notifications_insert env user type title content) s in
  notifications s' = notifications s /\
  team_members s' = team_members s /\ teams s' = teams s /\ messages s' = messages s /\
  users s' = users s.
Proof.
  unfold answer, store_after. destruct (fails env _); [done|].
  unfold run_notifications_insert, next_uuid. simpl.
  destruct (valid_type type); simpl; [|done]. by case_bool_decide.
Qed.

(** [DatabaseService.createNotification] as a function of the store. *)
Lemma createNotification_eq (user type title : string) (content : option string) (w : World) :
  let c := notifications_insert user type title content in
  let run := run_notifications_insert env user type title content in
  createNotification env user type title content w
  = (match answer env c run (store w) with
     | inr data => inr data
     | inl _ => inl (Error "Failed to create notification")
     end,
     add_event (query c (is_ok (answer env c run (store w))))
       (set_store (store_after env c run (store w)) w)).
Proof.
  cbv zeta. unfold createNotification. rewrite bind_eq, await_query_eq.
  by destruct (answer env _ _ (store w)).
Qed.

Lemma getUserById_id (userId : string) (w w' : World) (details : UserDetails) :
  getUserById env userId w = (inr details, w') -> Runtime.id details = userId.
Proof.
  unfold getUserById. intros (r & w1 & Hq & Hrest)%bind_inv.
  rewrite await_query_eq in Hq. injection Hq as <- <-.
  destruct (answer env _ _ (store w)) as [e|u] eqn:Hu; [done|].
  apply bind_inv in Hrest as (p & w2 & _ & Hret).
  rewrite ret_eq in Hret. injection Hret as <- _. cbn.
  unfold answer in Hu. destruct (fails env _); [done|]. cbn in Hu.
  destruct (filter _ _) as [|u' l] eqn:E; [done|]. injection Hu as ->.
  assert (u ∈ filter (fun u => user_id u = userId) (users (store w))) as Hin
    by (rewrite E; set_solver).
  by apply list_elem_of_filter in Hin as [? _].
Qed.

(** X18: what a 201 of [addTeamMember] implies: the caller's row in the team
    has role leader, the added user had no row there, the table gained one
    row, for that user, with the asked role ([member] when none was asked)
    and status [offline], and the user got one notification of type
    [alert]. *)
Theorem addTeamMember_201 (user : AuthUser) (teamId : string) (body : AddTeamMemberRequest)
    (w w' : World) (reply : Api.Reply (TeamMember * UserDetails)) :
  addTeamMember env (Some user) teamId body w = (inr reply, w') ->
  Api.status reply = 201 ->
  exists leader member details notification,
    member_answer env (id user) teamId (store w) = inr leader /\
    tm_role leader = "leader" /\
    is_ok (member_answer env (userId body) teamId (store w)) = false /\
    member = {| tm_id := gen_random_uuid env (uuids (store w)); tm_team_id := teamId;
                tm_user_id := userId body; tm_role := default "member" (role body);
                tm_status := "offline" |} /\
    valid_role (tm_role member) = true /\
    team_members (store w') = team_members (store w) ++ [member] /\
    notification = {| n_id := gen_random_uuid env (S (uuids (store w)));
                      n_user_id := userId body; n_type := "alert";
                      n_title := "Team Invitation";
                      n_content :=
                        Some (invitation (default "Unknown Team" (truthy (teamName body))));
                      n_read := false |} /\
    notifications (store w') = notifications (store w) ++ [notification] /\
    teams (store w') = teams (store w) /\ messages (store w') = messages (store w) /\
    Api.data reply = Some (member, details) /\ Runtime.id details = userId body.
Proof.
  intros Hrun H201. unfold addTeamMember in Hrun.
  apply try_catch_cases in Hrun as [Hbody|(e & _ & ->)]; [|done].
  apply bind_inv in Hbody as (isLeader & w1 & Hleader & Hbody).
  rewrite isTeamLeader_eq in Hleader. injection Hleader as <- <-.
  destruct (member_answer env (id user) teamId (store w)) as [e|leader] eqn:Hl;
    [cbn [negb] in Hbody; rewrite ret_eq in Hbody; injection Hbody as <- _; done|].
  case_bool_decide as Hrole; cbn [negb] in Hbody;
    [|rewrite ret_eq in Hbody; injection Hbody as <- _; done].
  apply bind_inv in Hbody as (isAlreadyMember & w2 & Hmember & Hbody).
  rewrite isTeamMember_eq in Hmember. injection Hmember as <- <-.
  cbn [store add_event] in Hbody.
  destruct (is_ok (member_answer env (userId body) teamId (store w))) eqn:Hm;
    [rewrite ret_eq in Hbody; injection Hbody as <- _; done|].
  apply bind_inv in Hbody as (r & w3 & Hinsert & Hbody).
  rewrite await_query_eq in Hinsert. injection Hinsert as <- <-.
  cbn [store add_event] in Hbody.
  destruct (answer env _ _ (store w)) as [e|member] eqn:Hrow;
    [rewrite ret_eq in Hbody; injection Hbody as <- _; done|].
  destruct (insert_single_ok _ _ _ _ _ _ Hrow)
    as (Hmember & Htm & Hteams & Hmsgs & Hnots & _ & Huuids & _ & Hvalid & _).
  apply bind_inv in Hbody as (details & w4 & Hdetails & Hbody).
  apply bind_inv in Hbody as (notification & w5 & Hnot & Hret).
  rewrite ret_eq in Hret. injection Hret as <- <-.
  pose proof (getUserById_id _ _ _ _ Hdetails) as Hid.
  match type of Hdetails with
  | getUserById _ _ ?w3 = _ => pose proof (getUserById_same_store env (userId body) w3) as Hs4
  end.
  rewrite Hdetails in Hs4. unfold same in Hs4. cbn [snd store add_event set_store] in Hs4.
  rewrite createNotification_eq, Hs4 in Hnot.
  destruct (answer env (notifications_insert _ _ _ _) _ _) as [e|n] eqn:Hn; [done|].
  injection Hnot as -> <-.
  destruct (notification_created _ _ _ _ _ _ Hn) as (Hn_eq & _ & Hn5 & Htm5 & Hteams5 & Hmsgs5 & _).
  rewrite Huuids in Hn_eq.
  exists leader, member, details, notification. cbn [store add_event set_store].
  split_and!; try done.
  - by rewrite Hmember.
  - by rewrite Htm5, Htm.
  - by rewrite Hn5, Hnots.
  - by rewrite Hteams5, Hteams.
  - by rewrite Hmsgs5, Hmsgs.
Qed.

Lemma filter_none {A} (P : A -> bool) (l : list A) :
  existsb P l = false -> filter (fun x => P x = true) l = [].
Proof.
  induction l as [|x l IH]; [done|]. simpl. intros [Hx Hl]%orb_false_iff.
  rewrite filter_cons_False by (by rewrite Hx). by apply IH.
Qed.

(** X19: [addTeamMember] has no compensating delete.  When the row was
    inserted and the lookup of the added user then fails, the answer is a
    500 while the membership row stays and no notification was created;
    the same request, sent again, is answered 409. *)
Theorem addTeamMember_no_rollback (user : AuthUser) (teamId : string)
    (body : AddTeamMemberRequest) (w : World) (leader member : TeamMember) (e : string) :
  member_answer env (id user) teamId (store w) = inr leader ->
  tm_role leader = "leader" ->
  fails env (team_members_select_single (userId body) teamId) = None ->
  answer env (team_members_insert teamId (userId body) (default "member" (role body)) "offline")
    (run_team_members_insert_single env teamId (userId body) (default "member" (role body))
       "offline") (store w) = inr member ->
  fails env (auth_getUserById (userId body)) = Some e ->
  let r := addTeamMember env (Some user) teamId body w in
  r.1 = inr (Api.failure 500 "Failed to add team member" (Some "User not found")) /\
  team_members (store r.2) = team_members (store w) ++ [member] /\
  notifications (store r.2) = notifications (store w) /\
  (addTeamMember env (Some user) teamId body r.2).1
  = inr (Api.failure 409 "User is already a team member" None).
Proof.
  cbv zeta. intros Hleader Hrole Hselect Hinsert Hfail.
  destruct (insert_single_ok _ _ _ _ _ _ Hinsert)
    as (Hmember & Htm & _ & _ & Hnots & _ & _ & Habsent & _).
  destruct (member_answer_row _ _ _ _ _ Hleader) as (_ & Hlu & Hlt & Hlrows).
  apply filter_none in Habsent.
  assert (member_answer env (userId body) teamId (store w)
          = inl "JSON object requested, multiple (or no) rows returned") as Hno.
  { unfold member_answer, answer. rewrite Hselect. cbn. by rewrite Habsent. }
  assert (userId body <> id user) as Hother.
  { intros Heq. rewrite Heq in Hno. congruence. }
  set (r := addTeamMember env (Some user) teamId body w).
  assert (r.1 = inr (Api.failure 500 "Failed to add team member" (Some "User not found")) /\
          store r.2
          = store_after env
              (team_members_insert teamId (userId body) (default "member" (role body)) "offline")
              (run_team_members_insert_single env teamId (userId body)
                 (default "member" (role body)) "offline") (store w)) as [Hr1 Hr2].
  { subst r. unfold addTeamMember, try_catch.
    rewrite bind_eq, isTeamLeader_eq, Hleader, Hrole.
    rewrite bool_decide_eq_true_2 by done. cbn [negb].
    rewrite bind_eq, isTeamMember_eq. cbn [store add_event]. rewrite Hno. cbn [is_ok].
    rewrite bind_eq, await_query_eq. cbn [store add_event]. rewrite Hinsert.
    unfold getUserById. rewrite !bind_eq, await_query_eq.
    destruct (answer_failed env _ (run_auth_getUserById (userId body))
                (store_after env
                   (team_members_insert teamId (userId body) (default "member" (role body))
                      "offline")
                   (run_team_members_insert_single env teamId (userId body)
                      (default "member" (role body)) "offline") (store w)) e Hfail)
      as [Ha Hs].
    cbn [store add_event set_store]. rewrite Ha, Hs. done. }
  split_and!.
  - exact Hr1.
  - by rewrite Hr2.
  - by rewrite Hr2.
  - unfold addTeamMember, try_catch.
    assert (member_answer env (id user) teamId (store r.2) = inr leader) as Hleader'.
    { unfold member_answer, answer in *. destruct (fails env _); [done|]. cbn.
      rewrite Hr2, Htm, filter_app, Hlrows.
      rewrite filter_cons_False, filter_nil; [done|].
      rewrite Hmember. unfold is_team_member. cbn.
      by rewrite (bool_decide_eq_false_2 (userId body = id user)). }
    assert (is_ok (member_answer env (userId body) teamId (store r.2)) = true) as Hyes.
    { unfold member_answer, answer. rewrite Hselect. cbn.
      rewrite Hr2, Htm, filter_app, Habsent.
      rewrite filter_cons_True, filter_nil; [done|].
      rewrite Hmember. unfold is_team_member. cbn. by rewrite !bool_decide_eq_true_2. }
    rewrite bind_eq, isTeamLeader_eq, Hleader', Hrole.
    rewrite bool_decide_eq_true_2 by done. cbn [negb].
    rewrite bind_eq, isTeamMember_eq. cbn [store add_event]. by rewrite Hyes.
Qed.

(** *** [updateUserStatus] *)

Definition set_status (user team status : string) (m : TeamMember) : TeamMember :=
  if is_team_member user team m then with_status status m else m.

Lemma update_single_ok (user team status : string) (s : Store) (updated : TeamMember) :
  answer env (team_members_update_status user team status)
    (run_team_members_update_status_single user team status) s = inr updated ->
  let s' := store_after env (team_members_update_status user team status)
              (run_team_members_update_status_single user team status) s in
  exists row,
    filter (fun m => is_team_member user team m = true) (team_members s) = [row] /\
    updated = with_status status row /\ valid_status status = true /\
    team_members s' = map (set_status user team status) (team_members s) /\
    teams s' = teams s /\ messages s' = messages s /\ notifications s' = notifications s /\
    users s' = users s.
Proof.
  unfold answer, store_after. destruct (fails env _); [done|].
  unfold run_team_members_update_status_single.
  destruct (existsb _ _) eqn:Hex; cbn [andb].
  - destruct (valid_status status); cbn [negb]; [|done].
    destruct (filter _ _) as [|row [|row' l]]; cbn; [done| |done].
    intros [= <-]. by exists row.
  - apply filter_none in Hex. by rewrite Hex.
Qed.

Lemma update_single_failed (user team status e : string) (s : Store) :
  answer env (team_members_update_status user team status)
    (run_team_members_update_status_single user team status) s = inl e ->
  store_after env (team_members_update_status user team status)
    (run_team_members_update_status_single user team status) s = s.
Proof.
  unfold answer, store_after. destruct (fails env _); [done|].
  unfold run_team_members_update_status_single.
  destruct (_ && _); [done|]. by destruct (single _).
Qed.

Lemma rows_after_set_status (user team status teamId : string) (l : list TeamMember) :
  map tm_user_id (filter (fun m => tm_team_id m = teamId) (map (set_status user team status) l))
  = map tm_user_id (filter (fun m => tm_team_id m = teamId) l).
Proof.
  induction l as [|m l IH]; [done|]. cbn [map].
  assert (tm_team_id (set_status user team status m) = tm_team_id m /\
          tm_user_id (set_status user team status m) = tm_user_id m) as [Ht Hu].
  { unfold set_status. by destruct (is_team_member user team m). }
  rewrite !filter_cons, Ht.
  destruct (decide (tm_team_id m = teamId)); [|done]. cbn [map]. by rewrite Hu, IH.
Qed.

(** The loop over the team, when it ends without throwing: one
    notification of type [status_change] per row of another user, in
    order. *)
Lemma status_notify_loop (l : list (TeamMember * UserDetails)) (user : string)
    (content : option string) (w w' : World) :
  for_of l (fun '(member, _) =>
    if bool_decide (tm_user_id member ≠ user) then
      _ ← createNotification env (tm_user_id member) "status_change"
            "Team Member Status Update" content;
      mret ()
    else mret ()) w = (inr (), w') ->
  exists news,
    notifications (store w') = notifications (store w) ++ news /\
    map n_user_id news = filter (fun u => u ≠ user) (map tm_user_id (l.*1)) /\
    Forall (fun n => n_type n = "status_change" /\ n_content n = content) news /\
    team_members (store w') = team_members (store w) /\ teams (store w') = teams (store w) /\
    messages (store w') = messages (store w).
Proof.
  revert w. induction l as [|[member details] l IH]; intros w; cbn [for_of].
  - rewrite ret_eq. intros [= <-]. exists []. rewrite app_nil_r. by split_and!.
  - intros ([] & w1 & Hstep & Hrest)%bind_inv.
    destruct (IH _ Hrest) as (news & Hn' & Hus & Hts & Htm' & Hteams' & Hmsgs').
    cbn [fmap list_fmap fst map]. rewrite filter_cons.
    case_bool_decide as Hother.
    + apply bind_inv in Hstep as (row & w0 & Hcreate & Hret).
      rewrite ret_eq in Hret. injection Hret as ->.
      rewrite createNotification_eq in Hcreate.
      destruct (answer env _ _ (store w)) as [e|row'] eqn:Ha; [done|].
      injection Hcreate as -> <-.
      destruct (notification_created _ _ _ _ _ _ Ha) as (Hrow & _ & Hn & Htm & Hteams & Hmsgs & _).
      rewrite decide_True by done.
      exists (row :: news). cbn [store add_event set_store] in *.
      split_and!.
      * by rewrite Hn', Hn, <- app_assoc.
      * cbn [map]. rewrite Hus. f_equal. by rewrite Hrow.
      * constructor; [by rewrite Hrow|done].
      * by rewrite Htm', Htm.
      * by rewrite Hteams', Hteams.
      * by rewrite Hmsgs', Hmsgs.
    + rewrite ret_eq in Hstep. injection Hstep as <-.
      rewrite decide_False by (by intros H).
      by exists news.
Qed.

(** X20: over HTTP a status update emits nothing: whatever the outcome, the log
    grows by queries only and no connection or registry entry changes. *)
Theorem updateUserStatus_emits_nothing (user : option AuthUser) (teamId status : string)
    (w : World) :
  let r := updateUserStatus env user teamId status w in
  extends is_query w r.2 /\ sockets r.2 = sockets w /\ connectedUsers r.2 = connectedUsers w.
Proof.
  cbv zeta. split_and!.
  - assert (preserves (extends is_query) (updateUserStatus env user teamId status)) as H;
      [|apply H].
    unfold updateUserStatus, isTeamMember, getTeamMembers, getUserById, createNotification.
    preserve; by apply extends_await_query.
  - assert (preserves (same sockets) (updateUserStatus env user teamId status)) as H;
      [|apply H].
    unfold updateUserStatus, isTeamMember, getTeamMembers, getUserById, createNotification.
    preserve; by apply same_await_query.
  - assert (preserves (same connectedUsers) (updateUserStatus env user teamId status)) as H;
      [|apply H].
    unfold updateUserStatus, isTeamMember, getTeamMembers, getUserById, createNotification.
    preserve; by apply same_await_query.
Qed.

(** X21: what a 200 of [updateUserStatus] implies: the table held one row of
    the caller in the team, the status is one the CHECK constraint admits,
    that row and no other now has it, the reply carries the updated row,
    and every other user of the team got one notification of type
    [status_change]. *)
Theorem updateUserStatus_200 (user : AuthUser) (teamId status : string) (w w' : World)
    (reply : Api.Reply TeamMember) :
  updateUserStatus env (Some user) teamId status w = (inr reply, w') ->
  Api.status reply = 200 ->
  exists row news,
    filter (fun m => is_team_member (id user) teamId m = true) (team_members (store w)) = [row] /\
    valid_status status = true /\
    Api.data reply = Some (with_status status row) /\
    team_members (store w')
    = map (set_status (id user) teamId status) (team_members (store w)) /\
    notifications (store w') = notifications (store w) ++ news /\
    map n_user_id news
    = filter (fun u => u ≠ id user)
        (map tm_user_id (filter (fun m => tm_team_id m = teamId) (team_members (store w)))) /\
    Forall (fun n => n_type n = "status_change") news.
Proof.
  intros Hrun H200. unfold updateUserStatus in Hrun.
  apply try_catch_cases in Hrun as [Hbody|(e & _ & ->)]; [|done].
  apply bind_inv in Hbody as (isMember & w1 & Hmember & Hbody).
  rewrite isTeamMember_eq in Hmember. injection Hmember as <- <-.
  destruct (is_ok (member_answer env (id user) teamId (store w))) eqn:Hm; cbn [negb] in Hbody;
    [|rewrite ret_eq in Hbody; injection Hbody as <- _; done].
  apply bind_inv in Hbody as (r & w2 & Hupdate & Hbody).
  rewrite await_query_eq in Hupdate. injection Hupdate as <- <-.
  cbn [store add_event] in Hbody.
  destruct (answer env _ _ (store w)) as [e|updated] eqn:Hrow;
    [rewrite ret_eq in Hbody; injection Hbody as <- _; done|].
  destruct (update_single_ok _ _ _ _ _ Hrow)
    as (row & Hrows & Hupdated & Hvalid & Htm & _ & _ & Hnots & _).
  apply bind_inv in Hbody as (teamMembers & w3 & Hteam & Hbody).
  apply bind_inv in Hbody as (details & w4 & Hdetails & Hbody).
  apply bind_inv in Hbody as ([] & w5 & Hloop & Hret).
  rewrite ret_eq in Hret. injection Hret as <- <-.
  pose proof (getTeamMembers_rows env _ _ _ _ Hteam) as Hteam_rows.
  match type of Hteam with
  | getTeamMembers _ _ ?w2 = _ => pose proof (getTeamMembers_same_store env teamId w2) as Hs3
  end.
  rewrite Hteam in Hs3. unfold same in Hs3. cbn [snd store add_event set_store] in Hs3, Hteam_rows.
  pose proof (getUserById_same_store env (id user) w3) as Hs4.
  rewrite Hdetails in Hs4. unfold same in Hs4. cbn [snd] in Hs4.
  destruct (status_notify_loop _ _ _ _ _ Hloop) as (news & Hn5 & Husers & Htypes & Htm5 & _).
  exists row, news. split_and!; [done|done|by rewrite Hupdated| | | |].
  - by rewrite Htm5, Hs4, Hs3.
  - by rewrite Hn5, Hs4, Hs3, Hnots.
  - rewrite Husers, Hteam_rows, Htm. f_equal. apply rows_after_set_status.
  - eapply Forall_impl; [exact Htypes|]. by intros n [? _].
Qed.

(** *** [removeTeamMember] *)

Lemma store_after_read_only {A} (c : Call) (run : Store -> Answer A * Store) (s : Store) :
  read_only run -> store_after env c run s = s.
Proof. intros H. unfold store_after. destruct (fails env c); [done|apply H]. Qed.

Lemma delete_tables (team user : string) (s : Store) :
  let s' := store_after env (team_members_delete team user)
              (run_team_members_delete team user) s in
  teams s' = teams s /\ messages s' = messages s /\ notifications s' = notifications s /\
  (team_members s' = team_members s \/
   team_members s' = filter (fun m => negb (is_team_member user team m)) (team_members s)).
Proof.
  cbv zeta. unfold store_after. destruct (fails env _); [by split_and!; [..|left]|].
  cbn. split_and!; [done..|by right].
Qed.

(** The store [removeTeamMember] leaves: the one it found, or the one
    after the delete, which it sends only for a leader or for the caller
    themself. *)
Lemma removeTeamMember_store (user : AuthUser) (teamId userId : string) (w : World) :
  let r := removeTeamMember env (Some user) teamId userId w in
  let isLeader := match member_answer env (id user) teamId (store w) with
                  | inr data => bool_decide (tm_role data = "leader")
                  | inl _ => false
                  end in
  store r.2 = store w \/
  store r.2 = store_after env (team_members_delete teamId userId)
                (run_team_members_delete teamId userId) (store w) /\
  (isLeader = true \/ id user = userId).
Proof.
  cbv zeta. unfold removeTeamMember, try_catch.
  rewrite bind_eq, isTeamLeader_eq.
  destruct (match member_answer env (id user) teamId (store w) with
            | inr data => bool_decide (tm_role data = "leader")
            | inl _ => false
            end) eqn:HisLeader;
    case_bool_decide as Hself; cbn [negb andb].
  - rewrite !bind_eq, await_query_eq, ret_eq. cbn [store add_event set_store].
    rewrite store_after_read_only by (by intros ?).
    match goal with |- context [if ?b then _ else _] => destruct b end.
    + rewrite ret_eq. by left.
    + rewrite bind_eq, await_query_eq. cbn [store add_event set_store].
      destruct (answer env (team_members_delete _ _) _ _); rewrite ret_eq; right; by split; [|left].
  - rewrite bind_eq, ret_eq. cbv beta iota.
    rewrite bind_eq, await_query_eq. cbn [store add_event set_store].
    destruct (answer env (team_members_delete _ _) _ _); rewrite ret_eq; right; by split; [|left].
  - rewrite bind_eq, ret_eq. cbv beta iota.
    rewrite bind_eq, await_query_eq. cbn [store add_event set_store].
    destruct (answer env (team_members_delete _ _) _ _); rewrite ret_eq; right; by split; [|right].
  - rewrite ret_eq. by left.
Qed.

(** X22: [removeTeamMember] touches the membership table only, and there only
    the rows of the named user in the named team; and when it removed
    them, the caller is that user or holds a row with role leader in the
    team. *)
Theorem removeTeamMember_authorized (user : AuthUser) (teamId userId : string) (w : World) :
  let r := removeTeamMember env (Some user) teamId userId w in
  teams (store r.2) = teams (store w) /\
  messages (store r.2) = messages (store w) /\
  notifications (store r.2) = notifications (store w) /\
  (team_members (store r.2) = team_members (store w) \/
   team_members (store r.2)
   = filter (fun m => negb (is_team_member userId teamId m)) (team_members (store w)) /\
   (userId = id user \/
    exists leader, member_answer env (id user) teamId (store w) = inr leader /\
                   tm_role leader = "leader")).
Proof.
  cbv zeta.
  pose proof (delete_tables teamId userId (store w)) as (Ht & Hm & Hn & Hr).
  destruct (removeTeamMember_store user teamId userId w) as [->|[-> Hwho]].
  - split_and!; [done..|by left].
  - split_and!; [done..|]. destruct Hr as [Hr|Hr]; [by left|right]. split; [done|].
    destruct Hwho as [Hleader|Hself]; [right|by left].
    destruct (member_answer env (id user) teamId (store w)) as [e|leader]; [done|].
    apply bool_decide_eq_true in Hleader. by exists leader.
Qed.

Lemma filter_others {A} (P : A -> bool) (l : list A) :
  filter (fun x => P x = true) l = [] -> filter (fun x => negb (P x)) l = l.
Proof.
  induction l as [|x l IH]; [done|]. rewrite !filter_cons.
  destruct (P x) eqn:Hx; cbn [negb].
  - rewrite decide_True by done. done.
  - rewrite decide_False by done. intros Hl.
    rewrite decide_True by done. by rewrite IH.
Qed.

(** X23: A leader who removes a user that has no row in the team is answered
    200, "Team member removed successfully", and nothing has changed:
    the endpoint has no 404. *)
Theorem removeTeamMember_absent (user : AuthUser) (teamId userId : string) (w : World)
    (leader : TeamMember) :
  member_answer env (id user) teamId (store w) = inr leader ->
  tm_role leader = "leader" ->
  userId <> id user ->
  filter (fun m => is_team_member userId teamId m = true) (team_members (store w)) = [] ->
  fails env (team_members_delete teamId userId) = None ->
  let r := removeTeamMember env (Some user) teamId userId w in
  r.1 = inr {| status := 200; success := true; data := no_data; error := None;
               message := Some "Team member removed successfully" |} /\
  store r.2 = store w.
Proof.
  cbv zeta. intros Hleader Hrole Hother Habsent Hdelete.
  unfold removeTeamMember, try_catch.
  rewrite bind_eq, isTeamLeader_eq, Hleader, Hrole.
  rewrite bool_decide_eq_true_2 by done.
  rewrite (bool_decide_eq_false_2 (id user = userId)) by (by intros H; apply Hother).
  cbn [negb andb]. rewrite bind_eq, ret_eq. cbv beta iota.
  rewrite bind_eq, await_query_eq. cbn [store add_event set_store].
  unfold answer, store_after. rewrite Hdelete. cbn.
  split; [done|]. rewrite filter_others by done. apply set_team_members_id.
Qed.

(** *** [createTeam], when it succeeds *)






End Facts.

(** Alice, who leads [t-1], adds carol to it. *)
Definition add_carol : AddTeamMemberRequest :=
  {| userId := "u-carol"; role := None; teamName := Some "Alpha" |}.

Lemma addTeamMember_201_sample :
  let r := addTeamMember Sample.env0 (Some Sample.alice_auth) "t-1" add_carol Sample.world0 in
  exists member notification,
    sent_code r.1 = Some 201 /\
    member = Sample.member "id-0" "t-1" "u-carol" "member" "offline" /\
    team_members (store r.2) = team_members Sample.store0 ++ [member] /\
    n_user_id notification = "u-carol" /\
    notifications (store r.2) = [notification].
Proof.
  cbv zeta.
  destruct (addTeamMember Sample.env0 (Some Sample.alice_auth) "t-1" add_carol Sample.world0)
    as [[err|reply] w'] eqn:Hrun; [by vm_compute in Hrun|].
  assert (Api.status reply = 201) as H201
    by (vm_compute in Hrun; by injection Hrun as <- _).
  destruct (addTeamMember_201 Sample.env0 Sample.alice_auth "t-1" add_carol Sample.world0 w'
              reply Hrun H201)
    as (leader & member & details & notification & _ & _ & _ & Hm & _ & Htm & Hn & Hns & _).
  exists member, notification. cbn [fst snd sent_code].
  split_and!; [by rewrite H201|by rewrite Hm|exact Htm|by rewrite Hn|exact Hns].
Defined.

(** The same request when the lookup of carol fails. *)
Lemma addTeamMember_no_rollback_sample :
  let env := Sample.failing (auth_getUserById "u-carol") in
  let r := addTeamMember env (Some Sample.alice_auth) "t-1" add_carol Sample.world0 in
  sent_code r.1 = Some 500 /\
  map tm_user_id (team_members (store r.2)) = ["u-alice"; "u-bob"; "u-carol"; "u-alice"; "u-carol"] /\
  notifications (store r.2) = [] /\
  sent_code (addTeamMember env (Some Sample.alice_auth) "t-1" add_carol r.2).1 = Some 409.
Proof.
  cbv zeta.
  pose proof (addTeamMember_no_rollback (Sample.failing (auth_getUserById "u-carol"))
                Sample.alice_auth "t-1" add_carol Sample.world0
                (Sample.member "m-1" "t-1" "u-alice" "leader" "safe")
                (Sample.member "id-0" "t-1" "u-carol" "member" "offline")
                "connection reset" eq_refl eq_refl eq_refl eq_refl eq_refl)
    as (H1 & H2 & H3 & H4).
  split_and!.
  - by rewrite H1.
  - rewrite H2. vm_compute. reflexivity.
  - exact H3.
  - by rewrite H4.
Defined.

(** Alice reports [need_backup] in [t-1] over HTTP. *)
Lemma updateUserStatus_200_sample :
  let r := updateUserStatus Sample.env0 (Some Sample.alice_auth) "t-1" "need_backup"
             Sample.world0 in
  exists news,
    sent_code r.1 = Some 200 /\
    map tm_status (team_members (store r.2)) = ["need_backup"; "safe"; "safe"; "safe"] /\
    notifications (store r.2) = news /\ map n_user_id news = ["u-bob"].
Proof.
  cbv zeta.
  destruct (updateUserStatus Sample.env0 (Some Sample.alice_auth) "t-1" "need_backup"
              Sample.world0) as [[err|reply] w'] eqn:Hrun; [by vm_compute in Hrun|].
  assert (Api.status reply = 200) as H200
    by (vm_compute in Hrun; by injection Hrun as <- _).
  destruct (updateUserStatus_200 Sample.env0 Sample.alice_auth "t-1" "need_backup"
              Sample.world0 w' reply Hrun H200)
    as (row & news & _ & _ & _ & Htm & Hn & Hus & _).
  exists news. cbn [fst snd sent_code].
  split_and!; [by rewrite H200| |exact Hn|].
  - rewrite Htm. vm_compute. reflexivity.
  - rewrite Hus. vm_compute. reflexivity.
Defined.

(** Alice removes carol, who is not in [t-1], from it. *)
Lemma removeTeamMember_absent_sample :
  let r := removeTeamMember Sample.env0 (Some Sample.alice_auth) "t-1" "u-carol"
             Sample.world0 in
  sent_status r.1 = Some 200 /\ store r.2 = Sample.store0.
Proof.
  cbv zeta.
  pose proof (removeTeamMember_absent Sample.env0 Sample.alice_auth "t-1" "u-carol"
                Sample.world0 (Sample.member "m-1" "t-1" "u-alice" "leader" "safe")
                eq_refl eq_refl ltac:(discriminate) eq_refl eq_refl) as [H1 H2].
  split; [by rewrite H1|exact H2].
Defined.





End TeamEndpointFacts.

(** ** [NotificationController] *)

Module NotificationFacts.
Import Db Runtime DatabaseService MonadFacts DatabaseFacts.
Import MessageFacts(bind_inv, is_query, filter_fst, try_catch_ret_world).
Import TeamEndpointFacts(try_catch_cases, notification_created, notification_failed,
                         createNotification_eq, sent_code).

Section Facts.

Variable env : Env.

(** X26: [createNotification] writes for the caller themself, or for anyone
    when the caller's role is [admin], and for no one else: a row is added
    only then, it is unread and holds the body's fields, and the answer is
    the 201 that carries it; otherwise the table is as it was.  A caller
    who is no admin and names another user is answered 403; a type the
    CHECK constraint refuses is answered 500. *)
Theorem createNotification_self_or_admin (user : NotificationController.Requester)
    (body : NotificationController.CreateNotificationRequest) (w : World) :
  let r := NotificationController.createNotification env (Some user) body w in
  let row := {| n_id := gen_random_uuid env (uuids (store w));
                n_user_id := NotificationController.user_id body; n_type := NotificationController.type body;
                n_title := NotificationController.title body;
                n_content := Some (default "" (NotificationController.content body)); n_read := false |} in
  let allowed := NotificationController.role user = "admin" \/ NotificationController.user_id body = NotificationController.id user in
  team_members (store r.2) = team_members (store w) /\
  (notifications (store r.2) = notifications (store w) \/
   notifications (store r.2) = notifications (store w) ++ [row] /\ allowed /\
   r.1 = inr (Api.ok 201 row (Some "Notification created successfully"))) /\
  (~ allowed ->
   r.1 = inr (Api.failure 403 "Access denied"
                (Some "Only admins can create notifications for other users")) /\
   store r.2 = store w) /\
  (allowed -> valid_type (NotificationController.type body) = false ->
   r.1 = inr (Api.failure 500 "Failed to create notification"
                (Some "Failed to create notification")) /\
   notifications (store r.2) = notifications (store w)).
Proof.
  cbv zeta. unfold NotificationController.createNotification, try_catch.
  destruct (bool_decide (NotificationController.role user ≠ "admin") && bool_decide (NotificationController.user_id body ≠ NotificationController.id user))
    eqn:Hdenied.
  - apply andb_prop in Hdenied as [Hrole%bool_decide_eq_true Hother%bool_decide_eq_true].
    rewrite ret_eq. cbn [fst snd]. split_and!; [done|by left|done|].
    intros [?|?]; done.
  - assert (NotificationController.role user = "admin" \/ NotificationController.user_id body = NotificationController.id user) as Hallowed.
    { apply andb_false_iff in Hdenied as [H|H]; apply bool_decide_eq_false in H;
        [left|right]; by apply dec_stable. }
    rewrite bind_eq, createNotification_eq.
    destruct (answer env _ _ (store w)) as [e|n] eqn:Ha.
    + destruct (notification_failed env _ _ _ _ _ _ Ha) as (Hn & Htm & _).
      rewrite ret_eq. cbn [fst snd store add_event set_store].
      split_and!; [done|by left|done|done].
    + destruct (notification_created env _ _ _ _ _ _ Ha) as (Hrow & Hvalid & Hn & Htm & _).
      rewrite ret_eq. cbn [fst snd store add_event set_store]. subst n.
      split_and!; [done|by right|done|].
      intros _ Hinvalid. congruence.
Qed.

(** The calls [Promise.all] has started: each creates its notification or
    not, independently of the others. *)
Lemma all_started_notifications (targets : list (TeamMember * UserDetails))
    (type title : string) (content : option string) (w : World) :
  let r := NotificationController.all_started (fun member =>
             createNotification env (tm_user_id member.1) type title content) targets w in
  exists news,
    notifications (store r.2) = notifications (store w) ++ news /\
    Forall (fun n => n_user_id n ∈ map tm_user_id (targets.*1) /\ n_type n = type /\
                     n_title n = title /\ n_content n = content /\ n_read n = false) news /\
    team_members (store r.2) = team_members (store w) /\
    extends is_query w r.2 /\
    (forall rows, r.1 = inr rows ->
       rows = news /\ map n_user_id news = map tm_user_id (targets.*1)).
Proof.
  cbv zeta. revert w. induction targets as [|member targets IH]; intros w.
  - exists []. cbn. rewrite app_nil_r. split_and!; [done|done|done|reflexivity|].
    by intros rows [= <-].
  - cbn [NotificationController.all_started]. rewrite createNotification_eq.
    set (w1 := add_event _ _).
    destruct (IH w1) as (news & Hn & Hall & Htm & Hlog & Hrows).
    destruct (NotificationController.all_started _ targets w1) as [rs w2]. cbn [fst snd] in *.
    assert (forall n, n_user_id n ∈ map tm_user_id (targets.*1) ->
                      n_user_id n ∈ map tm_user_id ((member :: targets).*1)) as Hweaken.
    { intros n Hin. cbn. set_solver. }
    assert (extends is_query w w2) as Hlog'.
    { etrans; [|exact Hlog]. eexists [_]. split; [done|]. by constructor. }
    destruct (answer env _ _ (store w)) as [e|row] eqn:Ha.
    + destruct (notification_failed env _ _ _ _ _ _ Ha) as (Hn1 & Htm1 & _).
      exists news. subst w1. cbn [store add_event set_store] in *.
      split_and!.
      * by rewrite Hn, Hn1.
      * eapply Forall_impl; [exact Hall|]. intros n (? & ?). split; [by apply Hweaken|done].
      * by rewrite Htm, Htm1.
      * exact Hlog'.
      * by intros rows [=].
    + destruct (notification_created env _ _ _ _ _ _ Ha) as (Hrow & _ & Hn1 & Htm1 & _).
      exists (row :: news). subst w1. cbn [store add_event set_store] in *.
      split_and!.
      * by rewrite Hn, Hn1, <- app_assoc.
      * constructor.
        -- rewrite Hrow. cbn. split_and!; [set_solver|done..].
        -- eapply Forall_impl; [exact Hall|]. intros n (? & ?). split; [by apply Hweaken|done].
      * by rewrite Htm, Htm1.
      * exact Hlog'.
      * intros rows Hrs. destruct rs as [e|ys]; [done|]. injection Hrs as <-.
        destruct (Hrows ys eq_refl) as [-> Hus]. split; [done|].
        cbn. by rewrite Hus, Hrow.
Qed.

(** X27: whatever [createBulkNotifications] answers, the rows it added to the
    table are for users with a membership row in the team, never for the
    caller and never for the excluded user; and when it answers 201, the
    caller is a member and every other user of the team, the excluded one
    apart, got one, in table order, [created] being their number. *)
Theorem createBulkNotifications_recipients (user : NotificationController.Requester)
    (body : NotificationController.BulkNotificationsRequest) (w : World) :
  let r := NotificationController.createBulkNotifications env (Some user) body w in
  exists news,
    notifications (store r.2) = notifications (store w) ++ news /\
    team_members (store r.2) = team_members (store w) /\
    Forall (fun n =>
              n_user_id n <> NotificationController.id user /\ Some (n_user_id n) <> NotificationController.excludeUserId body /\
              n_type n = NotificationController.bulk_type body /\ n_title n = NotificationController.bulk_title body /\
              exists m, m ∈ team_members (store w) /\ tm_team_id m = NotificationController.teamId body /\
                        tm_user_id m = n_user_id n) news /\
    (forall reply, r.1 = inr reply -> Api.status reply = 201 ->
       is_ok (member_answer env (NotificationController.id user) (NotificationController.teamId body) (store w)) = true /\
       Api.data reply = Some (length news, news) /\
       map n_user_id news
       = filter (fun u => Some u <> NotificationController.excludeUserId body /\ u <> NotificationController.id user)
           (map tm_user_id
              (filter (fun m => tm_team_id m = NotificationController.teamId body) (team_members (store w))))).
Proof.
  cbv zeta. unfold NotificationController.createBulkNotifications, try_catch.
  rewrite bind_eq, isTeamMember_eq.
  destruct (is_ok (member_answer env (NotificationController.id user) (NotificationController.teamId body) (store w))) eqn:Hmember;
    cbn [negb].
  2:{ rewrite ret_eq. exists []. cbn. rewrite app_nil_r. split_and!; [done..|].
      by intros reply [= <-]. }
  rewrite bind_eq.
  set (w1 := add_event _ w).
  pose proof (getTeamMembers_same_store env (NotificationController.teamId body) w1) as Hs2.
  destruct (getTeamMembers env (NotificationController.teamId body) w1) as [[e|teamMembers] w2] eqn:Hteam.
  { rewrite ret_eq. exists []. unfold same in Hs2. cbn [fst snd] in *. rewrite Hs2.
    subst w1. cbn. rewrite app_nil_r. split_and!; [done..|]. by intros reply [= <-]. }
  apply getTeamMembers_rows in Hteam.
  unfold same in Hs2. cbn [snd] in Hs2. subst w1. cbn [store add_event] in Hs2, Hteam.
  rewrite bind_eq.
  set (targets := filter _ teamMembers).
  destruct (all_started_notifications targets (NotificationController.bulk_type body) (NotificationController.bulk_title body)
              (Some (default "" (NotificationController.bulk_content body))) w2)
    as (news & Hn & Hall & Htm & _ & Hrows).
  destruct (NotificationController.all_started _ targets w2) as [rs w3]. cbn [fst snd] in *.
  assert (targets.*1
          = filter (fun m => Some (tm_user_id m) ≠ NotificationController.excludeUserId body /\
                             tm_user_id m ≠ NotificationController.id user) (teamMembers.*1)) as Htargets.
  { subst targets.
    exact (filter_fst (fun m : TeamMember => Some (tm_user_id m) ≠ NotificationController.excludeUserId body /\
                                             tm_user_id m ≠ NotificationController.id user) teamMembers). }
  exists news.
  assert (notifications (store w3) = notifications (store w) ++ news) as Hn' by by rewrite Hn, Hs2.
  assert (team_members (store w3) = team_members (store w)) as Htm' by by rewrite Htm, Hs2.
  assert (Forall (fun n =>
            n_user_id n <> NotificationController.id user /\ Some (n_user_id n) <> NotificationController.excludeUserId body /\
            n_type n = NotificationController.bulk_type body /\ n_title n = NotificationController.bulk_title body /\
            exists m, m ∈ team_members (store w) /\ tm_team_id m = NotificationController.teamId body /\
                      tm_user_id m = n_user_id n) news) as Hall'.
  { eapply Forall_impl; [exact Hall|]. intros n (Hin & Hty & Hti & _).
    rewrite Htargets in Hin. apply list_elem_of_fmap_1 in Hin as (m & Hu & Hm).
    apply list_elem_of_filter in Hm as [[Hex Hself] Hm].
    rewrite Hteam in Hm. apply list_elem_of_filter in Hm as [Hteam_m Hm].
    rewrite Hu. split_and!; [done..|]. by exists m. }
  destruct rs as [e|rows]; rewrite ret_eq; cbn [fst snd].
  - split_and!; [done..|]. by intros reply [= <-].
  - split_and!; [done..|]. intros reply [= <-] _.
    destruct (Hrows rows eq_refl) as [-> Hus].
    split_and!; [done|done|].
    rewrite Hus, Htargets, Hteam.
    generalize (filter (fun m => tm_team_id m = NotificationController.teamId body) (team_members (store w))).
    intros l. induction l as [|m l IH]; [done|].
    cbn [map]. rewrite !filter_cons.
    destruct (decide (Some (tm_user_id m) ≠ NotificationController.excludeUserId body /\ tm_user_id m ≠ NotificationController.id user));
      cbn [map]; by rewrite IH.
Qed.

End Facts.

(** For the sample deployment, where carol asks for a notification to
    everyone in [t-2] but herself. *)
Example bulk_to_team :
  let carol := {| NotificationController.id := "u-carol"; NotificationController.email := "carol@example.org";
                  NotificationController.role := "rescue_team_member" |} in
  let body := {| NotificationController.teamId := "t-2"; NotificationController.bulk_type := "alert"; NotificationController.bulk_title := "Regroup";
                 NotificationController.bulk_content := None; NotificationController.excludeUserId := None |} in
  let r := NotificationController.createBulkNotifications Sample.env0 (Some carol) body Sample.world0 in
  sent_code r.1 = Some 201 /\ map n_user_id (notifications (store r.2)) = ["u-alice"].
Proof. vm_compute. done. Qed.

End NotificationFacts.

(** ** One membership row per user and team *)

Module MembershipFacts.
Import Db Runtime DatabaseService WebSocketService SocketService Http TeamController DbSingle.
Import TeamEndpoints MonadFacts DatabaseFacts.

(** The pair the constraint [UNIQUE(team_id, user_id)] is on. *)
Definition member_key (m : TeamMember) : string * string := (tm_team_id m, tm_user_id m).

Definition unique_membership (s : Store) : Prop :=
  NoDup (map member_key (team_members s)).

(** A property of the store that a step keeps. *)
Definition keeps (I : Store -> Prop) : relation World := fun w w' =>
  I (store w) -> I (store w').

#[global] Instance keeps_preorder (I : Store -> Prop) : PreOrder (keeps I).
Proof. split; [intros w H; exact H|]. intros w1 w2 w3 H1 H2 H. by apply H2, H1. Qed.

Lemma keeps_await_query {A} (I : Store -> Prop) (env : Env) (c : Call)
    (run : Store -> Answer A * Store) :
  (forall s, I s -> I (run s).2) -> preserves (keeps I) (await_query env c run).
Proof.
  intros Hrun w. rewrite await_query_eq. unfold keeps, store_after. cbn.
  destruct (fails env c); [done|apply Hrun].
Qed.

Lemma keeps_modify (I : Store -> Prop) (f : World -> World) :
  (forall w, store (f w) = store w) -> preserves (keeps I) (modify f).
Proof. intros Hf w. unfold keeps, modify. cbn. by rewrite Hf. Qed.

Lemma keeps_with_rng {A} (I : Store -> Prop) (f : Crypto.Rng -> A * Crypto.Rng) :
  preserves (keeps I) (with_rng f).
Proof. intros w H. exact H. Qed.

Lemma preserves_all_started (R : relation World) `{!PreOrder R} {A B} (f : A -> M B)
    (l : list A) :
  (forall x, preserves R (f x)) -> preserves R (NotificationController.all_started f l).
Proof.
  intros Hf. induction l as [|x l IH]; intros w; cbn [NotificationController.all_started]; [reflexivity|].
  specialize (Hf x w). destruct (f x w) as [r w1]. specialize (IH w1).
  destruct (NotificationController.all_started f l w1) as [rs w2]. cbn [snd] in *. by etrans.
Qed.

Lemma keys_filter (P : TeamMember -> Prop) `{!forall m, Decision (P m)} (l : list TeamMember) :
  NoDup (map member_key l) -> NoDup (map member_key (filter P l)).
Proof.
  intros Hl. eapply sublist_NoDup; [exact Hl|].
  apply (fmap_sublist member_key), sublist_filter.
Qed.

Lemma keys_set_status (user team status : string) (l : list TeamMember) :
  map member_key (map (fun m => if is_team_member user team m then with_status status m else m) l)
  = map member_key l.
Proof.
  induction l as [|m l IH]; [done|]. cbn [map]. rewrite IH. f_equal.
  by destruct (is_team_member user team m).
Qed.

Lemma keys_insert (team user : string) (row : TeamMember) (l : list TeamMember) :
  member_key row = (team, user) ->
  existsb (is_team_member user team) l = false ->
  NoDup (map member_key l) -> NoDup (map member_key (l ++ [row])).
Proof.
  intros Hkey Habsent Hl. rewrite map_app. apply NoDup_app. split_and!; [done| |].
  - intros k Hk Hrow. cbn in Hrow. apply list_elem_of_singleton in Hrow. subst k.
    apply list_elem_of_fmap_1 in Hk as (m & Hm & Hin).
    assert (existsb (is_team_member user team) l = true) as Htrue; [|congruence].
    apply existsb_exists. exists m. split; [by apply list_elem_of_In|].
    rewrite Hkey in Hm. injection Hm as Ht Hu. unfold is_team_member.
    by rewrite !bool_decide_eq_true_2.
  - cbn. apply NoDup_singleton.
Qed.

Section Facts.

Variable cipher : Crypto.PasswordCipher.
Variable K : list byte.
Variable env : Env.

(** *** The queries that write *)

Lemma unique_teams_insert (name description : string) (s : Store) :
  unique_membership s -> unique_membership (run_teams_insert env name description s).2.
Proof.
  unfold run_teams_insert, next_uuid, unique_membership. simpl. by case_bool_decide.
Qed.

Lemma unique_teams_delete (id : string) (s : Store) :
  unique_membership s -> unique_membership (run_teams_delete id s).2.
Proof. unfold unique_membership. cbn. apply keys_filter. Qed.

Lemma unique_members_insert (team user role status : string) (s : Store) :
  unique_membership s ->
  unique_membership (run_team_members_insert env team user role status s).2.
Proof.
  unfold run_team_members_insert, next_uuid, unique_membership. simpl.
  destruct (valid_role role); simpl; [|done].
  destruct (valid_status status); simpl; [|done].
  case_bool_decide; simpl; [done|].
  destruct (existsb _ _) eqn:Habsent; simpl; [done|].
  by apply (keys_insert team user).
Qed.

Lemma unique_members_insert_single (team user role status : string) (s : Store) :
  unique_membership s ->
  unique_membership (run_team_members_insert_single env team user role status s).2.
Proof.
  unfold run_team_members_insert_single, next_uuid, unique_membership. simpl.
  destruct (valid_role role); simpl; [|done].
  destruct (valid_status status); simpl; [|done].
  case_bool_decide; simpl; [done|].
  destruct (existsb _ _) eqn:Habsent; simpl; [done|].
  case_bool_decide; simpl; [|done]. case_bool_decide; simpl; [|done].
  by apply (keys_insert team user).
Qed.

Lemma unique_members_delete (team user : string) (s : Store) :
  unique_membership s -> unique_membership (run_team_members_delete team user s).2.
Proof. unfold unique_membership. cbn. apply keys_filter. Qed.

Lemma unique_update_status (user team status : string) (s : Store) :
  unique_membership s -> unique_membership (run_team_members_update_status user team status s).2.
Proof.
  unfold run_team_members_update_status, unique_membership.
  destruct (_ && _); [done|]. cbn. by rewrite keys_set_status.
Qed.

Lemma unique_update_status_single (user team status : string) (s : Store) :
  unique_membership s ->
  unique_membership (run_team_members_update_status_single user team status s).2.
Proof.
  unfold run_team_members_update_status_single, unique_membership.
  destruct (_ && _); [done|]. destruct (single _); [done|]. cbn. by rewrite keys_set_status.
Qed.

Lemma unique_messages_insert (team : string) (mission : option string)
    (sender content : string) (is_encrypted : bool) (s : Store) :
  unique_membership s ->
  unique_membership (run_messages_insert env team mission sender content is_encrypted s).2.
Proof.
  unfold run_messages_insert, next_uuid, unique_membership. simpl. by case_bool_decide.
Qed.

Lemma unique_notifications_insert (user type title : string) (content : option string)
    (s : Store) :
  unique_membership s ->
  unique_membership (run_notifications_insert env user type title content s).2.
Proof.
  unfold run_notifications_insert, next_uuid, unique_membership. simpl.
  destruct (valid_type type); simpl; [|done]. by case_bool_decide.
Qed.

(** Steps through a handler body, down to its queries. *)
Ltac keep :=
  preserve;
  first
    [ apply keeps_await_query; intros ?; first
        [ exact (fun H => H)
        | apply unique_teams_insert | apply unique_teams_delete
        | apply unique_members_insert | apply unique_members_insert_single
        | apply unique_members_delete
        | apply unique_update_status | apply unique_update_status_single
        | apply unique_messages_insert | apply unique_notifications_insert ]
    | apply keeps_modify; reflexivity
    | apply keeps_with_rng ].

(** *** The requests *)

(** A call of one of the handlers, with its arguments. *)
Inductive Request :=
| do_createTeam (user : option AuthUser) (body : CreateTeamRequest)
| do_getTeam (user : option AuthUser) (teamId : string)
| do_addTeamMember (user : option AuthUser) (teamId : string) (body : AddTeamMemberRequest)
| do_removeTeamMember (user : option AuthUser) (teamId userId : string)
| do_updateUserStatus (user : option AuthUser) (teamId status : string)
| do_sendMessage (user : option AuthUser) (body : MessageController.SendMessageRequest) (wsService : bool)
| do_createNotification (user : option NotificationController.Requester) (body : NotificationController.CreateNotificationRequest)
| do_createBulkNotifications (user : option NotificationController.Requester) (body : NotificationController.BulkNotificationsRequest)
| on_connection (socket : Socket)
| on_join_team (socket : Socket) (teamId : string)
| on_leave (socket : Socket) (teamId : string)
| on_status (socket : Socket) (teamId status : string)
| on_close (socket : Socket).

(** The world after the handler has run. *)
Definition after (request : Request) (w : World) : World :=
  match request with
  | do_createTeam user body => (createTeam env user body w).2
  | do_getTeam user teamId => (getTeam env user teamId w).2
  | do_addTeamMember user teamId body => (addTeamMember env user teamId body w).2
  | do_removeTeamMember user teamId userId => (removeTeamMember env user teamId userId w).2
  | do_updateUserStatus user teamId status => (updateUserStatus env user teamId status w).2
  | do_sendMessage user body wsService => (MessageController.sendMessage cipher K env user body wsService w).2
  | do_createNotification user body => (NotificationController.createNotification env user body w).2
  | do_createBulkNotifications user body => (NotificationController.createBulkNotifications env user body w).2
  | on_connection socket => (connection env socket w).2
  | on_join_team socket teamId => (joinTeam env socket teamId (user_id socket) w).2
  | on_leave socket teamId => (on_leave_team socket teamId w).2
  | on_status socket teamId status => (on_status_update env socket teamId status w).2
  | on_close socket => (on_disconnect env socket w).2
  end.

Lemma after_keeps (request : Request) (w : World) :
  keeps unique_membership w (after request w).
Proof.
  destruct request as [user body|user teamId|user teamId body|user teamId target
                      |user teamId status|user body wsService|user body|user body
                      |socket|socket teamId|socket teamId|socket teamId status|socket];
    cbn [after].
  - assert (preserves (keeps unique_membership) (createTeam env user body)) as H; [|apply H].
    unfold createTeam, getTeamWithMembers, getTeamMembers, getUserById. keep.
  - assert (preserves (keeps unique_membership) (getTeam env user teamId)) as H; [|apply H].
    unfold getTeam, getTeamWithMembers, getTeamMembers, getUserById, isTeamMember. keep.
  - assert (preserves (keeps unique_membership) (addTeamMember env user teamId body)) as H;
      [|apply H].
    unfold addTeamMember, isTeamLeader, isTeamMember, getUserById, createNotification. keep.
  - assert (preserves (keeps unique_membership) (removeTeamMember env user teamId target)) as H;
      [|apply H].
    unfold removeTeamMember, isTeamLeader. keep.
  - assert (preserves (keeps unique_membership) (updateUserStatus env user teamId status)) as H;
      [|apply H].
    unfold updateUserStatus, isTeamMember, getTeamMembers, getUserById, createNotification. keep.
  - assert (preserves (keeps unique_membership) (MessageController.sendMessage cipher K env user body wsService))
      as H; [|apply H].
    unfold MessageController.sendMessage, isTeamMember, getTeamMembers, getUserById, createNotification,
      broadcastNewMessage, emit. keep.
  - assert (preserves (keeps unique_membership) (NotificationController.createNotification env user body)) as H;
      [|apply H].
    unfold NotificationController.createNotification, createNotification. keep.
  - assert (preserves (keeps unique_membership) (NotificationController.createBulkNotifications env user body)) as H;
      [|apply H].
    unfold NotificationController.createBulkNotifications, isTeamMember, getTeamMembers, getUserById.
    preserve; first [ apply preserves_all_started; [tc_solve|]; intros;
                      unfold createNotification | idtac ]; keep.
  - assert (preserves (keeps unique_membership) (connection env socket)) as H; [|apply H].
    unfold connection, joinUserTeams, getUserTeams, socket_join. keep.
  - assert (preserves (keeps unique_membership) (joinTeam env socket teamId (user_id socket)))
      as H; [|apply H].
    unfold joinTeam, isTeamMember, socket_join, emit. keep.
  - intros H. exact H.
  - assert (preserves (keeps unique_membership) (on_status_update env socket teamId status))
      as H; [|apply H].
    unfold on_status_update, isTeamMember, getTeamMembers, getUserById, createNotification,
      emit. keep.
  - assert (preserves (keeps unique_membership) (on_disconnect env socket)) as H; [|apply H].
    unfold on_disconnect, updateUserOfflineStatus, getUserTeams, emit. keep.
Qed.

(** X28: through any sequence of the handlers, run one after the other, no
    user comes to hold two membership rows in one team: the inserts are
    refused by the table's UNIQUE constraint, and no handler rewrites the
    team or the user of a row. *)
Theorem membership_stays_unique (requests : list Request) (w : World) :
  unique_membership (store w) ->
  unique_membership (store (foldl (fun w request => after request w) w requests)).
Proof.
  revert w. induction requests as [|request requests IH]; intros w Hw; [done|].
  cbn [foldl]. apply IH. by apply after_keeps.
Qed.

End Facts.

(** In the sample deployment: alice adds carol to [t-1] twice, carol
    connects and reports a status, alice creates a team. *)
Lemma membership_stays_unique_sample :
  let carol_socket := {| socket_id := "s-3"; user_id := "u-carol";
                         user_email := "carol@example.org" |} in
  let requests :=
    [ do_addTeamMember (Some Sample.alice_auth) "t-1"
        {| userId := "u-carol"; role := None; teamName := None |};
      do_addTeamMember (Some Sample.alice_auth) "t-1"
        {| userId := "u-carol"; role := Some "observer"; teamName := None |};
      on_connection carol_socket;
      on_status carol_socket "t-1" "safe";
      do_createTeam (Some Sample.alice_auth) {| name := "Charlie"; description := None |} ] in
  let w' := foldl (fun w request =>
                     after CryptoFacts.Xor.cipher EncryptionFacts.sample_key Sample.env0 request w)
              Sample.world0 requests in
  unique_membership (store w') /\ length (team_members (store w')) = 6.
Proof.
  cbv zeta. split.
  - apply (membership_stays_unique CryptoFacts.Xor.cipher EncryptionFacts.sample_key
             Sample.env0).
    unfold unique_membership. WebSocketFacts.by_deciding.
  - vm_compute. reflexivity.
Defined.

End MembershipFacts.
